(** * WebsiteEditorWithPreview: the draggable preview thumbnail

    A shallow embedding of [src/components/WebsiteEditorWithPreview.jsx]:
    the [SmoothDraggable] gesture engine, the [DraggableThumbnail] click
    classifier and the [WebsiteEditorWithPreview] host that owns the
    thumbnail position.  The file holds two variants of the component
    (with and without the URL bar); the drag engine, the click classifier,
    the snap zones and the resize effect are textually identical in both,
    so one model covers both.

    Modelling choices.
    - Pixel coordinates, viewport sizes and time stamps are integers
      ([Z]).  Every comparison the source makes on a [Math.sqrt] result
      is made here on the squared distance; [distance_gt], [distance_lt]
      and [distance_lt_distance] prove that the two tests agree over the
      reals.
    - A React component is its state ([useState]), its refs ([useRef])
      and the ambient DOM it writes ([document.body.style], [window]).
      One DOM event is one step: the handler runs, then React re-renders
      and runs the effects whose dependencies changed ([render]).
    - Calls through the callback props of [SmoothDraggable] are recorded,
      in order, in [log].
    - The zoom factor of the modal is a binary64 number ([Zoom]); its
      [useState] cell is written by the zoom keys and buttons only and is
      read by no handler of the thumbnail, so it is kept apart from
      [System].  The same holds for the URL bar of the second variant
      ([Url]), where [String.prototype.trim] and the URL parser behind
      [new URL] are left abstract. *)

From Stdlib Require Import ZArith List Bool Lia Reals Rgeom Lra.
From Stdlib Require Floats Strings.String.
Import ListNotations.
Local Open Scope Z_scope.

(** ** Distances *)

Module Euclid.

(** [deltaX * deltaX + deltaY * deltaY], the argument of [Math.sqrt]. *)
Definition sq (deltaX deltaY : Z) : Z := deltaX * deltaX + deltaY * deltaY.

(** The distance the source computes, over the reals. *)
Definition distance (deltaX deltaY : Z) : R := sqrt (IZR (sq deltaX deltaY)).

End Euclid.

(** ** Data *)

Record Point := mkPoint { x : Z; y : Z }.

Definition Point_eqb (p q : Point) : bool := (x p =? x q) && (y p =? y q).

Inductive CornerName := top_left | top_right | bottom_left | bottom_right.

Record Corner := mkCorner { corner_x : Z; corner_y : Z; name : CornerName }.

(** [document.body.style.cursor] and [document.body.style.userSelect]. *)
Inductive Cursor := cursor_unset | grab | grabbing.
Inductive UserSelect := select_unset | select_none.

(** [dragDataRef.current] of [SmoothDraggable]. *)
Module Drag.
Record t := mk {
  isDragging : bool;
  startX : Z;
  startY : Z;
  startLeft : Z;
  startTop : Z;
  currentX : Z;
  currentY : Z;
  hasMoved : bool
}.

(** The record written at mount and by the disabled effect. *)
Definition neutral (position : Point) : t :=
  mk false 0 0 0 0 (x position) (y position) false.

(** The record written by a press. *)
Definition armed (clientX clientY rectLeft rectTop : Z) : t :=
  mk false clientX clientY rectLeft rectTop rectLeft rectTop false.

Definition set_current (bx by_ : Z) (d : t) : t :=
  mk (isDragging d) (startX d) (startY d) (startLeft d) (startTop d)
     bx by_ (hasMoved d).

(** [isDragging = true; hasMoved = true]. *)
Definition set_started (d : t) : t :=
  mk true (startX d) (startY d) (startLeft d) (startTop d)
     (currentX d) (currentY d) true.

(** The four assignments at the top of [handleMouseUp]. *)
Definition released (d : t) : t :=
  mk false 0 0 (startLeft d) (startTop d) (currentX d) (currentY d) false.
End Drag.

(** [clickDataRef.current] of [DraggableThumbnail]. *)
Module Click.
Record t := mk { startTime : Z; startX : Z; startY : Z }.
Definition neutral : t := mk 0 0 0.
End Click.

(** Calls made by [SmoothDraggable] through its callback props. *)
Inductive Call :=
| PositionChange (p : Point)               (* onPositionChange({x, y}) *)
| SetIsDragging (b : bool)                 (* setIsDragging(b) *)
| DragStart                                (* onDragStart?.() *)
| DragEnd                                  (* onDragEnd?.() *)
| SnapToCorner (c : Corner)                (* onSnapToCorner(snapTarget) *)
| MouseDownCb (clientX clientY : Z)        (* onMouseDown?.(e) *)
| MouseUpCb (wasDragging moved : bool).    (* onMouseUp?.(e, was, moved) *)

(** The props of [SmoothDraggable] that a caller may leave out:
    whether [onDragStart] and [onDragEnd] are given, and [snapToCorners]
    (default [false]). *)
Record Optional := {
  onDragStart : bool;
  onDragEnd : bool;
  snapToCorners : bool
}.

(** What [DraggableThumbnail] passes: [snapToCorners={true}] and neither
    of the two callbacks. *)
Definition thumbnailProps : Optional :=
  {| onDragStart := false; onDragEnd := false; snapToCorners := true |}.

(** ** DOM events *)

(** [onControl] is [e.target.closest('button, .control-button, .no-drag')]
    being non-null; [now] is what [Date.now()] returns in the handler. *)
Record MouseEvent := {
  clientX : Z;
  clientY : Z;
  button : Z;
  onControl : bool;
  now : Z
}.

Record Touch := { touch_clientX : Z; touch_clientY : Z }.

Record TouchEvent := {
  touches : list Touch;
  touch_onControl : bool;
  touch_now : Z
}.

(** The event object [handleMouseUp] receives: a [MouseEvent] from
    [mouseup], a [TouchEvent] from [handleTouchEnd]. *)
Inductive DomEvent := OfMouse (e : MouseEvent) | OfTouch (e : TouchEvent).

(** [e.clientX, e.clientY]: [undefined] on a [TouchEvent]. *)
Definition eventClient (e : DomEvent) : option (Z * Z) :=
  match e with
  | OfMouse m => Some (clientX m, clientY m)
  | OfTouch _ => None
  end.

Definition eventOnControl (e : DomEvent) : bool :=
  match e with
  | OfMouse m => onControl m
  | OfTouch t => touch_onControl t
  end.

Definition eventNow (e : DomEvent) : Z :=
  match e with
  | OfMouse m => now m
  | OfTouch t => touch_now t
  end.

Inductive Key := Escape | Plus | Equals | Minus | Zero | KeyM | OtherKey.

Record System := mkSystem {
  (* window *)
  innerWidth : Z;
  innerHeight : Z;
  (* document.body.style *)
  cursor : Cursor;
  userSelect : UserSelect;
  (* useState of WebsiteEditorWithPreview *)
  showLargePreview : bool;
  isHovered : bool;
  isMinimized : bool;
  isDragging : bool;
  thumbnailPosition : Point;
  (* refs *)
  dragDataRef : Drag.t;
  clickDataRef : Click.t;
  (* pending setTimeout(() => setShowLargePreview(true), 50) *)
  pendingOpen : nat;
  (* calls through the props of SmoothDraggable, oldest first *)
  log : list Call
}.

Definition set_window (w h : Z) (s : System) : System :=
  mkSystem w h (cursor s) (userSelect s) (showLargePreview s) (isHovered s)
    (isMinimized s) (isDragging s) (thumbnailPosition s) (dragDataRef s)
    (clickDataRef s) (pendingOpen s) (log s).

Definition set_cursor (c : Cursor) (s : System) : System :=
  mkSystem (innerWidth s) (innerHeight s) c (userSelect s)
    (showLargePreview s) (isHovered s) (isMinimized s) (isDragging s)
    (thumbnailPosition s) (dragDataRef s) (clickDataRef s) (pendingOpen s)
    (log s).

Definition set_userSelect (u : UserSelect) (s : System) : System :=
  mkSystem (innerWidth s) (innerHeight s) (cursor s) u
    (showLargePreview s) (isHovered s) (isMinimized s) (isDragging s)
    (thumbnailPosition s) (dragDataRef s) (clickDataRef s) (pendingOpen s)
    (log s).

Definition setShowLargePreview (b : bool) (s : System) : System :=
  mkSystem (innerWidth s) (innerHeight s) (cursor s) (userSelect s)
    b (isHovered s) (isMinimized s) (isDragging s)
    (thumbnailPosition s) (dragDataRef s) (clickDataRef s) (pendingOpen s)
    (log s).

Definition setIsHovered (b : bool) (s : System) : System :=
  mkSystem (innerWidth s) (innerHeight s) (cursor s) (userSelect s)
    (showLargePreview s) b (isMinimized s) (isDragging s)
    (thumbnailPosition s) (dragDataRef s) (clickDataRef s) (pendingOpen s)
    (log s).

Definition setIsMinimized (b : bool) (s : System) : System :=
  mkSystem (innerWidth s) (innerHeight s) (cursor s) (userSelect s)
    (showLargePreview s) (isHovered s) b (isDragging s)
    (thumbnailPosition s) (dragDataRef s) (clickDataRef s) (pendingOpen s)
    (log s).

Definition set_isDragging (b : bool) (s : System) : System :=
  mkSystem (innerWidth s) (innerHeight s) (cursor s) (userSelect s)
    (showLargePreview s) (isHovered s) (isMinimized s) b
    (thumbnailPosition s) (dragDataRef s) (clickDataRef s) (pendingOpen s)
    (log s).

Definition setThumbnailPosition (p : Point) (s : System) : System :=
  mkSystem (innerWidth s) (innerHeight s) (cursor s) (userSelect s)
    (showLargePreview s) (isHovered s) (isMinimized s) (isDragging s)
    p (dragDataRef s) (clickDataRef s) (pendingOpen s) (log s).

Definition set_dragData (d : Drag.t) (s : System) : System :=
  mkSystem (innerWidth s) (innerHeight s) (cursor s) (userSelect s)
    (showLargePreview s) (isHovered s) (isMinimized s) (isDragging s)
    (thumbnailPosition s) d (clickDataRef s) (pendingOpen s) (log s).

Definition set_clickData (c : Click.t) (s : System) : System :=
  mkSystem (innerWidth s) (innerHeight s) (cursor s) (userSelect s)
    (showLargePreview s) (isHovered s) (isMinimized s) (isDragging s)
    (thumbnailPosition s) (dragDataRef s) c (pendingOpen s) (log s).

Definition set_pendingOpen (n : nat) (s : System) : System :=
  mkSystem (innerWidth s) (innerHeight s) (cursor s) (userSelect s)
    (showLargePreview s) (isHovered s) (isMinimized s) (isDragging s)
    (thumbnailPosition s) (dragDataRef s) (clickDataRef s) n (log s).

Definition emit (c : Call) (s : System) : System :=
  mkSystem (innerWidth s) (innerHeight s) (cursor s) (userSelect s)
    (showLargePreview s) (isHovered s) (isMinimized s) (isDragging s)
    (thumbnailPosition s) (dragDataRef s) (clickDataRef s) (pendingOpen s)
    (log s ++ [c]).

(** [f?.()] for an optional prop. *)
Definition emit_opt (present : bool) (c : Call) (s : System) : System :=
  if present then emit c s else s.

(** [document.body.style.cursor = ''; document.body.style.userSelect = '']. *)
Definition clear_styles (s : System) : System :=
  set_userSelect select_unset (set_cursor cursor_unset s).

(** ** Geometry shared by the three components *)

Definition elementWidth : Z := 320.
Definition elementHeight (minimized : bool) : Z := if minimized then 60 else 180.
Definition margin : Z := 10.
Definition snapDistance : Z := 100.

(** [Math.max(0, Math.min(v, limit))]. *)
Definition bounded (v limit : Z) : Z := Z.max 0 (Z.min v limit).

(** The point [updatePosition] hands to [onPositionChange], for a viewport
    [windowWidth] by [windowHeight] and an element [width] by [height]. *)
Definition clamp (p : Point) (width height windowWidth windowHeight : Z) : Point :=
  mkPoint (bounded (x p) (windowWidth - width))
          (bounded (y p) (windowHeight - height)).

(** ** SmoothDraggable *)

(** [setIsDragging(b)] called through the prop. *)
Definition callSetIsDragging (b : bool) (s : System) : System :=
  set_isDragging b (emit (SetIsDragging b) s).

(** [onPositionChange(p)], which is [setThumbnailPosition]. *)
Definition onPositionChange (p : Point) (s : System) : System :=
  setThumbnailPosition p (emit (PositionChange p) s).

(** [updatePosition(x, y, smooth)]; [smooth] only selects the CSS
    transition and is dropped. *)
Definition updatePosition (px py : Z) (s : System) : System :=
  let windowWidth := innerWidth s in
  let windowHeight := innerHeight s in
  let boundedX := bounded px (windowWidth - elementWidth) in
  let boundedY := bounded py (windowHeight - elementHeight (isMinimized s)) in
  let s := set_dragData (Drag.set_current boundedX boundedY (dragDataRef s)) s in
  onPositionChange (mkPoint boundedX boundedY) s.

(** The [disabled] prop of [DraggableThumbnail] and [SmoothDraggable]:
    [disabled={showLargePreview}]. *)
Definition disabled (s : System) : bool := showLargePreview s.

(** ** DraggableThumbnail: click classification *)

Module Thumbnail.

(** [handleMouseDown(e)]. *)
Definition handleMouseDown (cx cy time : Z) (s : System) : System :=
  if disabled s then s
  else set_clickData (Click.mk time cx cy) s.

(** [handleMouseUp(e, wasActuallyDragging, hasMoved)].  A genuine click
    schedules [setShowLargePreview(true)] after 50 ms. *)
Definition handleMouseUp (e : DomEvent) (wasActuallyDragging hasMoved : bool)
    (s : System) : System :=
  if disabled s then s
  else
    let isButtonClick := eventOnControl e in
    let s :=
      if negb wasActuallyDragging && negb hasMoved && negb isButtonClick then
        let clickDuration := eventNow e - Click.startTime (clickDataRef s) in
        match eventClient e with
        | Some (cx, cy) =>
            let clickDistance2 :=
              Euclid.sq (cx - Click.startX (clickDataRef s))
                        (cy - Click.startY (clickDataRef s)) in
            if (clickDuration <? 500) && (clickDistance2 <? 10 * 10)
            then set_pendingOpen (S (pendingOpen s)) s
            else s
        | None => s (* the distance is NaN, and NaN < 10 is false *)
        end
      else s in
    set_clickData Click.neutral s.

End Thumbnail.

(** ** WebsiteEditorWithPreview: the snap callback *)

(** [handleSnapToCorner(corner)]. *)
Definition handleSnapToCorner (corner : Corner) (s : System) : System :=
  setThumbnailPosition (mkPoint (corner_x corner) (corner_y corner)) s.

(** ** SmoothDraggable: the corner search of [handleMouseUp] *)

(** The array [corners] built in [handleMouseUp]. *)
Definition corners (windowWidth windowHeight : Z) (minimized : bool)
    : list Corner :=
  let thumbnailWidth := 320 in
  let thumbnailHeight := elementHeight minimized in
  [ mkCorner margin margin top_left;
    mkCorner (windowWidth - thumbnailWidth - margin) margin top_right;
    mkCorner margin (windowHeight - thumbnailHeight - margin) bottom_left;
    mkCorner (windowWidth - thumbnailWidth - margin)
             (windowHeight - thumbnailHeight - margin) bottom_right ].

(** Squared distance from the point [(cx, cy)] to a corner. *)
Definition cornerDistance2 (cx cy : Z) (corner : Corner) : Z :=
  Euclid.sq (cx - corner_x corner) (cy - corner_y corner).

(** [distance < minDistance], where [None] is the initial [Infinity]. *)
Definition below (distance2 : Z) (minDistance2 : option Z) : bool :=
  match minDistance2 with
  | None => true
  | Some m => distance2 <? m
  end.

(** One iteration of [for (const corner of corners)]; the state is
    [(snapTarget, minDistance)]. *)
Definition snapStep (cx cy : Z) (acc : option Corner * option Z)
    (corner : Corner) : option Corner * option Z :=
  let distance2 := cornerDistance2 cx cy corner in
  if (distance2 <? snapDistance * snapDistance) && below distance2 (snd acc)
  then (Some corner, Some distance2)
  else acc.

(** The loop: [snapTarget] after the last iteration. *)
Definition findSnapTarget (cx cy : Z) (cs : list Corner) : option Corner :=
  fst (fold_left (snapStep cx cy) cs (None, None)).

(** ** SmoothDraggable: the handlers *)

Section SmoothDraggable.

Variable props : Optional.

(** [handleMouseDown(e)]; [rect] is what
    [elementRef.current.getBoundingClientRect()] returns. *)
Definition handleMouseDown (e : MouseEvent) (rect : Point) (s : System)
    : System :=
  if negb (button e =? 0) || disabled s then s
  else if onControl e then s
  else
    let s := set_dragData
               (Drag.armed (clientX e) (clientY e) (x rect) (y rect)) s in
    let s := emit (MouseDownCb (clientX e) (clientY e)) s in
    let s := Thumbnail.handleMouseDown (clientX e) (clientY e) (now e) s in
    set_userSelect select_none (set_cursor grab s).

(** The part shared by [handleMouseMove] and [handleTouchMove] after the
    guard: threshold test, then the position update.  [withCursor] is
    the one difference: only the mouse path sets the [grabbing] cursor. *)
Definition moveTo (withCursor : bool) (cx cy : Z) (s : System) : System :=
  let deltaX := cx - Drag.startX (dragDataRef s) in
  let deltaY := cy - Drag.startY (dragDataRef s) in
  let distance2 := Euclid.sq deltaX deltaY in
  let s :=
    if (5 * 5 <? distance2) && negb (Drag.isDragging (dragDataRef s)) then
      let s := set_dragData (Drag.set_started (dragDataRef s)) s in
      let s := callSetIsDragging true s in
      let s := if withCursor then set_cursor grabbing s else s in
      emit_opt (onDragStart props) DragStart s
    else s in
  if Drag.isDragging (dragDataRef s) then
    let newX := Drag.startLeft (dragDataRef s) + deltaX in
    let newY := Drag.startTop (dragDataRef s) + deltaY in
    updatePosition newX newY s
  else s.

(** [handleMouseMove(e)]; [!dragDataRef.current.startX] is true exactly
    when [startX] is [0]. *)
Definition handleMouseMove (e : MouseEvent) (s : System) : System :=
  if (Drag.startX (dragDataRef s) =? 0) || disabled s then s
  else moveTo true (clientX e) (clientY e) s.

(** [handleMouseUp(e)].  [onSnapToCorner] is a required prop of the
    caller, so the test [snapToCorners && onSnapToCorner] is
    [snapToCorners]. *)
Definition handleMouseUp (e : DomEvent) (s : System) : System :=
  let wasActuallyDragging := Drag.isDragging (dragDataRef s) in
  let hasMoved := Drag.hasMoved (dragDataRef s) in
  let s := set_dragData (Drag.released (dragDataRef s)) s in
  let s := callSetIsDragging false s in
  let s := clear_styles s in
  let s :=
    if wasActuallyDragging && snapToCorners props && negb (disabled s) then
      match findSnapTarget (Drag.currentX (dragDataRef s))
                           (Drag.currentY (dragDataRef s))
                           (corners (innerWidth s) (innerHeight s)
                                    (isMinimized s)) with
      | Some snapTarget =>
          let s := updatePosition (corner_x snapTarget)
                                  (corner_y snapTarget) s in
          handleSnapToCorner snapTarget (emit (SnapToCorner snapTarget) s)
      | None => s
      end
    else s in
  let s :=
    if negb (disabled s) then
      Thumbnail.handleMouseUp e wasActuallyDragging hasMoved
        (emit (MouseUpCb wasActuallyDragging hasMoved) s)
    else s in
  emit_opt (onDragEnd props) DragEnd s.

(** [handleTouchStart(e)]. *)
Definition handleTouchStart (e : TouchEvent) (rect : Point) (s : System)
    : System :=
  if negb (length (touches e) =? 1)%nat || disabled s then s
  else if touch_onControl e then s
  else
    match touches e with
    | touch :: _ =>
        let s := set_dragData
                   (Drag.armed (touch_clientX touch) (touch_clientY touch)
                               (x rect) (y rect)) s in
        let s := emit (MouseDownCb (touch_clientX touch)
                                   (touch_clientY touch)) s in
        Thumbnail.handleMouseDown (touch_clientX touch) (touch_clientY touch)
                                  (touch_now e) s
    | [] => s
    end.

(** [handleTouchMove(e)]. *)
Definition handleTouchMove (e : TouchEvent) (s : System) : System :=
  if (Drag.startX (dragDataRef s) =? 0)
     || negb (length (touches e) =? 1)%nat
     || disabled s then s
  else
    match touches e with
    | touch :: _ => moveTo false (touch_clientX touch) (touch_clientY touch) s
    | [] => s
    end.

(** [handleTouchEnd(e)]: [handleMouseUp(e)], whatever [e.touches] holds. *)
Definition handleTouchEnd (e : TouchEvent) (s : System) : System :=
  handleMouseUp (OfTouch e) s.

(** *** Effects of SmoothDraggable *)

(** The effect on [[disabled, setIsDragging, position.x, position.y]]. *)
Definition disabledEffect (s : System) : System :=
  if disabled s then
    let wasCurrentlyDragging := Drag.isDragging (dragDataRef s) in
    let s := set_dragData (Drag.neutral (thumbnailPosition s)) s in
    let s := if wasCurrentlyDragging then callSetIsDragging false s else s in
    clear_styles s
  else s.

(** The cleanup of the listener effect. *)
Definition listenersCleanup (s : System) : System := clear_styles s.

(** The effect on [[position.x, position.y, updatePosition]]. *)
Definition positionEffect (s : System) : System :=
  let position := thumbnailPosition s in
  let currentPos := dragDataRef s in
  let positionChanged :=
    (1 <? Z.abs (Drag.currentX currentPos - x position))
    || (1 <? Z.abs (Drag.currentY currentPos - y position)) in
  if positionChanged && negb (Drag.isDragging (dragDataRef s))
  then updatePosition (x position) (y position) s
  else s.

End SmoothDraggable.

(** ** Effects of DraggableThumbnail and WebsiteEditorWithPreview *)

(** [DraggableThumbnail]: the effect on [[disabled, setIsHovered]]. *)
Definition hoverEffect (s : System) : System :=
  if disabled s then setIsHovered false s else s.

(** [WebsiteEditorWithPreview]: the effect on [[showLargePreview]]. *)
Definition modalClosedEffect (s : System) : System :=
  if negb (showLargePreview s)
  then clear_styles (setIsHovered false (set_isDragging false s))
  else s.

(** [handleResize()], run with the new [window.innerWidth/innerHeight]. *)
Definition handleResize (s : System) : System :=
  let windowWidth := innerWidth s in
  let windowHeight := innerHeight s in
  let thumbnailWidth := 320 in
  let thumbnailHeight := elementHeight (isMinimized s) in
  let maxX := windowWidth - thumbnailWidth in
  let maxY := windowHeight - thumbnailHeight in
  let position := thumbnailPosition s in
  if (maxX <? x position) || (maxY <? y position) then
    let newX := Z.min (x position) maxX in
    let newY := Z.min (y position) maxY in
    setThumbnailPosition (mkPoint (Z.max 0 newX) (Z.max 0 newY)) s
  else s.

(** [handleKeyDown(e)] without the zoom keys' effect on the scale. *)
Definition handleKeyDown (key : Key) (ctrlKey : bool) (s : System) : System :=
  let minimized := isMinimized s in
  let s :=
    if showLargePreview s then
      match key with
      | Escape => setShowLargePreview false s
      | _ => s
      end
    else s in
  match key with
  | KeyM => if ctrlKey then setIsMinimized (negb minimized) s else s
  | _ => s
  end.

(** ** One event, then React *)

Inductive Event :=
| mousedown (e : MouseEvent) (rect : Point)
| mousemove (e : MouseEvent)
| mouseup (e : MouseEvent)
| touchstart (e : TouchEvent) (rect : Point)
| touchmove (e : TouchEvent)
| touchend (e : TouchEvent)
| keydown (key : Key) (ctrlKey : bool)
| resize (windowWidth windowHeight : Z)
| mouseenter
| mouseleave
| click_minimize
| click_expand
| click_fullscreen
| click_close
| timeout.

Section React.

Variable props : Optional.

(** The handler an event reaches.  The four document listeners exist
    only while [disabled] is false (the listener effect returns early
    otherwise); the element handlers are React props. *)
Definition dispatch (ev : Event) (s : System) : System :=
  match ev with
  | mousedown e rect => handleMouseDown e rect s
  | touchstart e rect => handleTouchStart e rect s
  | mousemove e => if disabled s then s else handleMouseMove props e s
  | mouseup e => if disabled s then s else handleMouseUp props (OfMouse e) s
  | touchmove e => if disabled s then s else handleTouchMove props e s
  | touchend e => if disabled s then s else handleTouchEnd props e s
  | keydown key ctrlKey => handleKeyDown key ctrlKey s
  | resize w h => handleResize (set_window w h s)
  | mouseenter =>
      if negb (isDragging s) && negb (disabled s)
      then setIsHovered true s else s
  | mouseleave =>
      if negb (isDragging s) && negb (disabled s)
      then setIsHovered false s else s
  | click_minimize => if disabled s then s else setIsMinimized true s
  | click_expand => if disabled s then s else setIsMinimized false s
  | click_fullscreen => if disabled s then s else setShowLargePreview true s
  | click_close => setShowLargePreview false s
  | timeout =>
      match pendingOpen s with
      | O => s
      | S n => setShowLargePreview true (set_pendingOpen n s)
      end
  end.

(** One commit: the cleanups and effects whose dependencies differ
    between the previous render [prev] and this one, children first. *)
Definition runEffects (prev cur : System) : System :=
  let disabledChanged :=
    negb (Bool.eqb (showLargePreview prev) (showLargePreview cur)) in
  let minimizedChanged :=
    negb (Bool.eqb (isMinimized prev) (isMinimized cur)) in
  let positionChanged :=
    negb (Point_eqb (thumbnailPosition prev) (thumbnailPosition cur)) in
  let s := cur in
  let s := if disabledChanged || minimizedChanged
           then listenersCleanup s else s in
  let s := if disabledChanged || positionChanged
           then disabledEffect s else s in
  let s := if positionChanged || minimizedChanged
           then positionEffect s else s in
  let s := if disabledChanged then hoverEffect s else s in
  if disabledChanged then modalClosedEffect s else s.

(** An effect that sets state causes one more render; the second commit
    leaves nothing to do ([render_settled]). *)
Definition render (prev cur : System) : System :=
  let s1 := runEffects prev cur in
  runEffects cur s1.

Definition step (ev : Event) (s : System) : System :=
  render s (dispatch ev s).

Definition run (evs : list Event) (s : System) : System :=
  fold_left (fun s ev => step ev s) evs s.

End React.

(** The state after mount, in a viewport [w] by [h]. *)
Definition initial (w h : Z) : System :=
  mkSystem w h cursor_unset select_unset false false false false
    (mkPoint 20 20) (Drag.neutral (mkPoint 20 20)) Click.neutral 0 [].

Inductive reachable (props : Optional) : System -> Prop :=
| reachable_initial w h : 0 <= w -> 0 <= h -> reachable props (initial w h)
| reachable_step ev s :
    reachable props s -> reachable props (step props ev s).

(** ** Specification vocabulary *)

(** The calls made between [s] and [s']. *)
Definition emitted (s s' : System) (calls : list Call) : Prop :=
  log s' = log s ++ calls.

Definition isPositionChange (c : Call) : bool :=
  match c with PositionChange _ => true | _ => false end.

(** The bounds as the specification writes them. *)
Definition inBounds (s : System) : Prop :=
  0 <= x (thumbnailPosition s) <= innerWidth s - elementWidth /\
  0 <= y (thumbnailPosition s)
    <= innerHeight s - elementHeight (isMinimized s).

(** The bounds the clamp guarantees: the upper bound never drops below 0. *)
Definition inRange (s : System) : Prop :=
  0 <= x (thumbnailPosition s) <= Z.max 0 (innerWidth s - elementWidth) /\
  0 <= y (thumbnailPosition s)
    <= Z.max 0 (innerHeight s - elementHeight (isMinimized s)).

(** The viewport leaves the 10 px margin on both axes, so that the four
    corners lie within the bounds. *)
Definition roomy (s : System) : Prop :=
  margin <= innerWidth s - elementWidth /\
  margin <= innerHeight s - elementHeight (isMinimized s).

(** Length of the polyline from [from] through [pts], over the reals. *)
Fixpoint pathLength (from : Z * Z) (pts : list (Z * Z)) : R :=
  match pts with
  | [] => 0%R
  | p :: rest =>
      (Euclid.distance (fst p - fst from) (snd p - snd from)
       + pathLength p rest)%R
  end.

(** The point of an accepted press: primary button or a single touch,
    not on a control. *)
Definition pressPoint (ev : Event) : option (Z * Z) :=
  match ev with
  | mousedown e _ =>
      if (button e =? 0) && negb (onControl e)
      then Some (clientX e, clientY e) else None
  | touchstart e _ =>
      match touches e with
      | [t] => if touch_onControl e then None
               else Some (touch_clientX t, touch_clientY t)
      | _ => None
      end
  | _ => None
  end.

(** The point of a move of the contact: a mouse move or a move of a
    single touch. *)
Definition movePoint (ev : Event) : option (Z * Z) :=
  match ev with
  | mousemove e => Some (clientX e, clientY e)
  | touchmove e =>
      match touches e with
      | [t] => Some (touch_clientX t, touch_clientY t)
      | _ => None
      end
  | _ => None
  end.

Definition isRelease (ev : Event) : bool :=
  match ev with
  | mouseup _ | touchend _ => true
  | _ => false
  end.

Definition isPress (ev : Event) : bool :=
  match ev with
  | mousedown _ _ | touchstart _ _ => true
  | _ => false
  end.

(** The corner [c] of [cs] is the nearest one below the snap distance,
    the first such in enumeration order. *)
Definition nearestBelow (cx cy : Z) (cs : list Corner) (c : Corner) : Prop :=
  exists pre post,
    cs = pre ++ c :: post /\
    cornerDistance2 cx cy c < snapDistance * snapDistance /\
    (forall c', In c' pre ->
       cornerDistance2 cx cy c < cornerDistance2 cx cy c') /\
    (forall c', In c' post ->
       cornerDistance2 cx cy c <= cornerDistance2 cx cy c').

(** *** JavaScript numbers, for the non-finite cases *)

Module JS.

Inductive number := NaN | NegInfinity | Finite (z : Z) | Infinity.

(** [Math.max(a, b)]. *)
Definition max (a b : number) : number :=
  match a, b with
  | NaN, _ | _, NaN => NaN
  | Infinity, _ | _, Infinity => Infinity
  | NegInfinity, v | v, NegInfinity => v
  | Finite p, Finite q => Finite (Z.max p q)
  end.

(** [Math.min(a, b)]. *)
Definition min (a b : number) : number :=
  match a, b with
  | NaN, _ | _, NaN => NaN
  | NegInfinity, _ | _, NegInfinity => NegInfinity
  | Infinity, v | v, Infinity => v
  | Finite p, Finite q => Finite (Z.min p q)
  end.

(** [a - b]. *)
Definition sub (a b : number) : number :=
  match a, b with
  | NaN, _ | _, NaN => NaN
  | Infinity, Infinity | NegInfinity, NegInfinity => NaN
  | Infinity, _ | _, NegInfinity => Infinity
  | NegInfinity, _ | _, Infinity => NegInfinity
  | Finite p, Finite q => Finite (p - q)
  end.

(** [Math.max(0, Math.min(v, windowSize - elementSize))], the expression
    of [updatePosition], on JavaScript numbers. *)
Definition bounded (v windowSize elementSize : number) : number :=
  max (Finite 0) (min v (sub windowSize elementSize)).

Definition isFinite (a : number) : bool :=
  match a with Finite _ => true | _ => false end.

End JS.

(** *** Events used in the examples *)

(** A primary-button mouse event on the thumbnail body. *)
Definition primary (cx cy : Z) : MouseEvent :=
  {| clientX := cx; clientY := cy; button := 0; onControl := false;
     now := 0 |}.

Definition touchAt (cx cy : Z) : Touch :=
  {| touch_clientX := cx; touch_clientY := cy |}.

(** A touch event whose [touches] list is [ts]. *)
Definition fingers (ts : list Touch) : TouchEvent :=
  {| touches := ts; touch_onControl := false; touch_now := 0 |}.

(** The thumbnail, initially at (20, 20) in a viewport [w] by [h],
    pressed at [from] and moved to [to]. *)
Definition dragged (w h : Z) (from to : Z * Z) : System :=
  run thumbnailProps
    [mousedown (primary (fst from) (snd from)) (mkPoint 20 20);
     mousemove (primary (fst to) (snd to))]
    (initial w h).

(** *** Invariants and relations used in the proofs *)

Definition flagsAgree (s : System) : Prop :=
  Drag.isDragging (dragDataRef s) = Drag.hasMoved (dragDataRef s).

Definition releasesAgree (calls : list Call) : Prop :=
  forall a b, In (MouseUpCb a b) calls -> a = b.

Definition agreeing (s : System) : Prop :=
  flagsAgree s /\ releasesAgree (log s).

(** What an accepted press leaves behind. *)
Definition armedAt (p0 : Z * Z) (s : System) : Prop :=
  disabled s = false /\
  Drag.isDragging (dragDataRef s) = false /\
  Drag.hasMoved (dragDataRef s) = false /\
  Drag.startX (dragDataRef s) = fst p0 /\
  Drag.startY (dragDataRef s) = snd p0.

(** What the loop of [handleMouseUp] knows after the corners [cs]. *)
Definition searchInv (cx cy : Z) (cs : list Corner)
    (acc : option Corner * option Z) : Prop :=
  match acc with
  | (None, None) =>
      forall c, In c cs ->
        snapDistance * snapDistance <= cornerDistance2 cx cy c
  | (Some c, Some m) =>
      m = cornerDistance2 cx cy c /\ nearestBelow cx cy cs c
  | _ => False
  end.

(** [s'] differs from [s] by effects only: same modal flag, size mode,
    viewport and timers, and a log that extends that of [s]. *)
Definition extends (s s' : System) : Prop :=
  showLargePreview s' = showLargePreview s /\
  isMinimized s' = isMinimized s /\
  innerWidth s' = innerWidth s /\
  innerHeight s' = innerHeight s /\
  pendingOpen s' = pendingOpen s /\
  (exists calls, log s' = log s ++ calls).

(** The gesture record agrees with the committed position within the
    1 px tolerance of the position effect. *)
Definition synced (s : System) : Prop :=
  (1 <? Z.abs (Drag.currentX (dragDataRef s) - x (thumbnailPosition s)))
  || (1 <? Z.abs (Drag.currentY (dragDataRef s) - y (thumbnailPosition s)))
  = false.

(** No gesture in flight: the record of [handleMouseUp] and of the
    disabled effect. *)
Definition idle (s : System) : Prop :=
  Drag.isDragging (dragDataRef s) = false /\
  Drag.startX (dragDataRef s) = 0.

(** Calls that report a drag: the start of one, or a release that ended
    one. *)
Definition isDragReport (c : Call) : bool :=
  match c with
  | SetIsDragging true | DragStart | MouseUpCb true _ => true
  | _ => false
  end.

(** From [s] to [s'] nothing reported a drag, and [s'] is idle. *)
Definition quietly (s s' : System) : Prop :=
  idle s' /\
  exists calls, log s' = log s ++ calls /\
                forall c, In c calls -> isDragReport c = false.

(** The events that open the modal, which is what sets [disabled]. *)
Definition opensPreview (ev : Event) (s : System) : bool :=
  match ev with
  | click_fullscreen => true
  | timeout => match pendingOpen s with O => false | S _ => true end
  | _ => false
  end.

Definition closesPreview (ev : Event) : bool :=
  match ev with
  | click_close | keydown Escape _ => true
  | _ => false
  end.

(** [s'] shows the same viewport and size mode as [s]. *)
Definition sameFrame (s s' : System) : Prop :=
  innerWidth s' = innerWidth s /\
  innerHeight s' = innerHeight s /\
  isMinimized s' = isMinimized s.

(** A call that does not announce the start of a drag. *)
Definition startsNoDrag (c : Call) : Prop :=
  c <> SetIsDragging true /\ c <> DragStart.

(** A contact in the Dragging state, pressed at a non-zero [clientX]. *)
Definition dragging (s : System) : Prop :=
  disabled s = false /\
  Drag.isDragging (dragDataRef s) = true /\
  Drag.hasMoved (dragDataRef s) = true /\
  Drag.startX (dragDataRef s) <> 0 /\
  synced s.

(** The gesture record holds the committed position: what
    [updatePosition] leaves behind. *)
Definition recordsPosition (s : System) : Prop :=
  Drag.currentX (dragDataRef s) = x (thumbnailPosition s) /\
  Drag.currentY (dragDataRef s) = y (thumbnailPosition s).

(** The corner the event snaps the thumbnail to, if any: the event is a
    release that reaches [handleMouseUp], whose guard
    [wasActuallyDragging && snapToCorners && onSnapToCorner && !disabled]
    passes and whose search finds a corner. *)
Definition releaseSnapTarget (props : Optional) (ev : Event) (s : System)
    : option Corner :=
  if isRelease ev
     && (Drag.isDragging (dragDataRef s) && snapToCorners props
         && negb (disabled s))
  then findSnapTarget (Drag.currentX (dragDataRef s))
                      (Drag.currentY (dragDataRef s))
                      (corners (innerWidth s) (innerHeight s)
                               (isMinimized s))
  else None.

(** A corner that lies outside the bounds, but by no more than the 1 px
    on each axis that the position effect tolerates between the gesture
    record and the [position] prop. *)
Definition barelyOutside (s : System) (c : Corner) : Prop :=
  let corner := mkPoint (corner_x c) (corner_y c) in
  let p := clamp corner elementWidth (elementHeight (isMinimized s))
                 (innerWidth s) (innerHeight s) in
  p <> corner /\
  Z.abs (x p - corner_x c) <= 1 /\
  Z.abs (y p - corner_y c) <= 1.

(** ** SnapZoneIndicator *)

(** The memoized [snapZones] of [WebsiteEditorWithPreview], for the
    viewport and size mode read when the memo was computed.  Each zone
    carries its identifier twice ([zone] and [name]); one copy is kept. *)
Definition snapZones (windowWidth windowHeight : Z) (minimized : bool)
    : list Corner :=
  let margin := 10 in
  let thumbnailWidth := 320 in
  let thumbnailHeight := if minimized then 60 else 180 in
  [ mkCorner margin margin top_left;
    mkCorner (windowWidth - thumbnailWidth - margin) margin top_right;
    mkCorner margin (windowHeight - thumbnailHeight - margin) bottom_left;
    mkCorner (windowWidth - thumbnailWidth - margin)
             (windowHeight - thumbnailHeight - margin) bottom_right ].

(** The loop that fills [activeZones]: every zone within the snap
    distance, pushed with its (squared) distance. *)
Definition activeZones (zones : list Corner) (currentPosition : Point)
    : list (Corner * Z) :=
  fold_left
    (fun active zone =>
       let distance2 := cornerDistance2 (x currentPosition)
                          (y currentPosition) zone in
       if distance2 <? snapDistance * snapDistance
       then active ++ [(zone, distance2)]
       else active)
    zones [].

(** [activeZones.sort((a, b) => a.distance - b.distance)].  The sort of
    JavaScript arrays is stable, so its result is that of any stable
    sort; this one inserts from the right. *)
Fixpoint insertByDistance (a : Corner * Z) (l : list (Corner * Z))
    : list (Corner * Z) :=
  match l with
  | [] => [a]
  | b :: rest =>
      if snd a <=? snd b then a :: b :: rest
      else b :: insertByDistance a rest
  end.

Fixpoint sortByDistance (l : list (Corner * Z)) : list (Corner * Z) :=
  match l with
  | [] => []
  | a :: rest => insertByDistance a (sortByDistance rest)
  end.

(** The zone the component highlights: [null] when not dragging or when
    [activeZones[0]] is undefined. *)
Definition SnapZoneIndicator (zones : list Corner) (currentPosition : Point)
    (dragging_ : bool) : option Corner :=
  if negb dragging_ then None
  else
    match sortByDistance (activeZones zones currentPosition) with
    | activeZone :: _ => Some (fst activeZone)
    | [] => None
    end.

(** ** The zoom of the fullscreen preview *)

Module Zoom.
Import Floats.
#[local] Set Warnings "-inexact-float".

(** JavaScript numbers are IEEE 754 binary64 values, here Rocq's
    primitive floats; a decimal literal denotes the nearest such value in
    both languages. *)

(** [Math.min(a, b)]: [NaN] if either is, and [-0] below [+0]. *)
Definition Math_min (a b : float) : float :=
  if PrimFloat.is_nan a || PrimFloat.is_nan b then PrimFloat.nan
  else if PrimFloat.ltb a b then a
  else if PrimFloat.ltb b a then b
  else if PrimFloat.get_sign a then a else b.

(** [Math.max(a, b)]. *)
Definition Math_max (a b : float) : float :=
  if PrimFloat.is_nan a || PrimFloat.is_nan b then PrimFloat.nan
  else if PrimFloat.ltb a b then b
  else if PrimFloat.ltb b a then a
  else if PrimFloat.get_sign a then b else a.

(** [Math.round(v)] of a finite number: the nearest integer, a tie going
    up.  The value of a finite float is [m * 2 ^ e] exactly. *)
Definition Math_round (v : float) : option Z :=
  match Prim2SF v with
  | SpecFloat.S754_zero _ => Some 0
  | SpecFloat.S754_finite s m e =>
      let n := if s then Z.neg m else Z.pos m in
      Some (if 0 <=? e then n * 2 ^ e
            else (2 * n + 2 ^ (- e)) / 2 ^ (- e + 1))
  | _ => None
  end.

(** [useState(0.5)]. *)
Definition initialScale : float := 0.5%float.

(** [prev => Math.min(prev + 0.1, 1.5)]. *)
Definition zoomIn (prev : float) : float :=
  Math_min (PrimFloat.add prev 0.1%float) 1.5%float.

(** [prev => Math.max(prev - 0.1, 0.3)]. *)
Definition zoomOut (prev : float) : float :=
  Math_max (PrimFloat.sub prev 0.1%float) 0.3%float.

(** The zoom branch of [handleKeyDown]. *)
Definition onKey (showLargePreview_ : bool) (key : Key) (scale : float)
    : float :=
  if showLargePreview_ then
    match key with
    | Escape => scale
    | Plus | Equals => zoomIn scale
    | Minus => zoomOut scale
    | Zero => 0.8%float
    | _ => scale
    end
  else scale.

(** A key press, or a click on one of the two zoom buttons of the modal. *)
Inductive Action :=
| key (showLargePreview_ : bool) (k : Key)
| minus_button
| plus_button.

Definition apply (scale : float) (a : Action) : float :=
  match a with
  | key open k => onKey open k scale
  | minus_button => zoomOut scale
  | plus_button => zoomIn scale
  end.

(** The scale after the actions [acts]. *)
Definition scaleAfter (acts : list Action) : float :=
  fold_left apply acts initialScale.

(** [Math.round(largePreviewScale * 100)], the percentage displayed. *)
Definition percent (scale : float) : option Z :=
  Math_round (PrimFloat.mul scale 100%float).

(** The values the scale can take. *)
Definition levels : list float :=
  [0.5; 0.59999999999999998; 0.40000000000000002; 0.80000000000000004;
   0.69999999999999996; 0.30000000000000004; 0.90000000000000002;
   0.70000000000000007; 0.79999999999999993; 0.29999999999999999; 1;
   0.60000000000000009; 0.89999999999999991; 1.1000000000000001;
   0.50000000000000011; 0.99999999999999989; 1.2000000000000002;
   0.40000000000000013; 1.0999999999999999; 1.3000000000000003;
   0.30000000000000016; 1.2; 1.4000000000000004; 1.3; 1.5;
   1.4000000000000001; 1.3999999999999999; 1.2999999999999998;
   1.1999999999999997; 1.0999999999999996; 0.99999999999999967;
   0.89999999999999969; 0.79999999999999971; 0.69999999999999973;
   0.59999999999999976; 0.49999999999999978; 0.3999999999999998]%float.

End Zoom.

(** ** The URL bar of the second variant *)

Module Url.
Import Strings.String.
Local Open Scope string_scope.

(** [urlInput] and [currentWebsiteUrl]; [None] is [null], which shows
    the built-in editor. *)
Record State := mk {
  urlInput : string;
  currentWebsiteUrl : option string
}.

Section Platform.

(** [String.prototype.trim], and whether [new URL(s)] returns rather
    than throws. *)
Variable trim : string -> string.
Variable parses : string -> bool.

(** [isValidUrl(string)]. *)
Definition isValidUrl (s : string) : bool := parses s.

(** [handleUrlSubmit()]; the second component tells whether
    [alert('Please enter a valid URL')] was shown. *)
Definition handleUrlSubmit (st : State) : State * bool :=
  if (trim (urlInput st) =? "")%string then
    (mk (urlInput st) None, false)
  else
    let processedUrl := trim (urlInput st) in
    let processedUrl :=
      if negb (prefix "http://" processedUrl)
         && negb (prefix "https://" processedUrl)
      then "https://" ++ processedUrl
      else processedUrl in
    if negb (isValidUrl processedUrl) then (st, true)
    else (mk "" (Some processedUrl), false).

(** What the user does to the URL bar: edit the text ([onChange]),
    clear it (the clear button, or Escape while the bar is shown), or
    submit (Enter, or the button).  [loadQuickSite] has no caller. *)
Inductive Action := typed (text : string) | cleared | submitted.

Definition apply (st : State) (a : Action) : State :=
  match a with
  | typed text => mk text (currentWebsiteUrl st)
  | cleared => mk "" (currentWebsiteUrl st)
  | submitted => fst (handleUrlSubmit st)
  end.

(** [useState('')] and [useState(null)]. *)
Definition initial : State := mk "" None.

Definition after (acts : list Action) : State := fold_left apply acts initial.

End Platform.

(** A URL with one of the two schemes the submit handler lets through. *)
Definition hasScheme (u : string) : bool :=
  prefix "http://" u || prefix "https://" u.

End Url.

(** Input that reaches the thumbnail or the four document listeners:
    presses, moves, releases, hovering, and the thumbnail's own buttons. *)
Definition isPointerInput (ev : Event) : bool :=
  match ev with
  | mousedown _ _ | mousemove _ | mouseup _
  | touchstart _ _ | touchmove _ | touchend _
  | mouseenter | mouseleave
  | click_minimize | click_expand | click_fullscreen => true
  | _ => false
  end.

(** Nothing of a gesture is left: the record is reset, the dragging flag
    is down and the body styles are cleared. *)
Definition calm (s : System) : Prop :=
  idle s /\
  Drag.hasMoved (dragDataRef s) = false /\
  isDragging s = false /\
  cursor s = cursor_unset /\
  userSelect s = select_unset.

(** The dragging flag of the host follows the gesture record, and an
    open modal finds the engine at rest. *)
Definition modalInvariant (s : System) : Prop :=
  (Drag.isDragging (dragDataRef s) = true -> isDragging s = true) /\
  (disabled s = true ->
   idle s /\ isHovered s = false /\
   cursor s = cursor_unset /\ userSelect s = select_unset).

(** The test [DraggableThumbnail] applies to a release before it
    schedules the fullscreen preview: handled at all, not the end of a
    drag, not on a control, within 500 ms and 10 px of the press. *)
Definition genuineClick (e : DomEvent) (s : System) : bool :=
  negb (disabled s)
  && negb (Drag.isDragging (dragDataRef s))
  && negb (Drag.hasMoved (dragDataRef s))
  && negb (eventOnControl e)
  && match eventClient e with
     | Some (cx, cy) =>
         (eventNow e - Click.startTime (clickDataRef s) <? 500)
         && (Euclid.sq (cx - Click.startX (clickDataRef s))
                       (cy - Click.startY (clickDataRef s)) <? 10 * 10)
     | None => false
     end.

(** * Properties *)

(** ** The integer tests agree with the tests on [Math.sqrt] *)

Lemma sq_nonneg dx dy : 0 <= Euclid.sq dx dy.
Proof. unfold Euclid.sq; nia. Qed.

Lemma sqrt_IZR_square k : 0 <= k -> sqrt (IZR (k * k)) = IZR k.
Proof.
  intros Hk. rewrite mult_IZR. apply sqrt_square. now apply IZR_le.
Qed.

(** [distance > k] is [sq > k * k]. *)
Lemma distance_gt dx dy k :
  0 <= k -> ((IZR k < Euclid.distance dx dy)%R <-> k * k < Euclid.sq dx dy).
Proof.
  intros Hk. unfold Euclid.distance.
  rewrite <- (sqrt_IZR_square k Hk). split.
  - intros H. apply lt_IZR. apply sqrt_lt_0_alt. exact H.
  - intros H. apply sqrt_lt_1_alt. split.
    + apply IZR_le. nia.
    + now apply IZR_lt.
Qed.

(** [distance < k] is [sq < k * k]. *)
Lemma distance_lt dx dy k :
  0 <= k -> ((Euclid.distance dx dy < IZR k)%R <-> Euclid.sq dx dy < k * k).
Proof.
  intros Hk. unfold Euclid.distance.
  rewrite <- (sqrt_IZR_square k Hk). split.
  - intros H. apply lt_IZR. apply sqrt_lt_0_alt. exact H.
  - intros H. apply sqrt_lt_1_alt. split.
    + apply IZR_le. apply sq_nonneg.
    + now apply IZR_lt.
Qed.

(** Comparing two distances is comparing their squares. *)
Lemma distance_lt_distance dx dy ex ey :
  (Euclid.distance dx dy < Euclid.distance ex ey)%R
  <-> Euclid.sq dx dy < Euclid.sq ex ey.
Proof.
  unfold Euclid.distance. split.
  - intros H. apply lt_IZR. apply sqrt_lt_0_alt. exact H.
  - intros H. apply sqrt_lt_1_alt. split.
    + apply IZR_le. apply sq_nonneg.
    + now apply IZR_lt.
Qed.

Lemma distance_nonneg dx dy : (0 <= Euclid.distance dx dy)%R.
Proof. apply sqrt_pos. Qed.

(** The source's distance is the Euclidean distance of the plane. *)
Lemma distance_dist_euc (a b c d : Z) :
  Euclid.distance (c - a) (d - b) = dist_euc (IZR a) (IZR b) (IZR c) (IZR d).
Proof.
  unfold Euclid.distance, dist_euc, Euclid.sq, Rsqr. f_equal.
  rewrite plus_IZR, !mult_IZR, !minus_IZR. ring.
Qed.

(** Every point of a path is at most the path's length away from its
    start. *)
Lemma pathLength_reaches from pts q :
  In q pts ->
  (Euclid.distance (fst q - fst from) (snd q - snd from)
   <= pathLength from pts)%R.
Proof.
  revert from. induction pts as [|p rest IH]; intros from Hin.
  - destruct Hin.
  - simpl. destruct Hin as [-> | Hin].
    + assert (Hrest : (0 <= pathLength q rest)%R).
      { clear. revert q. induction rest as [|r rest IHr]; intros q; simpl.
        - lra.
        - pose proof (distance_nonneg (fst r - fst q) (snd r - snd q)).
          specialize (IHr r). lra. }
      lra.
    + specialize (IH p Hin).
      pose proof (triangle (IZR (fst from)) (IZR (snd from))
                    (IZR (fst q)) (IZR (snd q))
                    (IZR (fst p)) (IZR (snd p))) as Htri.
      rewrite <- !distance_dist_euc in Htri. lra.
Qed.

(** A path of length at most 5 never leaves the 5 px disc of the test
    in [handleMouseMove]. *)
Lemma short_path_under_threshold from pts q :
  (pathLength from pts <= 5)%R -> In q pts ->
  (5 * 5 <? Euclid.sq (fst q - fst from) (snd q - snd from)) = false.
Proof.
  intros Hlen Hin. apply Z.ltb_ge.
  destruct (Z_lt_le_dec (5 * 5)
              (Euclid.sq (fst q - fst from) (snd q - snd from)))
    as [Hgt | Hle]; [exfalso | exact Hle].
  apply (distance_gt _ _ 5) in Hgt; [|lia].
  pose proof (pathLength_reaches from pts q Hin). lra.
Qed.

(** ** Records *)

Lemma Point_eqb_eq p q : Point_eqb p q = true <-> p = q.
Proof.
  destruct p, q; unfold Point_eqb; simpl.
  rewrite andb_true_iff, !Z.eqb_eq. split.
  - intros [-> ->]; reflexivity.
  - intros H; inversion H; auto.
Qed.

Lemma Point_eqb_refl p : Point_eqb p p = true.
Proof. now apply Point_eqb_eq. Qed.

Lemma Point_eta p : mkPoint (x p) (y p) = p.
Proof. now destruct p. Qed.

(** ** The clamp *)

Lemma bounded_range v limit : 0 <= bounded v limit <= Z.max 0 limit.
Proof. unfold bounded; lia. Qed.

Lemma bounded_idempotent v limit :
  bounded (bounded v limit) limit = bounded v limit.
Proof. unfold bounded; lia. Qed.

Lemma bounded_fixed v limit : 0 <= v <= limit -> bounded v limit = v.
Proof. unfold bounded; lia. Qed.

Lemma updatePosition_position px py s :
  thumbnailPosition (updatePosition px py s)
  = clamp (mkPoint px py) elementWidth (elementHeight (isMinimized s))
          (innerWidth s) (innerHeight s).
Proof. reflexivity. Qed.

Lemma updatePosition_log px py s :
  log (updatePosition px py s)
  = log s ++ [PositionChange (thumbnailPosition (updatePosition px py s))].
Proof. reflexivity. Qed.

(** C2.  The clamp of [updatePosition]: for every proposed point, extent
    and viewport the result is [max(0, min(p, viewport - extent))] on each
    axis; it is [0] on an axis where the viewport is smaller than the
    extent; the clamp is idempotent; and when the viewport is at least as
    large as the extent the result lies within [[0, W-w] x [0, H-h]].
    [updatePosition] commits exactly this point, with the extent of the
    current size mode and the live viewport. *)
Theorem clamp_contract (p : Point) (w h W H : Z) :
  x (clamp p w h W H) = Z.max 0 (Z.min (x p) (W - w)) /\
  y (clamp p w h W H) = Z.max 0 (Z.min (y p) (H - h)) /\
  (W < w -> x (clamp p w h W H) = 0) /\
  (H < h -> y (clamp p w h W H) = 0) /\
  clamp (clamp p w h W H) w h W H = clamp p w h W H /\
  (w <= W -> h <= H ->
   0 <= x (clamp p w h W H) <= W - w /\
   0 <= y (clamp p w h W H) <= H - h) /\
  (forall s,
     thumbnailPosition (updatePosition (x p) (y p) s)
     = clamp p elementWidth (elementHeight (isMinimized s))
             (innerWidth s) (innerHeight s)).
Proof.
  unfold clamp; simpl.
  split; [reflexivity|]. split; [reflexivity|].
  split; [unfold bounded; lia|]. split; [unfold bounded; lia|].
  split; [now rewrite !bounded_idempotent|].
  split; [unfold bounded; lia|].
  intros s. reflexivity.
Qed.

Lemma clamp_contract_witness :
  x (clamp (mkPoint 50 900) 320 180 300 100) = 0 /\
  y (clamp (mkPoint 50 900) 320 180 300 100) = 0 /\
  0 <= x (clamp (mkPoint 900 (-7)) 320 180 1000 800) <= 1000 - 320 /\
  0 <= y (clamp (mkPoint 900 (-7)) 320 180 1000 800) <= 800 - 180.
Proof.
  pose proof (clamp_contract (mkPoint 50 900) 320 180 300 100)
    as (_ & _ & Hx & Hy & _).
  pose proof (clamp_contract (mkPoint 900 (-7)) 320 180 1000 800)
    as (_ & _ & _ & _ & _ & Hin & _).
  split; [apply Hx; lia|]. split; [apply Hy; lia|].
  apply Hin; lia.
Defined.

(** ** React commits *)

Lemma runEffects_same prev cur :
  showLargePreview prev = showLargePreview cur ->
  isMinimized prev = isMinimized cur ->
  thumbnailPosition prev = thumbnailPosition cur ->
  runEffects prev cur = cur.
Proof.
  intros Hd Hm Hp. unfold runEffects.
  rewrite Hd, Hm, Hp, !Bool.eqb_reflx, Point_eqb_refl. reflexivity.
Qed.

Lemma render_same prev cur :
  showLargePreview prev = showLargePreview cur ->
  isMinimized prev = isMinimized cur ->
  thumbnailPosition prev = thumbnailPosition cur ->
  render prev cur = cur.
Proof.
  intros Hd Hm Hp. unfold render.
  rewrite (runEffects_same prev cur Hd Hm Hp).
  now apply runEffects_same.
Qed.

(** ** Flags of the gesture record *)

Lemma releasesAgree_snoc calls c :
  releasesAgree calls ->
  (forall a b, c = MouseUpCb a b -> a = b) ->
  releasesAgree (calls ++ [c]).
Proof.
  intros H Hc a b Hin. apply in_app_iff in Hin. destruct Hin as [Hin | Hin].
  - now apply H.
  - destruct Hin as [Heq | []]. symmetry in Heq. now apply Hc.
Qed.

Ltac snoc_agree :=
  repeat (apply releasesAgree_snoc;
          [| intros ? ? Heq; try discriminate Heq;
             injection Heq as <- <-; congruence ]);
  try assumption.

Ltac split_ifs :=
  repeat match goal with
    | |- context [if ?b then _ else _] => destruct b eqn:?
    | |- context [match ?o with Some _ => _ | None => _ end] =>
        destruct o eqn:?
    end.

Lemma updatePosition_agreeing px py s :
  agreeing s -> agreeing (updatePosition px py s).
Proof.
  intros [Hf Hl]. split.
  - exact Hf.
  - rewrite updatePosition_log. snoc_agree.
Qed.

Lemma thumbnail_handleMouseUp_agreeing e a b s :
  agreeing s -> agreeing (Thumbnail.handleMouseUp e a b s).
Proof.
  intros H. unfold Thumbnail.handleMouseUp.
  destruct (disabled s); [exact H|].
  destruct (negb a && negb b && negb (eventOnControl e)); [|exact H].
  destruct (eventClient e) as [[cx cy]|]; [|exact H].
  destruct (_ && _); exact H.
Qed.

Lemma moveTo_agreeing props c cx cy s :
  agreeing s -> agreeing (moveTo props c cx cy s).
Proof.
  intros [Hf Hl]. unfold moveTo.
  destruct (_ && _) eqn:Hstart.
  - destruct c, (onDragStart props); simpl;
      (apply updatePosition_agreeing; split; [reflexivity|]; simpl;
       unfold releasesAgree in *; intros a b Hin;
       apply Hl; repeat (apply in_app_iff in Hin; destruct Hin as [Hin|Hin];
                         [|destruct Hin as [Heq|[]]; discriminate Heq]);
       exact Hin).
  - destruct (Drag.isDragging (dragDataRef s));
      [apply updatePosition_agreeing|]; now split.
Qed.

Lemma agreeing_frame s s' :
  dragDataRef s' = dragDataRef s -> log s' = log s ->
  agreeing s -> agreeing s'.
Proof.
  unfold agreeing, flagsAgree. intros -> ->. exact (fun H => H).
Qed.

Lemma handleMouseDown_agreeing e rect s :
  agreeing s -> agreeing (handleMouseDown e rect s).
Proof.
  intros [Hf Hl]. unfold handleMouseDown, Thumbnail.handleMouseDown.
  destruct (_ || _); [now split|].
  destruct (onControl e); [now split|].
  split; [destruct (disabled _); reflexivity|].
  destruct (disabled _); simpl; snoc_agree.
Qed.

Lemma handleMouseUp_agreeing props e s :
  agreeing s -> agreeing (handleMouseUp props e s).
Proof.
  intros [Hf Hl]. unfold handleMouseUp.
  set (s0 := clear_styles (callSetIsDragging false
               (set_dragData (Drag.released (dragDataRef s)) s))).
  assert (H0 : agreeing s0) by (split; [reflexivity | simpl; snoc_agree]).
  change (disabled s0) with (disabled s).
  set (was := Drag.isDragging (dragDataRef s)).
  set (moved := Drag.hasMoved (dragDataRef s)).
  set (s1 := if was && snapToCorners props && negb (disabled s)
             then _ else s0).
  assert (H1 : agreeing s1 /\ disabled s1 = disabled s).
  { subst s1. destruct (was && snapToCorners props && negb (disabled s));
      [|now split].
    destruct (findSnapTarget _ _ _); [|now split].
    split; [|reflexivity].
    destruct H0 as [Hf0 Hl0]. split; [exact Hf0|]. simpl. snoc_agree. }
  destruct H1 as [[Hf1 Hl1] Hd1]. rewrite Hd1.
  set (s2 := if negb (disabled s) then _ else s1).
  assert (H2 : agreeing s2).
  { subst s2. destruct (negb (disabled s)); [|now split].
    apply thumbnail_handleMouseUp_agreeing. split; [exact Hf1|]. simpl.
    apply releasesAgree_snoc; [exact Hl1|].
    intros a b Heq. injection Heq as <- <-. exact Hf. }
  destruct H2 as [Hf2 Hl2].
  destruct (onDragEnd props); simpl; [|now split].
  split; [exact Hf2|]. simpl. snoc_agree.
Qed.

Lemma handleTouchStart_agreeing e rect s :
  agreeing s -> agreeing (handleTouchStart e rect s).
Proof.
  intros [Hf Hl]. unfold handleTouchStart, Thumbnail.handleMouseDown.
  destruct (_ || _); [now split|].
  destruct (touch_onControl e); [now split|].
  destruct (touches e) as [|touch rest]; [now split|].
  split; [destruct (disabled _); reflexivity|].
  destruct (disabled _); simpl; snoc_agree.
Qed.

Lemma dispatch_agreeing props ev s :
  agreeing s -> agreeing (dispatch props ev s).
Proof.
  intros H. destruct ev; simpl.
  - now apply handleMouseDown_agreeing.
  - destruct (disabled s); [exact H|]. unfold handleMouseMove.
    destruct (_ || _); [exact H|]. now apply moveTo_agreeing.
  - destruct (disabled s); [exact H|]. now apply handleMouseUp_agreeing.
  - now apply handleTouchStart_agreeing.
  - destruct (disabled s); [exact H|]. unfold handleTouchMove.
    destruct (_ || _); [exact H|].
    destruct (touches e); [exact H|]. now apply moveTo_agreeing.
  - destruct (disabled s); [exact H|]. now apply handleMouseUp_agreeing.
  - unfold handleKeyDown.
    destruct (showLargePreview s), key, ctrlKey; exact H.
  - unfold handleResize. destruct (_ || _); exact H.
  - destruct (_ && _); exact H.
  - destruct (_ && _); exact H.
  - destruct (disabled s); exact H.
  - destruct (disabled s); exact H.
  - destruct (disabled s); exact H.
  - exact H.
  - destruct (pendingOpen s); exact H.
Qed.

Lemma disabledEffect_agreeing s : agreeing s -> agreeing (disabledEffect s).
Proof.
  intros [Hf Hl]. unfold disabledEffect.
  destruct (disabled s); [|now split].
  destruct (Drag.isDragging (dragDataRef s)); split; try reflexivity;
    simpl; snoc_agree.
Qed.

Lemma positionEffect_agreeing s : agreeing s -> agreeing (positionEffect s).
Proof.
  intros H. unfold positionEffect.
  destruct (_ && _); [now apply updatePosition_agreeing | exact H].
Qed.

Lemma runEffects_agreeing prev cur :
  agreeing cur -> agreeing (runEffects prev cur).
Proof.
  intros H. unfold runEffects.
  set (dc := negb (Bool.eqb (showLargePreview prev) (showLargePreview cur))).
  set (mc := negb (Bool.eqb (isMinimized prev) (isMinimized cur))).
  set (pc := negb (Point_eqb (thumbnailPosition prev) (thumbnailPosition cur))).
  assert (H1 : agreeing (if dc || mc then listenersCleanup cur else cur)).
  { destruct (dc || mc); exact H. }
  revert H1. generalize (if dc || mc then listenersCleanup cur else cur).
  intros s1 H1.
  assert (H2 : agreeing (if dc || pc then disabledEffect s1 else s1)).
  { destruct (dc || pc); [now apply disabledEffect_agreeing | exact H1]. }
  revert H2. generalize (if dc || pc then disabledEffect s1 else s1).
  intros s2 H2.
  assert (H3 : agreeing (if pc || mc then positionEffect s2 else s2)).
  { destruct (pc || mc); [now apply positionEffect_agreeing | exact H2]. }
  revert H3. generalize (if pc || mc then positionEffect s2 else s2).
  intros s3 H3.
  destruct dc; [|exact H3].
  unfold hoverEffect, modalClosedEffect, disabled.
  destruct (showLargePreview s3) eqn:Hs; simpl; rewrite ?Hs; exact H3.
Qed.

Lemma step_agreeing props ev s : agreeing s -> agreeing (step props ev s).
Proof.
  intros H. unfold step, render.
  apply runEffects_agreeing, runEffects_agreeing.
  now apply dispatch_agreeing.
Qed.

Lemma reachable_run props evs s :
  reachable props s -> reachable props (run props evs s).
Proof.
  revert s. induction evs as [|ev evs IH]; intros s H; simpl.
  - exact H.
  - apply IH. now apply reachable_step.
Qed.

(** C10.  In every reachable state the gesture record's [isDragging] and
    [hasMoved] flags are equal, and every release notification
    [onMouseUp(e, wasDragging, moved)] delivered so far carried equal
    [wasDragging] and [moved]. *)
Theorem release_flags_equal props s :
  reachable props s ->
  Drag.isDragging (dragDataRef s) = Drag.hasMoved (dragDataRef s) /\
  (forall wasDragging moved,
     In (MouseUpCb wasDragging moved) (log s) -> wasDragging = moved).
Proof.
  intros Hr. change (agreeing s). induction Hr as [w h Hw Hh | ev s Hr IH].
  - split; [reflexivity|]. intros a b [].
  - now apply step_agreeing.
Qed.

Lemma release_flags_equal_witness :
  let s := run thumbnailProps
             [mousedown (primary 100 100) (mkPoint 20 20);
              mousemove (primary 730 110);
              mouseup (primary 730 110)] (initial 1000 800) in
  Drag.isDragging (dragDataRef s) = Drag.hasMoved (dragDataRef s) /\
  (forall wasDragging moved,
     In (MouseUpCb wasDragging moved) (log s) -> wasDragging = moved).
Proof.
  apply (release_flags_equal thumbnailProps).
  apply reachable_run, reachable_initial; lia.
Defined.

(** ** A contact below the drag threshold *)

Lemma press_armed props s press p0 :
  disabled s = false -> pressPoint press = Some p0 ->
  let s1 := step props press s in
  armedAt p0 s1 /\
  log s1 = log s ++ [MouseDownCb (fst p0) (snd p0)] /\
  thumbnailPosition s1 = thumbnailPosition s /\
  isMinimized s1 = isMinimized s /\
  innerWidth s1 = innerWidth s /\ innerHeight s1 = innerHeight s.
Proof.
  intros Hd Hp. unfold step, armedAt, disabled in *.
  destruct press; try discriminate Hp; simpl in Hp |- *.
  - destruct (button e =? 0) eqn:Hb; [|discriminate Hp].
    destruct (onControl e) eqn:Hc; [discriminate Hp|].
    injection Hp as <-.
    unfold handleMouseDown, Thumbnail.handleMouseDown, disabled.
    rewrite Hb, Hc, Hd. simpl. rewrite Hd.
    rewrite render_same by reflexivity.
    simpl. rewrite Hd. repeat split.
  - destruct (touches e) as [|t [|t' rest]] eqn:Ht; try discriminate Hp.
    destruct (touch_onControl e) eqn:Hc; [discriminate Hp|].
    injection Hp as <-.
    unfold handleTouchStart, Thumbnail.handleMouseDown, disabled.
    rewrite Ht, Hc, Hd. simpl. rewrite Hd.
    rewrite render_same by reflexivity.
    simpl. rewrite Hd. repeat split.
Qed.

(** A move that stays within 5 px of the start of an armed contact
    changes nothing at all. *)
Lemma move_below_threshold props s p0 ev q :
  armedAt p0 s -> movePoint ev = Some q ->
  (5 * 5 <? Euclid.sq (fst q - fst p0) (snd q - snd p0)) = false ->
  step props ev s = s.
Proof.
  intros (Hd & Hdrag & _ & Hx & Hy) Hq Hnear. unfold step.
  assert (Hdis : dispatch props ev s = s).
  { destruct ev; try discriminate Hq; simpl in Hq |- *; rewrite Hd.
    - injection Hq as <-. unfold handleMouseMove.
      destruct (_ || _); [reflexivity|].
      unfold moveTo. cbn [fst snd] in Hnear.
      rewrite Hx, Hy, Hnear. cbn [andb]. rewrite Hdrag. reflexivity.
    - destruct (touches e) as [|t [|t' rest]] eqn:Ht; try discriminate Hq.
      injection Hq as <-. unfold handleTouchMove. rewrite Ht.
      destruct (_ || _); [reflexivity|].
      unfold moveTo. cbn [fst snd] in Hnear.
      rewrite Hx, Hy, Hnear. cbn [andb]. rewrite Hdrag. reflexivity. }
  rewrite Hdis. now apply render_same.
Qed.

Lemma moves_below_threshold props s p0 moves pts :
  armedAt p0 s ->
  Forall2 (fun ev p => movePoint ev = Some p) moves pts ->
  (forall q, In q pts ->
     (5 * 5 <? Euclid.sq (fst q - fst p0) (snd q - snd p0)) = false) ->
  run props moves s = s.
Proof.
  intros Harm Hmoves. induction Hmoves as [|ev q moves pts Hq _ IH];
    intros Hnear; simpl.
  - reflexivity.
  - rewrite (move_below_threshold props s p0 ev q Harm Hq)
      by (apply Hnear; now left).
    apply IH. intros q' Hin. apply Hnear. now right.
Qed.

(** A release that does not end a drag: the calls it makes. *)
Lemma release_without_drag props s ev :
  disabled s = false -> Drag.isDragging (dragDataRef s) = false ->
  isRelease ev = true ->
  let s' := step props ev s in
  log s' = (log s ++ [SetIsDragging false;
                      MouseUpCb false (Drag.hasMoved (dragDataRef s))])
           ++ (if onDragEnd props then [DragEnd] else []) /\
  thumbnailPosition s' = thumbnailPosition s /\
  isDragging s' = false /\
  Drag.isDragging (dragDataRef s') = false /\
  Drag.startX (dragDataRef s') = 0.
Proof.
  intros Hd Hdrag Hrel.
  assert (Hup : forall e,
    let s' := handleMouseUp props e s in
    log s' = (log s ++ [SetIsDragging false;
                        MouseUpCb false (Drag.hasMoved (dragDataRef s))])
             ++ (if onDragEnd props then [DragEnd] else []) /\
    thumbnailPosition s' = thumbnailPosition s /\
    isDragging s' = false /\
    Drag.isDragging (dragDataRef s') = false /\
    Drag.startX (dragDataRef s') = 0 /\
    showLargePreview s' = showLargePreview s /\
    isMinimized s' = isMinimized s).
  { intros e. unfold handleMouseUp, Thumbnail.handleMouseUp.
    rewrite Hdrag. simpl. unfold disabled in Hd |- *. simpl. rewrite Hd.
    simpl. rewrite <- app_assoc. simpl.
    destruct (negb (Drag.hasMoved (dragDataRef s))
              && negb (eventOnControl e));
      [destruct (eventClient e) as [[cx cy]|]; [destruct (_ && _)|]|];
      destruct (onDragEnd props); simpl;
      rewrite <- ?app_assoc, ?app_nil_r; simpl; repeat split; exact Hd. }
  unfold step.
  destruct ev; try discriminate Hrel; simpl; rewrite Hd;
    unfold handleTouchEnd;
    match goal with
    | |- context [handleMouseUp props ?e s] =>
        destruct (Hup e) as (Hl & Hp & Hi & Hdr & Hsx & Hsl & Hm)
    end;
    (rewrite render_same by (symmetry; assumption));
    repeat split; assumption.
Qed.

(** C3.  A press, then any moves whose cumulative path length is at most
    5 px, then a release: the calls of the whole contact are the press
    notification, [setIsDragging(false)] and the click notification
    [onMouseUp(e, false, false)] (followed by [onDragEnd] when given); no
    position update is among them and the position is untouched.  Mouse
    and single-touch events may be mixed freely. *)
Theorem click_below_threshold props s press p0 moves pts release :
  disabled s = false ->
  pressPoint press = Some p0 ->
  Forall2 (fun ev p => movePoint ev = Some p) moves pts ->
  (pathLength p0 pts <= 5)%R ->
  isRelease release = true ->
  let s2 := run props moves (step props press s) in
  let s3 := step props release s2 in
  let ending := [SetIsDragging false; MouseUpCb false false]
                ++ (if onDragEnd props then [DragEnd] else []) in
  emitted s s2 [MouseDownCb (fst p0) (snd p0)] /\
  emitted s2 s3 ending /\
  (forall c, In c (MouseDownCb (fst p0) (snd p0) :: ending) ->
     isPositionChange c = false) /\
  thumbnailPosition s3 = thumbnailPosition s.
Proof.
  intros Hd Hpress Hmoves Hlen Hrel.
  destruct (press_armed props s press p0 Hd Hpress)
    as (Harm & Hlog & Hpos & _).
  rewrite (moves_below_threshold props _ p0 moves pts Harm Hmoves)
    by (intros q Hin; now apply (short_path_under_threshold p0 pts)).
  destruct Harm as (Hd1 & Hdrag & Hmoved & _).
  destruct (release_without_drag props _ release Hd1 Hdrag Hrel)
    as (Hlog3 & Hpos3 & _).
  cbv zeta. unfold emitted. rewrite Hmoved in Hlog3.
  split; [exact Hlog|]. split.
  - rewrite Hlog3. now rewrite <- app_assoc.
  - split; [|congruence].
    intros c Hin. destruct (onDragEnd props); simpl in Hin;
      repeat (destruct Hin as [<- | Hin]; [reflexivity|]); destruct Hin.
Qed.

Lemma click_below_threshold_witness :
  let s := initial 1000 800 in
  let moves := [mousemove (primary 102 100); mousemove (primary 102 102)] in
  let s2 := run thumbnailProps moves
              (step thumbnailProps
                 (mousedown (primary 100 100) (mkPoint 20 20)) s) in
  let s3 := step thumbnailProps (mouseup (primary 102 102)) s2 in
  emitted s s2 [MouseDownCb 100 100] /\
  emitted s2 s3 [SetIsDragging false; MouseUpCb false false] /\
  (forall c, In c [MouseDownCb 100 100; SetIsDragging false;
                   MouseUpCb false false] ->
     isPositionChange c = false) /\
  thumbnailPosition s3 = thumbnailPosition s.
Proof.
  apply (click_below_threshold thumbnailProps (initial 1000 800)
           (mousedown (primary 100 100) (mkPoint 20 20)) (100, 100)
           [mousemove (primary 102 100); mousemove (primary 102 102)]
           [(102, 100); (102, 102)]
           (mouseup (primary 102 102))).
  - reflexivity.
  - reflexivity.
  - repeat constructor.
  - cbn [pathLength fst snd]. unfold Euclid.distance.
    change (Euclid.sq (102 - 100) (100 - 100)) with (2 * 2).
    change (Euclid.sq (102 - 102) (102 - 100)) with (2 * 2).
    rewrite sqrt_IZR_square by lia. lra.
  - reflexivity.
Defined.

(** ** The corner search *)

Arguments cornerDistance2 : simpl never.

Lemma snap_loop_invariant cx cy cs :
  searchInv cx cy cs (fold_left (snapStep cx cy) cs (None, None)).
Proof.
  induction cs as [|a l IH] using rev_ind.
  - simpl. intros c [].
  - rewrite fold_left_app. simpl.
    destruct (fold_left (snapStep cx cy) l (None, None)) as [[c|] [m|]];
      simpl in IH; try contradiction; unfold snapStep; simpl;
      unfold nearestBelow in *;
      change (snapDistance * snapDistance) with 10000 in *.
    + destruct IH as [-> (pre & post & Hl & Hc & Hpre & Hpost)].
      destruct (_ && _) eqn:Htest; simpl.
      * apply andb_true_iff in Htest. destruct Htest as [Ha Hlt].
        apply Z.ltb_lt in Ha, Hlt. split; [reflexivity|].
        exists l, []. split; [reflexivity|]. split; [exact Ha|].
        split; [|intros c' []].
        intros c' Hin. rewrite Hl in Hin. apply in_app_iff in Hin.
        destruct Hin as [Hin | [<- | Hin]].
        -- specialize (Hpre c' Hin). lia.
        -- exact Hlt.
        -- specialize (Hpost c' Hin). lia.
      * split; [reflexivity|].
        exists pre, (post ++ [a]). split.
        { rewrite Hl, <- app_assoc. reflexivity. }
        split; [exact Hc|]. split; [exact Hpre|].
        intros c' Hin. apply in_app_iff in Hin.
        destruct Hin as [Hin | [<- | []]]; [now apply Hpost|].
        apply andb_false_iff in Htest. destruct Htest as [Ha | Ha];
          apply Z.ltb_ge in Ha; lia.
    + destruct (_ <? _) eqn:Ha; simpl.
      * apply Z.ltb_lt in Ha. split; [reflexivity|].
        exists l, []. split; [reflexivity|]. split; [exact Ha|].
        split; [|intros c' []].
        intros c' Hin. specialize (IH c' Hin). lia.
      * apply Z.ltb_ge in Ha. intros c Hin. apply in_app_iff in Hin.
        destruct Hin as [Hin | [<- | []]]; [now apply IH | exact Ha].
Qed.

(** The resolver returns the nearest corner below the snap distance,
    the first such in enumeration order, and nothing when no corner is
    below it. *)
Lemma findSnapTarget_spec cx cy cs :
  match findSnapTarget cx cy cs with
  | Some c => nearestBelow cx cy cs c
  | None => forall c, In c cs ->
              snapDistance * snapDistance <= cornerDistance2 cx cy c
  end.
Proof.
  unfold findSnapTarget. pose proof (snap_loop_invariant cx cy cs) as H.
  destruct (fold_left (snapStep cx cy) cs (None, None)) as [[c|] [m|]];
    simpl in H |- *; try contradiction.
  - apply H.
  - exact H.
Qed.

Lemma nearestBelow_In cx cy cs c : nearestBelow cx cy cs c -> In c cs.
Proof.
  intros (pre & post & -> & _). apply in_app_iff. right. now left.
Qed.

(** The corners of a viewport 1000 by 800 for the normal footprint. *)
Example corners_1000_800 :
  corners 1000 800 false
  = [mkCorner 10 10 top_left; mkCorner 670 10 top_right;
     mkCorner 10 610 bottom_left; mkCorner 670 610 bottom_right].
Proof. reflexivity. Qed.

(** With the margin available, every corner lies within the bounds. *)
Lemma corners_inside W H minimized c :
  margin <= W - elementWidth -> margin <= H - elementHeight minimized ->
  In c (corners W H minimized) ->
  0 <= corner_x c <= W - elementWidth /\
  0 <= corner_y c <= H - elementHeight minimized.
Proof.
  unfold margin, elementWidth. intros HW HH Hin. simpl in Hin.
  destruct Hin as [<- | [<- | [<- | [<- | []]]]]; simpl;
    unfold margin; lia.
Qed.

(** ** Commits only add calls *)

Lemma extends_refl s : extends s s.
Proof.
  repeat split. exists []. now rewrite app_nil_r.
Qed.

Lemma extends_trans s1 s2 s3 : extends s1 s2 -> extends s2 s3 -> extends s1 s3.
Proof.
  intros (Ha & Hb & Hc & Hd & He & l1 & Hl1) (Ha' & Hb' & Hc' & Hd' & He' & l2 & Hl2).
  repeat split; try congruence.
  exists (l1 ++ l2). now rewrite Hl2, Hl1, app_assoc.
Qed.

Lemma extends_updatePosition px py s : extends s (updatePosition px py s).
Proof.
  repeat split. eexists. apply updatePosition_log.
Qed.

Lemma extends_disabledEffect s : extends s (disabledEffect s).
Proof.
  unfold disabledEffect. destruct (disabled s); [|apply extends_refl].
  destruct (Drag.isDragging (dragDataRef s)); repeat split; simpl.
  - now exists [SetIsDragging false].
  - exists []. now rewrite app_nil_r.
Qed.

Lemma extends_positionEffect s : extends s (positionEffect s).
Proof.
  unfold positionEffect.
  destruct (_ && _); [apply extends_updatePosition | apply extends_refl].
Qed.

Lemma extends_quiet s s' :
  showLargePreview s' = showLargePreview s ->
  isMinimized s' = isMinimized s ->
  innerWidth s' = innerWidth s ->
  innerHeight s' = innerHeight s ->
  pendingOpen s' = pendingOpen s ->
  log s' = log s ->
  extends s s'.
Proof.
  intros. repeat split; try assumption. exists []. now rewrite app_nil_r.
Qed.

Lemma runEffects_facts prev cur : extends cur (runEffects prev cur).
Proof.
  unfold runEffects.
  set (dc := negb (Bool.eqb (showLargePreview prev) (showLargePreview cur))).
  set (mc := negb (Bool.eqb (isMinimized prev) (isMinimized cur))).
  set (pc := negb (Point_eqb (thumbnailPosition prev) (thumbnailPosition cur))).
  set (s1 := if dc || mc then listenersCleanup cur else cur).
  assert (H1 : extends cur s1).
  { subst s1. destruct (dc || mc); [|apply extends_refl].
    now apply extends_quiet. }
  set (s2 := if dc || pc then disabledEffect s1 else s1).
  assert (H2 : extends s1 s2).
  { subst s2. destruct (dc || pc);
      [apply extends_disabledEffect | apply extends_refl]. }
  set (s3 := if pc || mc then positionEffect s2 else s2).
  assert (H3 : extends s2 s3).
  { subst s3. destruct (pc || mc);
      [apply extends_positionEffect | apply extends_refl]. }
  apply (extends_trans _ s3);
    [exact (extends_trans _ _ _ H1 (extends_trans _ _ _ H2 H3))|].
  destruct dc; [|apply extends_refl].
  unfold hoverEffect, modalClosedEffect, disabled.
  destruct (showLargePreview s3) eqn:Hs; simpl; rewrite ?Hs; simpl;
    now apply extends_quiet.
Qed.

Lemma render_facts prev cur : extends cur (render prev cur).
Proof.
  unfold render. eapply extends_trans; apply runEffects_facts.
Qed.

Lemma render_synced prev cur :
  disabled prev = false -> disabled cur = false ->
  isMinimized prev = isMinimized cur ->
  synced cur ->
  render prev cur = cur.
Proof.
  unfold disabled, synced. intros Hp Hc Hm Hs.
  assert (H : forall p, showLargePreview p = false ->
                        isMinimized p = isMinimized cur ->
                        runEffects p cur = cur).
  { intros p Hp' Hm'. unfold runEffects.
    rewrite Hp', Hc, Hm', !Bool.eqb_reflx.
    cbn [negb orb].
    assert (Hde : disabledEffect cur = cur)
      by (unfold disabledEffect, disabled; now rewrite Hc).
    assert (Hpe : positionEffect cur = cur)
      by (unfold positionEffect; now rewrite Hs).
    destruct (negb _); cbn [orb]; rewrite ?Hde, ?Hpe; reflexivity. }
  unfold render. rewrite (H prev Hp Hm). now apply H.
Qed.

(** ** A release that ends a drag *)

Lemma handleMouseUp_drag props e s :
  disabled s = false -> snapToCorners props = true ->
  Drag.isDragging (dragDataRef s) = true ->
  handleMouseUp props e s =
    let s0 := clear_styles (callSetIsDragging false
                (set_dragData (Drag.released (dragDataRef s)) s)) in
    let s1 :=
      match findSnapTarget (Drag.currentX (dragDataRef s))
                           (Drag.currentY (dragDataRef s))
                           (corners (innerWidth s) (innerHeight s)
                                    (isMinimized s)) with
      | Some c => handleSnapToCorner c
                    (emit (SnapToCorner c)
                       (updatePosition (corner_x c) (corner_y c) s0))
      | None => s0
      end in
    emit_opt (onDragEnd props) DragEnd
      (set_clickData Click.neutral
         (emit (MouseUpCb true (Drag.hasMoved (dragDataRef s))) s1)).
Proof.
  unfold disabled. intros Hd Hsnap Hdrag.
  unfold handleMouseUp, Thumbnail.handleMouseUp, disabled.
  rewrite Hdrag, Hsnap. simpl. rewrite Hd. simpl.
  destruct (findSnapTarget _ _ _); simpl; rewrite Hd; reflexivity.
Qed.

Lemma release_event props ev s :
  disabled s = false -> isRelease ev = true ->
  exists e, dispatch props ev s = handleMouseUp props e s.
Proof.
  intros Hd Hrel. destruct ev; try discriminate Hrel; simpl; rewrite Hd.
  - now exists (OfMouse e).
  - now exists (OfTouch e).
Qed.

Lemma handleMouseUp_snapped props e s c :
  disabled s = false -> snapToCorners props = true ->
  Drag.isDragging (dragDataRef s) = true ->
  findSnapTarget (Drag.currentX (dragDataRef s))
                 (Drag.currentY (dragDataRef s))
                 (corners (innerWidth s) (innerHeight s) (isMinimized s))
  = Some c ->
  let d := handleMouseUp props e s in
  thumbnailPosition d = mkPoint (corner_x c) (corner_y c) /\
  Drag.isDragging (dragDataRef d) = false /\
  Drag.currentX (dragDataRef d)
  = bounded (corner_x c) (innerWidth s - elementWidth) /\
  Drag.currentY (dragDataRef d)
  = bounded (corner_y c) (innerHeight s - elementHeight (isMinimized s)) /\
  showLargePreview d = false /\
  sameFrame s d.
Proof.
  intros Hd Hsnap Hdrag Hf. cbv zeta.
  rewrite (handleMouseUp_drag props e s Hd Hsnap Hdrag). cbv zeta.
  rewrite Hf. unfold disabled in Hd. unfold sameFrame.
  destruct (onDragEnd props); simpl;
    (split; [reflexivity|]); (split; [reflexivity|]);
    (split; [reflexivity|]); (split; [reflexivity|]);
    (split; [exact Hd|]); (split; [reflexivity|]);
    (split; reflexivity).
Qed.

Lemma runEffects_synced prev cur :
  showLargePreview prev = false -> showLargePreview cur = false ->
  isMinimized prev = isMinimized cur ->
  synced cur ->
  runEffects prev cur = cur.
Proof.
  unfold synced. intros Hp Hc Hm Hs. unfold runEffects.
  rewrite Hp, Hc, Hm, !Bool.eqb_reflx.
  cbn [negb orb].
  assert (Hde : disabledEffect cur = cur)
    by (unfold disabledEffect, disabled; now rewrite Hc).
  assert (Hpe : positionEffect cur = cur)
    by (unfold positionEffect; now rewrite Hs).
  destruct (negb _); cbn [orb]; rewrite ?Hde, ?Hpe; reflexivity.
Qed.

(** The commits after an event that left the modal closed, the size mode
    as it was and no drag in flight: the position effect runs when the
    [position] prop changed, and calls [updatePosition] when the prop is
    more than 1 px from the gesture record on an axis. *)
Lemma render_released prev cur :
  showLargePreview prev = false -> showLargePreview cur = false ->
  isMinimized prev = isMinimized cur ->
  Drag.isDragging (dragDataRef cur) = false ->
  render prev cur =
    if negb (Point_eqb (thumbnailPosition prev) (thumbnailPosition cur))
       && ((1 <? Z.abs (Drag.currentX (dragDataRef cur)
                        - x (thumbnailPosition cur)))
           || (1 <? Z.abs (Drag.currentY (dragDataRef cur)
                           - y (thumbnailPosition cur))))
    then updatePosition (x (thumbnailPosition cur))
                        (y (thumbnailPosition cur)) cur
    else cur.
Proof.
  intros Hp Hc Hm Hdrag.
  assert (H1 : runEffects prev cur =
    if negb (Point_eqb (thumbnailPosition prev) (thumbnailPosition cur))
       && ((1 <? Z.abs (Drag.currentX (dragDataRef cur)
                        - x (thumbnailPosition cur)))
           || (1 <? Z.abs (Drag.currentY (dragDataRef cur)
                           - y (thumbnailPosition cur))))
    then updatePosition (x (thumbnailPosition cur))
                        (y (thumbnailPosition cur)) cur
    else cur).
  { unfold runEffects. rewrite Hp, Hc, Hm, !Bool.eqb_reflx. cbn [negb orb].
    destruct (negb (Point_eqb _ _)); cbn [orb andb]; [|reflexivity].
    assert (Hde : disabledEffect cur = cur)
      by (unfold disabledEffect, disabled; now rewrite Hc).
    rewrite Hde. unfold positionEffect. rewrite Hdrag. cbn [negb].
    now rewrite andb_true_r. }
  unfold render. rewrite H1.
  destruct (_ && _).
  - apply runEffects_synced; [exact Hc | exact Hc | reflexivity |].
    unfold synced. simpl. now rewrite !Z.sub_diag.
  - now apply runEffects_same.
Qed.

(** Where a release that snaps to [c] leaves the thumbnail once the
    event is processed: on the clamp of the corner when the position
    effect calls [updatePosition], on the corner itself otherwise. *)
Lemma release_snapped props ev s c :
  releaseSnapTarget props ev s = Some c ->
  let corner := mkPoint (corner_x c) (corner_y c) in
  let p := clamp corner elementWidth (elementHeight (isMinimized s))
                 (innerWidth s) (innerHeight s) in
  let s' := step props ev s in
  sameFrame s s' /\
  thumbnailPosition s' =
    if negb (Point_eqb (thumbnailPosition s) corner)
       && ((1 <? Z.abs (x p - corner_x c)) || (1 <? Z.abs (y p - corner_y c)))
    then p else corner.
Proof.
  unfold releaseSnapTarget. intros H.
  destruct (isRelease ev) eqn:Hrel; [|discriminate H].
  destruct (Drag.isDragging (dragDataRef s)) eqn:Hdrag; [|discriminate H].
  destruct (snapToCorners props) eqn:Hsnap; [|discriminate H].
  destruct (disabled s) eqn:Hd; [discriminate H|].
  cbn [andb negb] in H. cbv zeta.
  destruct (release_event props ev s Hd Hrel) as [e He].
  destruct (handleMouseUp_snapped props e s c Hd Hsnap Hdrag H)
    as (Hpos & Hdr & Hcx & Hcy & Hshow & HW & HH & Hm).
  unfold step. rewrite He.
  set (d := handleMouseUp props e s) in *.
  split.
  - destruct (render_facts s d) as (_ & Hm' & HW' & HH' & _).
    unfold sameFrame. now rewrite Hm', HW', HH'.
  - unfold disabled in Hd.
    rewrite (render_released s d Hd Hshow (eq_sym Hm) Hdr).
    rewrite Hpos, Hcx, Hcy. cbn [x y clamp].
    destruct (_ && _); [|exact Hpos].
    rewrite updatePosition_position, HW, HH, Hm. reflexivity.
Qed.

(** A move handled while dragging leaves the committed position in the
    gesture record. *)
Lemma move_records_position props s ev q :
  disabled s = false ->
  Drag.isDragging (dragDataRef s) = true ->
  Drag.startX (dragDataRef s) <> 0 ->
  movePoint ev = Some q ->
  recordsPosition (step props ev s).
Proof.
  intros Hd Hdrag Hx Hq.
  assert (Hmove : forall c cx cy,
    let d := moveTo props c cx cy s in
    recordsPosition d /\ disabled d = false /\
    isMinimized s = isMinimized d /\ synced d).
  { intros c cx cy. unfold moveTo. rewrite Hdrag, andb_false_r, Hdrag.
    cbv zeta. split; [split; reflexivity|].
    split; [exact Hd|]. split; [reflexivity|].
    unfold synced. simpl. now rewrite !Z.sub_diag. }
  apply Z.eqb_neq in Hx.
  assert (Hdis : exists c cx cy, dispatch props ev s = moveTo props c cx cy s).
  { unfold disabled in Hd.
    destruct ev; try discriminate Hq; simpl in Hq |- *; unfold disabled;
      rewrite Hd.
    - unfold handleMouseMove, disabled. rewrite Hx, Hd. simpl. eauto.
    - destruct (touches e) as [|t [|t' rest]] eqn:Ht; try discriminate Hq.
      unfold handleTouchMove, disabled. rewrite Hx, Hd, Ht. simpl. eauto. }
  destruct Hdis as (c & cx & cy & Hdis).
  destruct (Hmove c cx cy) as (Hrec & Hd' & Hm & Hs).
  unfold step. rewrite Hdis.
  rewrite render_synced; [exact Hrec | exact Hd | exact Hd' | exact Hm | exact Hs].
Qed.

(** C5 (as amended).  A release that ends a drag whose gesture record
    holds the committed position (as every handled move leaves it,
    [move_records_position]) searches the four corners, in the order
    top-left, top-right, bottom-left, bottom-right, from the release
    position, which is the committed position at the release.  The
    resolver returns the corner of minimum distance among those strictly
    below 100 px, the first such in enumeration order, and nothing when no
    corner is below 100 px.  When a corner resolves, a position update with
    the clamped corner and then the snap notification with that corner are
    emitted before the release notification; the position committed once
    the event is processed is the clamped corner when the thumbnail was
    not on the corner already and the corner is more than 1 px from its
    clamp on an axis, and the corner's coordinates otherwise; in
    particular, when the viewport leaves the 10 px margin on both axes the
    committed position is exactly the corner's coordinates.  When none
    resolves, the position is left as dragged. *)
Theorem snap_on_release props s ev :
  disabled s = false ->
  snapToCorners props = true ->
  Drag.isDragging (dragDataRef s) = true ->
  recordsPosition s ->
  isRelease ev = true ->
  let cx := x (thumbnailPosition s) in
  let cy := y (thumbnailPosition s) in
  let cs := corners (innerWidth s) (innerHeight s) (isMinimized s) in
  let s' := step props ev s in
  let ending := MouseUpCb true (Drag.hasMoved (dragDataRef s))
                :: (if onDragEnd props then [DragEnd] else []) in
  match findSnapTarget cx cy cs with
  | Some c =>
      let corner := mkPoint (corner_x c) (corner_y c) in
      let clamped := clamp corner elementWidth (elementHeight (isMinimized s))
                           (innerWidth s) (innerHeight s) in
      nearestBelow cx cy cs c /\
      (exists tail,
         emitted s s' ([SetIsDragging false; PositionChange clamped;
                        SnapToCorner c] ++ ending ++ tail)) /\
      thumbnailPosition s' =
        (if negb (Point_eqb (thumbnailPosition s) corner)
            && ((1 <? Z.abs (x clamped - corner_x c))
                || (1 <? Z.abs (y clamped - corner_y c)))
         then clamped else corner) /\
      (roomy s ->
       thumbnailPosition s' = corner /\
       emitted s s' ([SetIsDragging false; PositionChange corner;
                      SnapToCorner c] ++ ending))
  | None =>
      (forall c, In c cs ->
         snapDistance * snapDistance <= cornerDistance2 cx cy c) /\
      thumbnailPosition s' = thumbnailPosition s /\
      emitted s s' (SetIsDragging false :: ending)
  end.
Proof.
  intros Hd Hsnap Hdrag [Hrx Hry] Hrel. cbv zeta.
  rewrite <- Hrx, <- Hry.
  destruct (release_event props ev s Hd Hrel) as [e He].
  pose proof (findSnapTarget_spec (Drag.currentX (dragDataRef s))
                (Drag.currentY (dragDataRef s))
                (corners (innerWidth s) (innerHeight s) (isMinimized s)))
    as Hspec.
  assert (Ht : releaseSnapTarget props ev s
               = findSnapTarget (Drag.currentX (dragDataRef s))
                   (Drag.currentY (dragDataRef s))
                   (corners (innerWidth s) (innerHeight s) (isMinimized s))).
  { unfold releaseSnapTarget. now rewrite Hrel, Hdrag, Hsnap, Hd. }
  destruct (findSnapTarget _ _ _) as [c|] eqn:Hf.
  - split; [exact Hspec|].
    destruct (release_snapped props ev s c Ht) as [_ Hpos].
    cbv zeta in Hpos.
    split; [|split; [exact Hpos|]];
      unfold step; rewrite He, (handleMouseUp_drag props e s Hd Hsnap Hdrag);
      cbv zeta; rewrite Hf; unfold disabled in Hd.
    + match goal with
      | |- exists tail, emitted s (render s ?d) _ =>
          destruct (render_facts s d) as (_ & _ & _ & _ & _ & tail & Htail)
      end.
      exists tail. unfold emitted. rewrite Htail.
      destruct (onDragEnd props); simpl; rewrite <- !app_assoc; reflexivity.
    + intros [Hw Hh].
      destruct (corners_inside _ _ _ c Hw Hh (nearestBelow_In _ _ _ _ Hspec))
        as [Hx Hy].
      rewrite render_synced.
      * split; [destruct (onDragEnd props); reflexivity|].
        unfold emitted.
        destruct (onDragEnd props); simpl; rewrite <- !app_assoc; simpl;
          rewrite !bounded_fixed by assumption; reflexivity.
      * exact Hd.
      * destruct (onDragEnd props); simpl; exact Hd.
      * destruct (onDragEnd props); reflexivity.
      * unfold synced.
        destruct (onDragEnd props); simpl;
          rewrite !bounded_fixed by assumption;
          rewrite !Z.sub_diag; reflexivity.
  - split; [exact Hspec|].
    unfold step. rewrite He, (handleMouseUp_drag props e s Hd Hsnap Hdrag).
    cbv zeta. rewrite Hf. unfold disabled in Hd.
    rewrite render_same by (destruct (onDragEnd props); reflexivity).
    split; [destruct (onDragEnd props); reflexivity|].
    unfold emitted.
    destruct (onDragEnd props); simpl; rewrite <- ?app_assoc; reflexivity.
Qed.

Lemma snap_on_release_witness :
  let s := dragged 1000 800 (100, 100) (730, 110) in
  let s' := step thumbnailProps (mouseup (primary 730 110)) s in
  thumbnailPosition s = mkPoint 650 30 /\
  thumbnailPosition s' = mkPoint 670 10 /\
  emitted s s' [SetIsDragging false; PositionChange (mkPoint 670 10);
                SnapToCorner (mkCorner 670 10 top_right);
                MouseUpCb true true].
Proof.
  cbv zeta.
  assert (Hd : disabled (dragged 1000 800 (100, 100) (730, 110)) = false)
    by (vm_compute; reflexivity).
  assert (Hdrag : Drag.isDragging
                    (dragDataRef (dragged 1000 800 (100, 100) (730, 110)))
                  = true)
    by (vm_compute; reflexivity).
  assert (Hrec : recordsPosition (dragged 1000 800 (100, 100) (730, 110)))
    by (split; vm_compute; reflexivity).
  assert (Hpos : thumbnailPosition (dragged 1000 800 (100, 100) (730, 110))
                 = mkPoint 650 30)
    by (vm_compute; reflexivity).
  split; [exact Hpos|].
  pose proof (snap_on_release thumbnailProps
                (dragged 1000 800 (100, 100) (730, 110))
                (mouseup (primary 730 110))
                Hd eq_refl Hdrag Hrec eq_refl) as H.
  cbv zeta in H.
  assert (Hf : findSnapTarget
                 (x (thumbnailPosition
                       (dragged 1000 800 (100, 100) (730, 110))))
                 (y (thumbnailPosition
                       (dragged 1000 800 (100, 100) (730, 110))))
                 (corners
                    (innerWidth (dragged 1000 800 (100, 100) (730, 110)))
                    (innerHeight (dragged 1000 800 (100, 100) (730, 110)))
                    (isMinimized (dragged 1000 800 (100, 100) (730, 110))))
               = Some (mkCorner 670 10 top_right))
    by (vm_compute; reflexivity).
  assert (Hm : Drag.hasMoved
                 (dragDataRef (dragged 1000 800 (100, 100) (730, 110)))
               = true)
    by (vm_compute; reflexivity).
  rewrite Hf, Hm in H.
  destruct H as (_ & _ & _ & H). apply H.
  vm_compute. split; discriminate.
Defined.

(** C5 (counterexample).  Two releases that end a drag.  In a viewport
    325 px wide the top-left corner (10, 10) lies beyond the largest
    admissible x, 5: a drag released at (5, 20) resolves to that corner
    and the snap notification is emitted with it, yet the position
    committed once the event is processed is the clamped point (5, 10),
    not the corner's coordinates.  In a viewport 1000 by 800 that is
    resized to 800 by 400 after the last move of a drag to (650, 320), the
    resize commits (480, 220), which is 14 px from the bottom-right corner
    (470, 210); the gesture record still holds (650, 320), so the search
    of the release finds no corner and the thumbnail is not snapped. *)
Lemma snap_commit_not_corner :
  (let s := dragged 325 800 (100, 100) (90, 100) in
   let s' := step thumbnailProps (mouseup (primary 90 100)) s in
   Drag.isDragging (dragDataRef s) = true /\
   thumbnailPosition s = mkPoint 5 20 /\
   findSnapTarget (x (thumbnailPosition s)) (y (thumbnailPosition s))
                  (corners 325 800 false)
   = Some (mkCorner 10 10 top_left) /\
   In (SnapToCorner (mkCorner 10 10 top_left)) (log s') /\
   thumbnailPosition s' = mkPoint 5 10 /\
   thumbnailPosition s' <> mkPoint 10 10) /\
  (let s := run thumbnailProps
              [mousedown (primary 100 100) (mkPoint 20 20);
               mousemove (primary 730 400);
               resize 800 400] (initial 1000 800) in
   let s' := step thumbnailProps (mouseup (primary 730 400)) s in
   reachable thumbnailProps s /\
   disabled s = false /\
   Drag.isDragging (dragDataRef s) = true /\
   thumbnailPosition s = mkPoint 480 220 /\
   (Drag.currentX (dragDataRef s), Drag.currentY (dragDataRef s))
   = (650, 320) /\
   findSnapTarget (x (thumbnailPosition s)) (y (thumbnailPosition s))
                  (corners (innerWidth s) (innerHeight s) (isMinimized s))
   = Some (mkCorner 470 210 bottom_right) /\
   thumbnailPosition s' = mkPoint 480 220 /\
   emitted s s' [SetIsDragging false; MouseUpCb true true]).
Proof.
  split.
  - vm_compute. repeat split; try tauto; discriminate.
  - cbv zeta. split; [apply reachable_run, reachable_initial; lia|].
    vm_compute. repeat split.
Qed.

(** ** Disabling in the middle of a drag *)

Lemma quietly_refl s : idle s -> quietly s s.
Proof.
  intros H. split; [exact H|]. exists []. split.
  - now rewrite app_nil_r.
  - intros c [].
Qed.

Lemma quietly_trans s1 s2 s3 : quietly s1 s2 -> quietly s2 s3 -> quietly s1 s3.
Proof.
  intros (_ & l1 & Hl1 & Hq1) (Hi & l2 & Hl2 & Hq2).
  split; [exact Hi|]. exists (l1 ++ l2). split.
  - now rewrite Hl2, Hl1, app_assoc.
  - intros c Hin. apply in_app_iff in Hin. destruct Hin; auto.
Qed.

Lemma quietly_frame s s' :
  dragDataRef s' = dragDataRef s -> log s' = log s -> idle s -> quietly s s'.
Proof.
  intros Hd Hl Hi. split.
  - unfold idle. now rewrite Hd.
  - exists []. split; [now rewrite app_nil_r | intros c []].
Qed.

Lemma quietly_updatePosition px py s : idle s -> quietly s (updatePosition px py s).
Proof.
  intros Hi. split; [exact Hi|]. eexists. split.
  - apply updatePosition_log.
  - intros c [<- | []]. reflexivity.
Qed.

Lemma quietly_disabledEffect s : idle s -> quietly s (disabledEffect s).
Proof.
  intros [Hdrag Hx]. unfold disabledEffect.
  destruct (disabled s); [|now apply quietly_refl].
  rewrite Hdrag. split; [split; reflexivity|].
  exists []. split; [now rewrite app_nil_r | intros c []].
Qed.

Lemma quietly_positionEffect s : idle s -> quietly s (positionEffect s).
Proof.
  intros Hi. unfold positionEffect.
  destruct (_ && _); [now apply quietly_updatePosition | now apply quietly_refl].
Qed.

Lemma quietly_runEffects prev cur : idle cur -> quietly cur (runEffects prev cur).
Proof.
  intros Hi. unfold runEffects.
  set (dc := negb (Bool.eqb (showLargePreview prev) (showLargePreview cur))).
  set (mc := negb (Bool.eqb (isMinimized prev) (isMinimized cur))).
  set (pc := negb (Point_eqb (thumbnailPosition prev) (thumbnailPosition cur))).
  set (s1 := if dc || mc then listenersCleanup cur else cur).
  assert (H1 : quietly cur s1).
  { subst s1. destruct (dc || mc); [|now apply quietly_refl].
    now apply quietly_frame. }
  set (s2 := if dc || pc then disabledEffect s1 else s1).
  assert (H2 : quietly s1 s2).
  { subst s2. destruct (dc || pc);
      [apply quietly_disabledEffect | apply quietly_refl]; apply H1. }
  set (s3 := if pc || mc then positionEffect s2 else s2).
  assert (H3 : quietly s2 s3).
  { subst s3. destruct (pc || mc);
      [apply quietly_positionEffect | apply quietly_refl]; apply H2. }
  apply (quietly_trans _ s3);
    [exact (quietly_trans _ _ _ H1 (quietly_trans _ _ _ H2 H3))|].
  destruct dc; [|apply quietly_refl, H3].
  unfold hoverEffect, modalClosedEffect, disabled.
  destruct (showLargePreview s3) eqn:Hs; simpl; rewrite ?Hs; simpl;
    apply quietly_frame; try reflexivity; apply H3.
Qed.

Lemma quietly_render prev cur : idle cur -> quietly cur (render prev cur).
Proof.
  intros Hi. unfold render.
  pose proof (quietly_runEffects prev cur Hi) as H1.
  eapply quietly_trans; [exact H1|].
  apply quietly_runEffects, H1.
Qed.

(** While idle, anything but a press reports no drag and leaves the
    engine idle. *)
Lemma quietly_step props ev s :
  isPress ev = false -> idle s -> quietly s (step props ev s).
Proof.
  intros Hnp Hi.
  assert (Hframe : forall d, dragDataRef d = dragDataRef s -> log d = log s ->
                             quietly s (render s d)).
  { intros d Hd Hl. eapply quietly_trans.
    - now apply (quietly_frame s d).
    - apply quietly_render. unfold idle. rewrite Hd. exact Hi. }
  assert (Hrelease : forall ev', isRelease ev' = true -> disabled s = false ->
                                 quietly s (step props ev' s)).
  { intros ev' Hrel Hd.
    destruct (release_without_drag props s ev' Hd (proj1 Hi) Hrel)
      as (Hlog & _ & _ & Hdrag & Hx).
    split; [now split|]. eexists. split.
    - rewrite Hlog, <- app_assoc. reflexivity.
    - intros c Hin. destruct (onDragEnd props); simpl in Hin;
        repeat (destruct Hin as [<- | Hin]; [reflexivity|]);
        destruct Hin. }
  destruct ev; try discriminate Hnp.
  - unfold step; simpl.
    destruct (disabled s) eqn:Hd; [now apply Hframe|].
    unfold handleMouseMove. rewrite (proj2 Hi). simpl. now apply Hframe.
  - destruct (disabled s) eqn:Hd; [|now apply Hrelease].
    unfold step; simpl. rewrite Hd. now apply Hframe.
  - unfold step; simpl.
    destruct (disabled s) eqn:Hd; [now apply Hframe|].
    unfold handleTouchMove. rewrite (proj2 Hi). simpl. now apply Hframe.
  - destruct (disabled s) eqn:Hd; [|now apply Hrelease].
    unfold step; simpl. rewrite Hd. now apply Hframe.
  - unfold step; simpl. apply Hframe; unfold handleKeyDown;
      destruct (showLargePreview s), key, ctrlKey; reflexivity.
  - unfold step; simpl.
    apply Hframe; unfold handleResize; destruct (_ || _); reflexivity.
  - unfold step; simpl. apply Hframe; destruct (_ && _); reflexivity.
  - unfold step; simpl. apply Hframe; destruct (_ && _); reflexivity.
  - unfold step; simpl. apply Hframe; destruct (disabled s); reflexivity.
  - unfold step; simpl. apply Hframe; destruct (disabled s); reflexivity.
  - unfold step; simpl. apply Hframe; destruct (disabled s); reflexivity.
  - unfold step; simpl. now apply Hframe.
  - unfold step; simpl. apply Hframe; destruct (pendingOpen s); reflexivity.
Qed.

Lemma quietly_run props evs s :
  Forall (fun ev => isPress ev = false) evs -> idle s ->
  quietly s (run props evs s).
Proof.
  intros Hall. revert s. induction Hall as [|ev evs Hev _ IH]; intros s Hi.
  - now apply quietly_refl.
  - simpl. pose proof (quietly_step props ev s Hev Hi) as H1.
    eapply quietly_trans; [exact H1|]. apply IH, H1.
Qed.

Lemma closes_enabled props closing s :
  closesPreview closing = true -> disabled (step props closing s) = false.
Proof.
  intros Hc. unfold step, disabled.
  destruct (render_facts s (dispatch props closing s)) as (-> & _).
  destruct closing; try discriminate Hc; simpl.
  - destruct key; try discriminate Hc. unfold handleKeyDown.
    destruct (showLargePreview s) eqn:Hs; simpl; [reflexivity | exact Hs].
  - reflexivity.
Qed.

Lemma disable_resets s :
  disabled s = false ->
  Drag.isDragging (dragDataRef s) = true ->
  forall d,
    showLargePreview d = true ->
    isMinimized d = isMinimized s ->
    thumbnailPosition d = thumbnailPosition s ->
    dragDataRef d = dragDataRef s ->
    log d = log s ->
    let s' := render s d in
    disabled s' = true /\
    isDragging s' = false /\
    dragDataRef s' = Drag.neutral (thumbnailPosition s) /\
    thumbnailPosition s' = thumbnailPosition s /\
    cursor s' = cursor_unset /\
    userSelect s' = select_unset /\
    log s' = log s ++ [SetIsDragging false].
Proof.
  unfold disabled. intros Hd Hdrag d Hsd Hm Hp Hr Hl.
  assert (H1 : let s1 := runEffects s d in
               showLargePreview s1 = true /\
               isMinimized s1 = isMinimized d /\
               thumbnailPosition s1 = thumbnailPosition d /\
               isDragging s1 = false /\
               dragDataRef s1 = Drag.neutral (thumbnailPosition s) /\
               cursor s1 = cursor_unset /\
               userSelect s1 = select_unset /\
               log s1 = log s ++ [SetIsDragging false]).
  { unfold runEffects. rewrite Hd, Hsd, Hm, Hp, Bool.eqb_reflx, Point_eqb_refl.
    cbn [Bool.eqb negb orb].
    unfold listenersCleanup, disabledEffect, hoverEffect, modalClosedEffect,
      disabled.
    simpl. rewrite Hsd, Hr, Hdrag. simpl.
    repeat (rewrite Hsd; simpl).
    rewrite Hl, Hp. repeat split; assumption. }
  cbv zeta in H1 |- *.
  destruct H1 as (Hs1 & Hm1 & Hp1 & Hi1 & Hr1 & Hc1 & Hu1 & Hl1).
  unfold render. rewrite (runEffects_same d (runEffects s d)) by congruence.
  repeat split; congruence.
Qed.

(** C6.  Setting [disabled] (opening the modal) while a gesture is in
    the Dragging state: the dragging flag becomes false, the only call
    made is [setIsDragging(false)], the cursor and text-selection styles
    are restored, the gesture record is discarded, and the position is
    kept.  From then on and until the next press, no event whatever makes
    the engine report a drag ([onMouseUp] with [wasDragging = true]
    included).  After any events, once the modal is closed again, a press
    arms the engine as it does from a fresh state. *)
Theorem disable_cancels_drag props s ev :
  disabled s = false ->
  Drag.isDragging (dragDataRef s) = true ->
  opensPreview ev s = true ->
  let s' := step props ev s in
  (disabled s' = true /\
   isDragging s' = false /\
   dragDataRef s' = Drag.neutral (thumbnailPosition s) /\
   thumbnailPosition s' = thumbnailPosition s /\
   cursor s' = cursor_unset /\
   userSelect s' = select_unset /\
   emitted s s' [SetIsDragging false]) /\
  (forall evs,
     Forall (fun e => isPress e = false) evs ->
     exists calls,
       emitted s' (run props evs s') calls /\
       (forall c, In c calls -> isDragReport c = false) /\
       (forall moved, ~ In (MouseUpCb true moved) calls)) /\
  (forall evs closing press p0,
     closesPreview closing = true ->
     pressPoint press = Some p0 ->
     let t := step props closing (run props evs s') in
     armedAt p0 (step props press t) /\
     emitted t (step props press t) [MouseDownCb (fst p0) (snd p0)]).
Proof.
  intros Hd Hdrag Hopen. cbv zeta.
  assert (Hfirst :
    let s' := step props ev s in
    disabled s' = true /\ isDragging s' = false /\
    dragDataRef s' = Drag.neutral (thumbnailPosition s) /\
    thumbnailPosition s' = thumbnailPosition s /\
    cursor s' = cursor_unset /\ userSelect s' = select_unset /\
    log s' = log s ++ [SetIsDragging false]).
  { unfold step. destruct ev; try discriminate Hopen; simpl in Hopen |- *.
    - unfold disabled in Hd |- *. rewrite Hd.
      now apply (disable_resets s Hd Hdrag).
    - destruct (pendingOpen s); [discriminate Hopen|].
      now apply (disable_resets s Hd Hdrag). }
  cbv zeta in Hfirst. split; [exact Hfirst|]. split.
  - intros evs Hevs.
    assert (Hidle : idle (step props ev s)).
    { destruct Hfirst as (_ & _ & Hr & _). unfold idle. now rewrite Hr. }
    destruct (quietly_run props evs _ Hevs Hidle) as (_ & calls & Hl & Hq).
    exists calls. split; [exact Hl|]. split; [exact Hq|].
    intros moved Hin. specialize (Hq _ Hin). discriminate Hq.
  - intros evs closing press p0 Hclose Hpress.
    pose proof (closes_enabled props closing
                  (run props evs (step props ev s)) Hclose) as Hen.
    destruct (press_armed props _ press p0 Hen Hpress) as (Harm & Hl & _).
    split; assumption.
Qed.

Lemma disable_cancels_drag_witness :
  let s := dragged 1000 800 (100, 100) (230, 230) in
  let s' := step thumbnailProps click_fullscreen s in
  thumbnailPosition s = mkPoint 150 150 /\
  disabled s' = true /\
  isDragging s' = false /\
  dragDataRef s' = Drag.neutral (mkPoint 150 150) /\
  emitted s s' [SetIsDragging false].
Proof.
  cbv zeta.
  assert (Hd : disabled (dragged 1000 800 (100, 100) (230, 230)) = false)
    by (vm_compute; reflexivity).
  assert (Hdrag : Drag.isDragging
                    (dragDataRef (dragged 1000 800 (100, 100) (230, 230)))
                  = true)
    by (vm_compute; reflexivity).
  assert (Hp : thumbnailPosition (dragged 1000 800 (100, 100) (230, 230))
               = mkPoint 150 150)
    by (vm_compute; reflexivity).
  destruct (disable_cancels_drag thumbnailProps
              (dragged 1000 800 (100, 100) (230, 230)) click_fullscreen
              Hd Hdrag eq_refl)
    as ((H1 & H2 & H3 & _ & _ & _ & H7) & _).
  rewrite Hp in H3.
  split; [exact Hp|]. split; [exact H1|]. split; [exact H2|].
  split; [exact H3 | exact H7].
Defined.

(** ** The committed position *)

Lemma inRange_frame s s' :
  thumbnailPosition s' = thumbnailPosition s -> sameFrame s s' ->
  inRange s -> inRange s'.
Proof.
  unfold inRange. intros -> (-> & -> & ->). exact (fun H => H).
Qed.

Lemma updatePosition_inRange px py s : inRange (updatePosition px py s).
Proof.
  unfold inRange. rewrite updatePosition_position. simpl.
  split; apply bounded_range.
Qed.

Lemma disabledEffect_inRange s : inRange s -> inRange (disabledEffect s).
Proof.
  unfold disabledEffect. destruct (disabled s); [|exact (fun H => H)].
  destruct (Drag.isDragging (dragDataRef s));
    apply inRange_frame; repeat split.
Qed.

Lemma positionEffect_inRange s : inRange s -> inRange (positionEffect s).
Proof.
  unfold positionEffect.
  destruct (_ && _); [intros _; apply updatePosition_inRange | exact (fun H => H)].
Qed.

Lemma runEffects_inRange prev cur : inRange cur -> inRange (runEffects prev cur).
Proof.
  intros H. unfold runEffects.
  set (dc := negb (Bool.eqb (showLargePreview prev) (showLargePreview cur))).
  set (mc := negb (Bool.eqb (isMinimized prev) (isMinimized cur))).
  set (pc := negb (Point_eqb (thumbnailPosition prev) (thumbnailPosition cur))).
  set (s1 := if dc || mc then listenersCleanup cur else cur).
  assert (H1 : inRange s1) by (subst s1; destruct (dc || mc); exact H).
  set (s2 := if dc || pc then disabledEffect s1 else s1).
  assert (H2 : inRange s2).
  { subst s2. destruct (dc || pc); [now apply disabledEffect_inRange | exact H1]. }
  set (s3 := if pc || mc then positionEffect s2 else s2).
  assert (H3 : inRange s3).
  { subst s3. destruct (pc || mc); [now apply positionEffect_inRange | exact H2]. }
  destruct dc; [|exact H3].
  unfold hoverEffect, modalClosedEffect, disabled.
  destruct (showLargePreview s3) eqn:Hs; simpl; rewrite ?Hs; exact H3.
Qed.

Lemma render_inRange prev cur : inRange cur -> inRange (render prev cur).
Proof.
  intros H. unfold render. now apply runEffects_inRange, runEffects_inRange.
Qed.

Lemma moveTo_inRange props c cx cy s :
  inRange s -> inRange (moveTo props c cx cy s).
Proof.
  intros H. unfold moveTo.
  destruct (_ && _).
  - destruct c, (onDragStart props); simpl; apply updatePosition_inRange.
  - destruct (Drag.isDragging (dragDataRef s));
      [apply updatePosition_inRange | exact H].
Qed.

(** Where [handleMouseUp] leaves the position: where it was, or on one
    of the four corners. *)
Arguments corners : simpl never.

Lemma handleMouseUp_position props e s :
  let s' := handleMouseUp props e s in
  sameFrame s s' /\
  (thumbnailPosition s' = thumbnailPosition s \/
   exists c, In c (corners (innerWidth s) (innerHeight s) (isMinimized s)) /\
             thumbnailPosition s' = mkPoint (corner_x c) (corner_y c)).
Proof.
  unfold handleMouseUp, Thumbnail.handleMouseUp, disabled, sameFrame,
    emit_opt.
  set (was := Drag.isDragging (dragDataRef s)).
  set (moved := Drag.hasMoved (dragDataRef s)).
  simpl.
  pose proof (findSnapTarget_spec (Drag.currentX (dragDataRef s))
                (Drag.currentY (dragDataRef s))
                (corners (innerWidth s) (innerHeight s) (isMinimized s)))
    as Hspec.
  destruct (was && snapToCorners props && negb (showLargePreview s)).
  - destruct (findSnapTarget _ _ _) as [c|].
    + apply nearestBelow_In in Hspec. simpl.
      destruct (showLargePreview s); simpl;
        repeat match goal with
          | |- context [if ?b then _ else _] => destruct b; simpl
          | |- context [match eventClient e with _ => _ end] =>
              destruct (eventClient e) as [[? ?]|]; simpl
          end;
        (split; [repeat split|]);
        right; exists c; (split; [exact Hspec | reflexivity]).
    + simpl. destruct (showLargePreview s); simpl;
        repeat match goal with
          | |- context [if ?b then _ else _] => destruct b; simpl
          | |- context [match eventClient e with _ => _ end] =>
              destruct (eventClient e) as [[? ?]|]; simpl
          end;
        (split; [repeat split | now left]).
  - simpl. destruct (showLargePreview s); simpl;
      repeat match goal with
        | |- context [if ?b then _ else _] => destruct b; simpl
        | |- context [match eventClient e with _ => _ end] =>
            destruct (eventClient e) as [[? ?]|]; simpl
        end;
      (split; [repeat split | now left]).
Qed.

(** *** A release, and the commit that follows it *)

Lemma handleMouseUp_unsnapped props e s :
  (if Drag.isDragging (dragDataRef s) && snapToCorners props
      && negb (disabled s)
   then findSnapTarget (Drag.currentX (dragDataRef s))
                       (Drag.currentY (dragDataRef s))
                       (corners (innerWidth s) (innerHeight s)
                                (isMinimized s))
   else None) = None ->
  thumbnailPosition (handleMouseUp props e s) = thumbnailPosition s.
Proof.
  unfold handleMouseUp, Thumbnail.handleMouseUp, disabled, emit_opt.
  set (was := Drag.isDragging (dragDataRef s)).
  set (moved := Drag.hasMoved (dragDataRef s)).
  simpl. intros H.
  destruct (was && snapToCorners props && negb (showLargePreview s)).
  - rewrite H. simpl. destruct (showLargePreview s); simpl;
      repeat match goal with
        | |- context [if ?b then _ else _] => destruct b; simpl
        | |- context [match eventClient e with _ => _ end] =>
            destruct (eventClient e) as [[? ?]|]; simpl
        end; reflexivity.
  - simpl. destruct (showLargePreview s); simpl;
      repeat match goal with
        | |- context [if ?b then _ else _] => destruct b; simpl
        | |- context [match eventClient e with _ => _ end] =>
            destruct (eventClient e) as [[? ?]|]; simpl
        end; reflexivity.
Qed.

Lemma release_unsnapped props ev s :
  isRelease ev = true -> releaseSnapTarget props ev s = None ->
  thumbnailPosition (dispatch props ev s) = thumbnailPosition s /\
  sameFrame s (dispatch props ev s).
Proof.
  unfold releaseSnapTarget. intros Hrel H. rewrite Hrel in H.
  cbn [andb] in H.
  destruct ev; try discriminate Hrel; simpl; destruct (disabled s) eqn:Hd;
    try (split; [reflexivity | repeat split]);
    (split; [apply handleMouseUp_unsnapped; now rewrite Hd
            | apply handleMouseUp_position]).
Qed.

Lemma inRange_clamp_fixed s c :
  0 <= corner_x c <= Z.max 0 (innerWidth s - elementWidth) ->
  0 <= corner_y c
    <= Z.max 0 (innerHeight s - elementHeight (isMinimized s)) ->
  clamp (mkPoint (corner_x c) (corner_y c)) elementWidth
        (elementHeight (isMinimized s)) (innerWidth s) (innerHeight s)
  = mkPoint (corner_x c) (corner_y c).
Proof.
  intros Hx Hy. unfold clamp, bounded. cbn [x y]. f_equal; lia.
Qed.

Lemma release_inRange props ev s :
  inRange s -> isRelease ev = true ->
  (forall c, releaseSnapTarget props ev s = Some c -> ~ barelyOutside s c) ->
  inRange (step props ev s).
Proof.
  intros Hin Hrel Hsnap.
  destruct (releaseSnapTarget props ev s) as [c|] eqn:Ht.
  - specialize (Hsnap c eq_refl).
    destruct (release_snapped props ev s c Ht) as ((HW & HH & Hm) & Hpos).
    cbv zeta in Hpos.
    set (p := clamp (mkPoint (corner_x c) (corner_y c)) elementWidth
                (elementHeight (isMinimized s)) (innerWidth s) (innerHeight s))
      in *.
    assert (Hp : 0 <= x p <= Z.max 0 (innerWidth s - elementWidth) /\
                 0 <= y p <= Z.max 0 (innerHeight s
                                      - elementHeight (isMinimized s)))
      by (split; apply bounded_range).
    unfold inRange. rewrite Hpos, HW, HH, Hm.
    destruct (negb (Point_eqb (thumbnailPosition s)
                      (mkPoint (corner_x c) (corner_y c)))) eqn:Hpc;
      cbn [andb].
    + destruct (_ || _) eqn:Htest; [exact Hp|].
      apply orb_false_iff in Htest. destruct Htest as [Hx Hy].
      apply Z.ltb_ge in Hx, Hy.
      destruct (Point_eqb p (mkPoint (corner_x c) (corner_y c))) eqn:Heq.
      * apply Point_eqb_eq in Heq. rewrite <- Heq. exact Hp.
      * exfalso. apply Hsnap. unfold barelyOutside. fold p.
        split; [|split; assumption].
        intros E. rewrite E, Point_eqb_refl in Heq. discriminate Heq.
    + apply negb_false_iff, Point_eqb_eq in Hpc. rewrite <- Hpc. exact Hin.
  - destruct (release_unsnapped props ev s Hrel Ht) as [Hp Hf].
    unfold step. apply render_inRange. now apply (inRange_frame s).
Qed.

(** A release that snaps to a corner barely outside the bounds leaves
    the thumbnail on that corner: [updatePosition] records the clamped
    corner, [handleSnapToCorner] commits the corner itself, and the
    position effect, finding the two within 1 px, does not clamp again. *)
Lemma snap_leaves_range props ev s c :
  releaseSnapTarget props ev s = Some c -> barelyOutside s c ->
  thumbnailPosition (step props ev s) = mkPoint (corner_x c) (corner_y c) /\
  ~ inRange (step props ev s).
Proof.
  intros Ht (Hne & Hx & Hy).
  destruct (release_snapped props ev s c Ht) as ((HW & HH & Hm) & Hpos).
  cbv zeta in *.
  apply Z.ltb_ge in Hx, Hy. rewrite Hx, Hy, andb_false_r in Hpos.
  split; [exact Hpos|].
  unfold inRange. rewrite Hpos, HW, HH, Hm. cbn [x y]. intros [Hx' Hy'].
  apply Hne. now apply inRange_clamp_fixed.
Qed.

(** A corner is barely outside the bounds only in a viewport 329 px wide
    or 9 px higher than the thumbnail. *)
Lemma barelyOutside_sizes s c :
  In c (corners (innerWidth s) (innerHeight s) (isMinimized s)) ->
  barelyOutside s c ->
  innerWidth s = 329 \/ innerHeight s = elementHeight (isMinimized s) + 9.
Proof.
  unfold barelyOutside, corners, clamp, bounded, margin, elementWidth.
  cbn [x y]. intros Hin (Hne & Hx & Hy).
  assert (H : ~ (Z.max 0 (Z.min (corner_x c) (innerWidth s - 320))
                 = corner_x c /\
                 Z.max 0 (Z.min (corner_y c)
                            (innerHeight s - elementHeight (isMinimized s)))
                 = corner_y c)).
  { intros [Ex Ey]. apply Hne. now rewrite Ex, Ey. }
  destruct Hin as [<- | [<- | [<- | [<- | []]]]]; cbn [corner_x corner_y] in *;
    lia.
Qed.

Lemma handleResize_inRange s :
  0 <= x (thumbnailPosition s) -> 0 <= y (thumbnailPosition s) ->
  inRange (handleResize s).
Proof.
  intros Hx Hy. unfold handleResize, inRange.
  destruct (_ || _) eqn:Hout; simpl.
  - unfold elementWidth. lia.
  - apply orb_false_iff in Hout. destruct Hout as [Hox Hoy].
    apply Z.ltb_ge in Hox, Hoy. unfold elementWidth. lia.
Qed.

Lemma inRange_minimized s s' :
  thumbnailPosition s' = thumbnailPosition s ->
  innerWidth s' = innerWidth s -> innerHeight s' = innerHeight s ->
  isMinimized s' = true ->
  inRange s -> inRange s'.
Proof.
  unfold inRange. intros -> -> -> ->.
  destruct (isMinimized s); simpl; lia.
Qed.

(** Every handler but that of a release keeps the position in range. *)
Lemma dispatch_inRange props ev s :
  inRange s ->
  (isMinimized s = true -> isMinimized (dispatch props ev s) = true) ->
  isRelease ev = false ->
  inRange (dispatch props ev s).
Proof.
  intros Hin Hmode Hrel.
  destruct ev; try discriminate Hrel; simpl in *.
  - unfold handleMouseDown, Thumbnail.handleMouseDown.
    split_ifs; exact Hin.
  - destruct (disabled s); [exact Hin|]. unfold handleMouseMove.
    destruct (_ || _); [exact Hin | now apply moveTo_inRange].
  - unfold handleTouchStart, Thumbnail.handleMouseDown.
    destruct (touches e); split_ifs; exact Hin.
  - destruct (disabled s); [exact Hin|]. unfold handleTouchMove.
    destruct (_ || _); [exact Hin|].
    destruct (touches e); [exact Hin | now apply moveTo_inRange].
  - unfold handleKeyDown in *.
    destruct (showLargePreview s), key, ctrlKey; try exact Hin;
      simpl in Hmode;
      (destruct (isMinimized s) eqn:Hm;
       [specialize (Hmode eq_refl); discriminate Hmode|]);
      apply (inRange_minimized s); try reflexivity; simpl; now rewrite ?Hm.
  - apply handleResize_inRange; simpl; apply Hin.
  - destruct (_ && _); exact Hin.
  - destruct (_ && _); exact Hin.
  - destruct (disabled s); [exact Hin|].
    now apply (inRange_minimized s).
  - destruct (disabled s); [exact Hin|]. simpl in Hmode.
    destruct (isMinimized s) eqn:Hm;
      [specialize (Hmode eq_refl); discriminate Hmode|].
    unfold inRange in *. simpl. rewrite Hm in Hin. exact Hin.
  - destruct (disabled s); exact Hin.
  - exact Hin.
  - destruct (pendingOpen s); exact Hin.
Qed.

(** C1 (as amended).  Every position update commits a point within
    [[0, max(0, W-320)] x [0, max(0, H-h)]], whatever the viewport; a
    resize event re-establishes these bounds from any non-negative
    position; every event preserves them, unless it expands a minimized
    thumbnail or is a release that snaps to a corner barely outside the
    bounds (outside by at most 1 px on each axis), which no corner is
    unless the viewport is 329 px wide or 9 px higher than the thumbnail;
    the initial position (20, 20) satisfies them in viewports of at least
    340 by 200; and where the viewport is at least as large as the extent
    they are the bounds [[0, W-320] x [0, H-h]]. *)
Theorem position_stays_in_range props s :
  (forall px py, inRange (updatePosition px py s)) /\
  (forall w h,
     0 <= x (thumbnailPosition s) -> 0 <= y (thumbnailPosition s) ->
     inRange (step props (resize w h) s)) /\
  (forall ev,
     inRange s ->
     (isMinimized s = true -> isMinimized (step props ev s) = true) ->
     (forall c, releaseSnapTarget props ev s = Some c ->
                ~ barelyOutside s c) ->
     inRange (step props ev s)) /\
  (forall c,
     In c (corners (innerWidth s) (innerHeight s) (isMinimized s)) ->
     barelyOutside s c ->
     innerWidth s = 329 \/
     innerHeight s = elementHeight (isMinimized s) + 9) /\
  (forall w h, 340 <= w -> 200 <= h -> inRange (initial w h)) /\
  (inRange s ->
   elementWidth <= innerWidth s ->
   elementHeight (isMinimized s) <= innerHeight s ->
   inBounds s).
Proof.
  split; [intros px py; apply updatePosition_inRange|].
  split.
  { intros w h Hx Hy. unfold step. apply render_inRange. simpl.
    now apply handleResize_inRange. }
  split.
  { intros ev Hin Hmode Hsnap.
    destruct (isRelease ev) eqn:Hrel; [now apply release_inRange|].
    unfold step in *.
    destruct (render_facts s (dispatch props ev s)) as (_ & Hm & _).
    apply render_inRange. apply dispatch_inRange; [exact Hin | | exact Hrel].
    intros Hmin. rewrite <- Hm. now apply Hmode. }
  split; [apply barelyOutside_sizes|].
  split.
  { intros w h Hw Hh. unfold inRange, initial, elementWidth. simpl. lia. }
  unfold inRange, inBounds. lia.
Qed.

Lemma position_stays_in_range_witness :
  let s0 := initial 1000 800 in
  let s1 := step thumbnailProps
              (mousedown (primary 100 100) (mkPoint 20 20)) s0 in
  let s2 := step thumbnailProps (mousemove (primary 730 110)) s1 in
  let s3 := step thumbnailProps (mouseup (primary 730 110)) s2 in
  let s4 := step thumbnailProps (resize 600 400) s2 in
  (thumbnailPosition s2 = mkPoint 650 30 /\ inRange s2) /\
  (thumbnailPosition s3 = mkPoint 670 10 /\ inRange s3 /\ inBounds s3) /\
  (thumbnailPosition s4 = mkPoint 280 30 /\ inRange s4).
Proof.
  intros s0 s1 s2 s3 s4.
  assert (Hquiet : forall s ev,
            releaseSnapTarget thumbnailProps ev s = None ->
            forall c, releaseSnapTarget thumbnailProps ev s = Some c ->
                      ~ barelyOutside s c).
  { intros s ev Hn c Hc. rewrite Hn in Hc. discriminate Hc. }
  assert (Hmode : forall s s',
            isMinimized s = false ->
            isMinimized s = true -> isMinimized s' = true).
  { intros s s' Hf Ht. rewrite Hf in Ht. discriminate Ht. }
  assert (H0 : inRange s0).
  { destruct (position_stays_in_range thumbnailProps s0)
      as (_ & _ & _ & _ & Hinit & _).
    apply Hinit; lia. }
  assert (H1 : inRange s1).
  { destruct (position_stays_in_range thumbnailProps s0)
      as (_ & _ & Hstep & _).
    apply Hstep; [exact H0 | apply Hmode | apply Hquiet];
      vm_compute; reflexivity. }
  assert (H2 : inRange s2).
  { destruct (position_stays_in_range thumbnailProps s1)
      as (_ & _ & Hstep & _).
    apply Hstep; [exact H1 | apply Hmode | apply Hquiet];
      vm_compute; reflexivity. }
  destruct (position_stays_in_range thumbnailProps s2)
    as (_ & Hresize & Hstep & _).
  assert (H3 : inRange s3).
  { apply Hstep; [exact H2 | apply Hmode; vm_compute; reflexivity |].
    intros c Hc.
    assert (Ht : releaseSnapTarget thumbnailProps
                   (mouseup (primary 730 110)) s2
                 = Some (mkCorner 670 10 top_right))
      by (vm_compute; reflexivity).
    rewrite Ht in Hc. injection Hc as <-.
    intros [Hne _]. apply Hne. vm_compute. reflexivity. }
  split; [|split].
  - split; [vm_compute; reflexivity | exact H2].
  - split; [vm_compute; reflexivity|]. split; [exact H3|].
    destruct (position_stays_in_range thumbnailProps s3)
      as (_ & _ & _ & _ & _ & Hbounds).
    apply Hbounds; [exact H3 | |]; vm_compute; discriminate.
  - split; [vm_compute; reflexivity|].
    apply Hresize; vm_compute; discriminate.
Defined.

(** C1 (counterexample).  Reachable states whose committed position is
    outside [[0, W-320] x [0, H-h]]: the initial position (20, 20) in a
    viewport 330 by 190; the point (0, 0) committed by a position update
    in a viewport 300 by 150, smaller than the extent, where the interval
    is empty; (10, 730) in a viewport 1000 by 800 after the thumbnail was
    minimized, dragged to the bottom-left corner and expanded again; and,
    outside [[0, max(0, W-320)] x [0, max(0, H-h)]] as well, the corner
    (10, 10) left by a release that snaps to it in a viewport 329 px wide,
    where the largest x is 9, and in a viewport 189 px high, where the
    largest y is 9. *)
Lemma position_leaves_bounds :
  (reachable thumbnailProps (initial 330 190) /\
   ~ inBounds (initial 330 190)) /\
  (let s := dragged 300 150 (100, 100) (50, 50) in
   reachable thumbnailProps s /\
   thumbnailPosition s = mkPoint 0 0 /\
   ~ inBounds s) /\
  (let s := run thumbnailProps
              [keydown KeyM true;
               mousedown (primary 100 50) (mkPoint 20 20);
               mousemove (primary 100 900);
               mouseup (primary 100 900);
               keydown KeyM true] (initial 1000 800) in
   reachable thumbnailProps s /\
   thumbnailPosition s = mkPoint 10 730 /\
   isMinimized s = false /\
   ~ inBounds s) /\
  (let s := dragged 329 800 (100, 100) (90, 100) in
   let s' := step thumbnailProps (mouseup (primary 90 100)) s in
   reachable thumbnailProps s' /\
   thumbnailPosition s = mkPoint 9 20 /\
   inRange s /\
   releaseSnapTarget thumbnailProps (mouseup (primary 90 100)) s
   = Some (mkCorner 10 10 top_left) /\
   thumbnailPosition s' = mkPoint 10 10 /\
   ~ inRange s') /\
  (let s := dragged 1000 189 (100, 100) (100, 90) in
   let s' := step thumbnailProps (mouseup (primary 100 90)) s in
   reachable thumbnailProps s' /\
   thumbnailPosition s = mkPoint 20 9 /\
   inRange s /\
   releaseSnapTarget thumbnailProps (mouseup (primary 100 90)) s
   = Some (mkCorner 10 10 top_left) /\
   thumbnailPosition s' = mkPoint 10 10 /\
   ~ inRange s').
Proof.
  split; [|split; [|split; [|split]]].
  - split; [apply reachable_initial; lia|].
    unfold inBounds. vm_compute. intros [[_ H] _]. now apply H.
  - cbv zeta. split; [apply reachable_run, reachable_initial; lia|].
    split; [vm_compute; reflexivity|].
    unfold inBounds. vm_compute. intros [[_ H] _]. now apply H.
  - cbv zeta. split; [apply reachable_run, reachable_initial; lia|].
    split; [vm_compute; reflexivity|]. split; [vm_compute; reflexivity|].
    unfold inBounds. vm_compute. intros [_ [_ H]]. now apply H.
  - cbv zeta.
    split; [apply reachable_step, reachable_run, reachable_initial; lia|].
    split; [vm_compute; reflexivity|].
    split; [unfold inRange; vm_compute; repeat split; discriminate|].
    split; [vm_compute; reflexivity|]. split; [vm_compute; reflexivity|].
    unfold inRange. vm_compute. intros [[_ H] _]. now apply H.
  - cbv zeta.
    split; [apply reachable_step, reachable_run, reachable_initial; lia|].
    split; [vm_compute; reflexivity|].
    split; [unfold inRange; vm_compute; repeat split; discriminate|].
    split; [vm_compute; reflexivity|]. split; [vm_compute; reflexivity|].
    unfold inRange. vm_compute. intros [_ [_ H]]. now apply H.
Qed.

(** ** Malformed geometry *)

Lemma JS_bounded_finite v W w :
  JS.bounded (JS.Finite v) (JS.Finite W) (JS.Finite w)
  = JS.Finite (bounded v (W - w)).
Proof. reflexivity. Qed.

Lemma JS_bounded_NaN W w : JS.bounded JS.NaN W w = JS.NaN.
Proof. unfold JS.bounded. destruct (JS.sub W w); reflexivity. Qed.

Lemma JS_bounded_NaN_window v w : JS.bounded v JS.NaN w = JS.NaN.
Proof. unfold JS.bounded. destruct v, w; reflexivity. Qed.

(** C7 (as amended).  [updatePosition] makes no validity check and keeps
    no last known-good position to fall back on: whatever the proposed
    point, it commits and emits the clamp of that point, so a negative
    proposed coordinate is committed as [0], an axis on which the viewport
    is smaller than the extent is committed as [0], and the outcome does
    not depend on the position committed before or on the gesture record.
    On JavaScript numbers the same expression is the integer clamp on
    finite inputs, and yields [NaN] when the proposed coordinate or the
    viewport size is [NaN]. *)
Theorem position_update_unchecked s px py :
  let s' := updatePosition px py s in
  thumbnailPosition s'
  = clamp (mkPoint px py) elementWidth (elementHeight (isMinimized s))
          (innerWidth s) (innerHeight s) /\
  emitted s s' [PositionChange (thumbnailPosition s')] /\
  (px < 0 -> x (thumbnailPosition s') = 0) /\
  (py < 0 -> y (thumbnailPosition s') = 0) /\
  (innerWidth s < elementWidth -> x (thumbnailPosition s') = 0) /\
  (innerHeight s < elementHeight (isMinimized s) ->
   y (thumbnailPosition s') = 0) /\
  (forall last d,
     thumbnailPosition
       (updatePosition px py (set_dragData d (setThumbnailPosition last s)))
     = thumbnailPosition s') /\
  (forall v W w,
     JS.bounded (JS.Finite v) (JS.Finite W) (JS.Finite w)
     = JS.Finite (bounded v (W - w))) /\
  (forall W w, JS.bounded JS.NaN W w = JS.NaN) /\
  (forall v w, JS.bounded v JS.NaN w = JS.NaN).
Proof.
  cbv zeta. rewrite updatePosition_position. unfold emitted, clamp. simpl.
  split; [reflexivity|]. split; [reflexivity|].
  split; [unfold bounded; lia|]. split; [unfold bounded; lia|].
  split; [unfold bounded; lia|]. split; [unfold bounded; lia|].
  split; [reflexivity|].
  split; [exact JS_bounded_finite|].
  split; [exact JS_bounded_NaN | exact JS_bounded_NaN_window].
Qed.

Lemma position_update_unchecked_witness :
  let s := initial 300 800 in
  x (thumbnailPosition (updatePosition (-50) (-1) s)) = 0 /\
  y (thumbnailPosition (updatePosition (-50) (-1) s)) = 0 /\
  x (thumbnailPosition (updatePosition 40 40 s)) = 0.
Proof.
  destruct (position_update_unchecked (initial 300 800) (-50) (-1))
    as (_ & _ & Hx & Hy & _).
  destruct (position_update_unchecked (initial 300 800) 40 40)
    as (_ & _ & _ & _ & Hw & _).
  cbv zeta. split; [apply Hx; lia|]. split; [apply Hy; lia|].
  apply Hw. vm_compute. reflexivity.
Defined.

(** C7 (counterexample).  The thumbnail was dragged to (150, 150), its
    last known-good position.  The next move proposes (-50, 150): the
    engine emits and commits (0, 150), not (150, 150).  And on JavaScript
    numbers a [NaN] coordinate, or a [NaN] viewport size, comes out of the
    clamp expression as [NaN]. *)
Lemma invalid_geometry_not_substituted :
  (let s := dragged 1000 800 (100, 100) (230, 230) in
   let s' := step thumbnailProps (mousemove (primary 30 230)) s in
   thumbnailPosition s = mkPoint 150 150 /\
   emitted s s' [PositionChange (mkPoint 0 150)] /\
   thumbnailPosition s' = mkPoint 0 150 /\
   thumbnailPosition s' <> thumbnailPosition s) /\
  JS.isFinite (JS.bounded JS.NaN (JS.Finite 1000) (JS.Finite 320)) = false /\
  JS.isFinite (JS.bounded (JS.Finite 5) JS.NaN (JS.Finite 320)) = false.
Proof.
  split; [|split; reflexivity].
  vm_compute. repeat split; discriminate.
Qed.

(** ** Reflow *)

(** A commit leaves the position, or replaces it by its clamp and
    leaves the gesture record in agreement with it. *)
Lemma runEffects_position prev cur :
  let s := runEffects prev cur in
  thumbnailPosition s = thumbnailPosition cur \/
  (thumbnailPosition s
   = clamp (thumbnailPosition cur) elementWidth
           (elementHeight (isMinimized cur)) (innerWidth cur) (innerHeight cur)
   /\ synced s).
Proof.
  cbv zeta. unfold runEffects.
  set (dc := negb (Bool.eqb (showLargePreview prev) (showLargePreview cur))).
  set (mc := negb (Bool.eqb (isMinimized prev) (isMinimized cur))).
  set (pc := negb (Point_eqb (thumbnailPosition prev) (thumbnailPosition cur))).
  set (s1 := if dc || mc then listenersCleanup cur else cur).
  assert (H1 : thumbnailPosition s1 = thumbnailPosition cur /\ sameFrame cur s1).
  { subst s1. destruct (dc || mc); repeat split. }
  set (s2 := if dc || pc then disabledEffect s1 else s1).
  assert (H2 : thumbnailPosition s2 = thumbnailPosition cur /\ sameFrame cur s2).
  { subst s2. destruct (dc || pc); [|exact H1]. unfold disabledEffect.
    destruct (disabled s1); [|exact H1].
    destruct (Drag.isDragging (dragDataRef s1)); exact H1. }
  destruct H2 as (Hp2 & HW2 & HH2 & Hm2).
  set (s3 := if pc || mc then positionEffect s2 else s2).
  assert (H3 : thumbnailPosition s3 = thumbnailPosition cur \/
               (thumbnailPosition s3
                = clamp (thumbnailPosition cur) elementWidth
                    (elementHeight (isMinimized cur))
                    (innerWidth cur) (innerHeight cur)
                /\ synced s3)).
  { subst s3. destruct (pc || mc); [|now left]. unfold positionEffect.
    destruct (_ && _); [|now left].
    right. split.
    - rewrite updatePosition_position, Hp2, HW2, HH2, Hm2. reflexivity.
    - unfold synced. simpl. now rewrite !Z.sub_diag. }
  destruct dc; [|exact H3].
  unfold hoverEffect, modalClosedEffect, disabled, synced in *.
  destruct (showLargePreview s3) eqn:Hs; simpl; rewrite ?Hs; exact H3.
Qed.

Lemma runEffects_synced_position prev cur :
  showLargePreview prev = showLargePreview cur ->
  isMinimized prev = isMinimized cur ->
  synced cur ->
  thumbnailPosition (runEffects prev cur) = thumbnailPosition cur.
Proof.
  intros Hd Hm Hs. unfold runEffects.
  rewrite Hd, Hm, !Bool.eqb_reflx. cbn [negb orb].
  destruct (negb _); [|reflexivity].
  assert (H : thumbnailPosition (disabledEffect cur) = thumbnailPosition cur
              /\ synced (disabledEffect cur)).
  { unfold disabledEffect. destruct (disabled cur); [|now split].
    destruct (Drag.isDragging (dragDataRef cur)); split; try reflexivity;
      unfold synced; simpl; now rewrite !Z.sub_diag. }
  destruct H as [Hp Hs']. unfold positionEffect.
  unfold synced in Hs'. rewrite Hs'. exact Hp.
Qed.

(** Two commits are enough: a third one finds no dependency changed. *)
Lemma render_settled prev cur :
  runEffects (runEffects prev cur) (render prev cur) = render prev cur.
Proof.
  unfold render.
  destruct (runEffects_facts prev cur) as (Hd1 & Hm1 & _).
  destruct (runEffects_facts cur (runEffects prev cur)) as (Hd2 & Hm2 & _).
  apply runEffects_same; try congruence.
  destruct (runEffects_position prev cur) as [Hsame | [_ Hsync]].
  - now rewrite (runEffects_same cur (runEffects prev cur)).
  - symmetry. apply runEffects_synced_position; congruence.
Qed.

(** The resize half of the reflow policy: when the committed position
    exceeds the new maximum on either axis, a resize event commits its
    clamp for the new viewport, with no gesture needed. *)
Lemma resize_reflows props s w h :
  w - elementWidth < x (thumbnailPosition s) \/
  h - elementHeight (isMinimized s) < y (thumbnailPosition s) ->
  thumbnailPosition (step props (resize w h) s)
  = clamp (thumbnailPosition s) elementWidth (elementHeight (isMinimized s))
          w h.
Proof.
  intros Hout. unfold step. simpl.
  set (d := handleResize (set_window w h s)).
  assert (Hd : thumbnailPosition d
               = clamp (thumbnailPosition s) elementWidth
                       (elementHeight (isMinimized s)) w h
               /\ innerWidth d = w /\ innerHeight d = h
               /\ isMinimized d = isMinimized s).
  { subst d. unfold handleResize. simpl.
    destruct (_ || _) eqn:Htest; simpl.
    - repeat split.
    - apply orb_false_iff in Htest. destruct Htest as [Hx Hy].
      apply Z.ltb_ge in Hx, Hy. unfold elementWidth in Hout. lia. }
  destruct Hd as (Hp & HW & HH & Hm).
  assert (Hfix : forall t, thumbnailPosition t = thumbnailPosition d ->
                           sameFrame d t ->
                   clamp (thumbnailPosition t) elementWidth
                     (elementHeight (isMinimized t))
                     (innerWidth t) (innerHeight t)
                   = thumbnailPosition d).
  { intros t Ht (HWt & HHt & Hmt). rewrite Ht, HWt, HHt, Hmt, HW, HH, Hm, Hp.
    unfold clamp. simpl. now rewrite !bounded_idempotent. }
  unfold render.
  destruct (runEffects_facts s d) as (_ & Hm1 & HW1 & HH1 & _).
  assert (Hp1 : thumbnailPosition (runEffects s d) = thumbnailPosition d).
  { destruct (runEffects_position s d) as [H | [H _]]; [exact H|].
    rewrite H. apply Hfix; repeat split. }
  destruct (runEffects_position d (runEffects s d)) as [H | [H _]].
  - now rewrite H, Hp1.
  - rewrite H, <- Hp. apply Hfix; [exact Hp1 | now repeat split].
Qed.

(** C8 (failing input).  Viewport 1000 by 800.  The thumbnail is
    minimized and dragged to the bottom-left corner, where it snaps to
    (10, 730), valid for the 60 px footprint.  Expanding it (Ctrl+M, or
    the Expand button) makes no call and commits nothing: the position
    stays (10, 730), above the maximum 620 of the 180 px footprint.  A
    resize event to the very same viewport then does commit (10, 620). *)
Theorem expand_does_not_reflow :
  let s := run thumbnailProps
             [keydown KeyM true;
              mousedown (primary 100 50) (mkPoint 20 20);
              mousemove (primary 100 900);
              mouseup (primary 100 900)] (initial 1000 800) in
  let viaKey := step thumbnailProps (keydown KeyM true) s in
  let viaButton := step thumbnailProps click_expand s in
  isMinimized s = true /\
  thumbnailPosition s = mkPoint 10 730 /\
  inBounds s /\
  isMinimized viaKey = false /\
  thumbnailPosition viaKey = mkPoint 10 730 /\
  emitted s viaKey [] /\
  viaButton = viaKey /\
  ~ inBounds viaKey /\
  thumbnailPosition (step thumbnailProps (resize 1000 800) viaKey)
  = mkPoint 10 620.
Proof.
  vm_compute. repeat split; try discriminate.
  intros [_ [_ H]]. now apply H.
Qed.

(** ** Touch *)

(** C9 (failing input).  One finger presses at (100, 100) and drags the
    thumbnail to (150, 150).  A second finger comes down: its
    [touchstart] and the following two-finger [touchmove] are ignored.
    When an extra finger lifts, [touchend] runs [handleMouseUp] whatever
    [e.touches] holds, with one contact left or with two: the gesture of
    the first finger is ended and a release with [wasDragging = true] is
    reported although that finger is still down, and its later moves are
    dropped. *)
Theorem extra_touch_end_ends_gesture :
  let s := run thumbnailProps
             [touchstart (fingers [touchAt 100 100]) (mkPoint 20 20);
              touchmove (fingers [touchAt 230 230])] (initial 1000 800) in
  let two := [touchAt 230 230; touchAt 500 500] in
  let s1 := step thumbnailProps (touchstart (fingers two) (mkPoint 150 150)) s in
  let s2 := step thumbnailProps (touchmove (fingers two)) s1 in
  let s3 := step thumbnailProps (touchend (fingers [touchAt 230 230])) s2 in
  let s3' := step thumbnailProps (touchend (fingers two)) s2 in
  let s4 := step thumbnailProps (touchmove (fingers [touchAt 400 400])) s3 in
  Drag.isDragging (dragDataRef s) = true /\
  thumbnailPosition s = mkPoint 150 150 /\
  s1 = s /\ s2 = s /\
  Drag.isDragging (dragDataRef s3) = false /\
  isDragging s3 = false /\
  emitted s s3 [SetIsDragging false; MouseUpCb true true] /\
  s3' = s3 /\
  s4 = s3.
Proof.
  vm_compute. repeat split.
Qed.

(** ** The drag threshold *)

(** C4 (failing input).  The thumbnail sits at the left edge, at
    (0, 300).  A press on its first pixel column, at [clientX = 0], is
    recorded with [startX = 0], which [handleMouseMove] reads as "no
    gesture": the move to (200, 350), 200 px away, starts no drag and
    emits no position update, and the release reports
    [wasDragging = false]. *)
Theorem press_at_left_edge_never_drags :
  let s := run thumbnailProps
             [mousedown (primary 100 100) (mkPoint 20 20);
              mousemove (primary 50 380);
              mouseup (primary 50 380)] (initial 1000 800) in
  let s1 := step thumbnailProps (mousedown (primary 0 350) (mkPoint 0 300)) s in
  let s2 := step thumbnailProps (mousemove (primary 200 350)) s1 in
  let s3 := step thumbnailProps (mouseup (primary 200 350)) s2 in
  thumbnailPosition s = mkPoint 0 300 /\
  Drag.startX (dragDataRef s1) = 0 /\
  5 * 5 < Euclid.sq (200 - 0) (350 - 350) /\
  s2 = s1 /\
  emitted s s3 [MouseDownCb 0 350; SetIsDragging false;
                MouseUpCb false false] /\
  thumbnailPosition s3 = mkPoint 0 300.
Proof.
  vm_compute. repeat split.
Qed.

(** ** A contact that crosses the drag threshold *)

Lemma runEffects_calls prev cur :
  exists calls,
    log (runEffects prev cur) = log cur ++ calls /\
    forall c, In c calls -> startsNoDrag c.
Proof.
  assert (Hquiet : forall s s', log s' = log s -> exists calls,
            log s' = log s ++ calls /\ forall c, In c calls -> startsNoDrag c).
  { intros s s' ->. exists []. split; [now rewrite app_nil_r | intros c []]. }
  assert (Hrefl : forall s, exists calls,
            log s = log s ++ calls /\ forall c, In c calls -> startsNoDrag c).
  { intros s. now apply Hquiet. }
  assert (Htrans : forall s1 s2 s3,
    (exists calls, log s2 = log s1 ++ calls /\
                   forall c, In c calls -> startsNoDrag c) ->
    (exists calls, log s3 = log s2 ++ calls /\
                   forall c, In c calls -> startsNoDrag c) ->
    exists calls, log s3 = log s1 ++ calls /\
                  forall c, In c calls -> startsNoDrag c).
  { intros s1 s2 s3 (l1 & H1 & Q1) (l2 & H2 & Q2). exists (l1 ++ l2). split.
    - now rewrite H2, H1, app_assoc.
    - intros c Hin. apply in_app_iff in Hin. destruct Hin; auto. }
  unfold runEffects.
  set (dc := negb (Bool.eqb (showLargePreview prev) (showLargePreview cur))).
  set (mc := negb (Bool.eqb (isMinimized prev) (isMinimized cur))).
  set (pc := negb (Point_eqb (thumbnailPosition prev) (thumbnailPosition cur))).
  set (s1 := if dc || mc then listenersCleanup cur else cur).
  assert (H1 : exists calls, log s1 = log cur ++ calls /\
                             forall c, In c calls -> startsNoDrag c).
  { subst s1. destruct (dc || mc); now apply Hquiet. }
  set (s2 := if dc || pc then disabledEffect s1 else s1).
  assert (H2 : exists calls, log s2 = log s1 ++ calls /\
                             forall c, In c calls -> startsNoDrag c).
  { subst s2. destruct (dc || pc); [|apply Hrefl]. unfold disabledEffect.
    destruct (disabled s1); [|apply Hrefl].
    destruct (Drag.isDragging (dragDataRef s1)); [|now apply Hquiet].
    exists [SetIsDragging false]. split; [reflexivity|].
    intros c [<- | []]. split; intros H; discriminate H. }
  set (s3 := if pc || mc then positionEffect s2 else s2).
  assert (H3 : exists calls, log s3 = log s2 ++ calls /\
                             forall c, In c calls -> startsNoDrag c).
  { subst s3. destruct (pc || mc); [|apply Hrefl]. unfold positionEffect.
    destruct (_ && _); [|apply Hrefl].
    eexists. split; [apply updatePosition_log|].
    intros c [<- | []]. split; intros H; discriminate H. }
  apply (Htrans cur s3);
    [exact (Htrans _ _ _ H1 (Htrans _ _ _ H2 H3))|].
  destruct dc; [|apply Hrefl].
  unfold hoverEffect, modalClosedEffect, disabled.
  destruct (showLargePreview s3) eqn:Hs; simpl; rewrite ?Hs; simpl;
    now apply Hquiet.
Qed.

Lemma render_calls prev cur :
  exists calls,
    log (render prev cur) = log cur ++ calls /\
    forall c, In c calls -> startsNoDrag c.
Proof.
  unfold render.
  destruct (runEffects_calls prev cur) as (l1 & H1 & Q1).
  destruct (runEffects_calls cur (runEffects prev cur)) as (l2 & H2 & Q2).
  exists (l1 ++ l2). split.
  - now rewrite H2, H1, app_assoc.
  - intros c Hin. apply in_app_iff in Hin. destruct Hin; auto.
Qed.

(** A move while dragging: one position update, nothing else. *)
Lemma move_while_dragging props s ev q :
  dragging s -> movePoint ev = Some q ->
  dragging (step props ev s) /\
  exists p, log (step props ev s) = log s ++ [PositionChange p].
Proof.
  intros (Hd & Hdrag & Hmoved & Hx & Hs) Hq.
  assert (Hmove : forall c cx cy,
    let d := moveTo props c cx cy s in
    dragging d /\ isMinimized s = isMinimized d /\
    exists p, log d = log s ++ [PositionChange p]).
  { intros c cx cy. unfold moveTo. rewrite Hdrag, andb_false_r, Hdrag.
    cbv zeta. split; [|split; [reflexivity | eexists; apply updatePosition_log]].
    unfold dragging, synced. simpl. rewrite !Z.sub_diag.
    repeat split; assumption. }
  apply Z.eqb_neq in Hx.
  assert (Hdis : exists c cx cy, dispatch props ev s = moveTo props c cx cy s).
  { unfold disabled in Hd.
    destruct ev; try discriminate Hq; simpl in Hq |- *; unfold disabled;
      rewrite Hd.
    - unfold handleMouseMove, disabled. rewrite Hx, Hd. simpl. eauto.
    - destruct (touches e) as [|t [|t' rest]] eqn:Ht; try discriminate Hq.
      unfold handleTouchMove, disabled. rewrite Hx, Hd, Ht. simpl. eauto. }
  destruct Hdis as (c & cx & cy & Hdis).
  destruct (Hmove c cx cy) as (Hdr & Hm & p & Hl).
  unfold step. rewrite Hdis.
  rewrite render_synced; [| exact Hd | apply Hdr | exact Hm | apply Hdr].
  split; [exact Hdr | now exists p].
Qed.

Lemma moves_while_dragging props s moves pts :
  dragging s ->
  Forall2 (fun ev p => movePoint ev = Some p) moves pts ->
  dragging (run props moves s) /\
  exists updates,
    log (run props moves s) = log s ++ map PositionChange updates.
Proof.
  intros Hdr Hmoves. revert s Hdr.
  induction Hmoves as [|ev q moves pts Hq _ IH]; intros s Hdr; simpl.
  - split; [exact Hdr|]. exists []. simpl. now rewrite app_nil_r.
  - destruct (move_while_dragging props s ev q Hdr Hq) as (Hdr1 & p & Hl1).
    destruct (IH _ Hdr1) as (Hdr2 & updates & Hl2).
    split; [exact Hdr2|]. exists (p :: updates).
    rewrite Hl2, Hl1, <- app_assoc. reflexivity.
Qed.

(** The first move beyond 5 px of an armed contact pressed at a
    non-zero [clientX]: the drag start, then the first position update. *)
Lemma move_over_threshold props s p0 ev q :
  armedAt p0 s -> fst p0 <> 0 -> movePoint ev = Some q ->
  5 * 5 < Euclid.sq (fst q - fst p0) (snd q - snd p0) ->
  dragging (step props ev s) /\
  exists p,
    log (step props ev s)
    = log s ++ SetIsDragging true
         :: (if onDragStart props then [DragStart] else [])
         ++ [PositionChange p].
Proof.
  intros (Hd & Hdrag & _ & Hx & Hy) Hnz Hq Hfar.
  apply Z.ltb_lt in Hfar. cbn [fst snd] in Hfar.
  assert (Hmove : forall c,
    let d := moveTo props c (fst q) (snd q) s in
    dragging d /\ isMinimized s = isMinimized d /\
    exists p, log d = log s ++ SetIsDragging true
                :: (if onDragStart props then [DragStart] else [])
                ++ [PositionChange p]).
  { intros c. unfold moveTo. rewrite Hx, Hy, Hfar, Hdrag. cbn [negb andb].
    destruct c, (onDragStart props); simpl;
      (split; [unfold dragging, synced, disabled; simpl; rewrite !Z.sub_diag;
               repeat split; try assumption; now rewrite Hx
              | split; [reflexivity|]; eexists;
                rewrite <- ?app_assoc; reflexivity]). }
  rewrite <- Hx in Hnz. apply Z.eqb_neq in Hnz.
  assert (Hdis : exists c, dispatch props ev s
                           = moveTo props c (fst q) (snd q) s).
  { unfold disabled in Hd.
    destruct ev; try discriminate Hq; simpl in Hq |- *; unfold disabled;
      rewrite Hd.
    - injection Hq as <-. unfold handleMouseMove, disabled.
      rewrite Hnz, Hd. simpl. eauto.
    - destruct (touches e) as [|t [|t' rest]] eqn:Ht; try discriminate Hq.
      injection Hq as <-.
      unfold handleTouchMove, disabled. rewrite Hnz, Hd, Ht. simpl. eauto. }
  destruct Hdis as (c & Hdis).
  destruct (Hmove c) as (Hdr & Hm & p & Hl).
  unfold step. rewrite Hdis.
  rewrite render_synced; [| exact Hd | apply Hdr | exact Hm | apply Hdr].
  split; [exact Hdr | now exists p].
Qed.

Lemma moves_over_threshold props s p0 moves pts :
  armedAt p0 s -> fst p0 <> 0 ->
  Forall2 (fun ev p => movePoint ev = Some p) moves pts ->
  Exists (fun q => 5 * 5 < Euclid.sq (fst q - fst p0) (snd q - snd p0)) pts ->
  dragging (run props moves s) /\
  exists p updates,
    log (run props moves s)
    = log s ++ SetIsDragging true
         :: (if onDragStart props then [DragStart] else [])
         ++ map PositionChange (p :: updates).
Proof.
  intros Harm Hnz Hmoves. induction Hmoves as [|ev q moves pts Hq Hrest IH];
    intros Hex; [inversion Hex|]. simpl.
  destruct (Z_lt_le_dec (5 * 5)
              (Euclid.sq (fst q - fst p0) (snd q - snd p0))) as [Hfar | Hnear].
  - destruct (move_over_threshold props s p0 ev q Harm Hnz Hq Hfar)
      as (Hdr & p & Hl).
    destruct (moves_while_dragging props _ moves pts Hdr Hrest)
      as (Hdr2 & updates & Hl2).
    split; [exact Hdr2|]. exists p, updates.
    rewrite Hl2, Hl. rewrite <- !app_assoc. simpl.
    rewrite <- !app_assoc. reflexivity.
  - apply Z.ltb_ge in Hnear.
    rewrite (move_below_threshold props s p0 ev q Harm Hq Hnear).
    apply IH. inversion Hex as [? ? Hhere | ? ? Hthere]; subst.
    + apply Z.ltb_ge in Hnear. lia.
    + exact Hthere.
Qed.

(** The calls of [handleMouseUp] when it ends a drag. *)
Lemma handleMouseUp_drag_log props e s :
  disabled s = false ->
  Drag.isDragging (dragDataRef s) = true ->
  exists pre,
    log (handleMouseUp props e s)
    = log s ++ SetIsDragging false :: pre
        ++ MouseUpCb true (Drag.hasMoved (dragDataRef s))
        :: (if onDragEnd props then [DragEnd] else []) /\
    forall c, In c pre -> startsNoDrag c.
Proof.
  unfold disabled. intros Hd Hdrag.
  unfold handleMouseUp, Thumbnail.handleMouseUp, disabled.
  rewrite Hdrag. cbn [negb andb].
  set (s0 := clear_styles (callSetIsDragging false
               (set_dragData (Drag.released (dragDataRef s)) s))).
  change (showLargePreview s0) with (showLargePreview s). rewrite Hd.
  cbn [negb andb]. rewrite andb_true_r.
  set (s1 := if snapToCorners props then _ else s0).
  assert (H1 : showLargePreview s1 = false /\
               exists pre, log s1 = log s ++ SetIsDragging false :: pre /\
                           forall c, In c pre -> startsNoDrag c).
  { subst s1. destruct (snapToCorners props);
      [destruct (findSnapTarget _ _ _) as [c|]|].
    - split; [exact Hd|]. eexists [PositionChange _; SnapToCorner c].
      split; [simpl; rewrite <- !app_assoc; reflexivity|].
      intros c' [<- | [<- | []]]; split; intros H; discriminate H.
    - split; [exact Hd|]. exists []. split; [reflexivity | intros c' []].
    - split; [exact Hd|]. exists []. split; [reflexivity | intros c' []]. }
  destruct H1 as (Hd1 & pre & Hl1 & Q).
  change (showLargePreview (emit (MouseUpCb true (Drag.hasMoved (dragDataRef s))) s1))
    with (showLargePreview s1).
  rewrite Hd1. exists pre. split; [|exact Q].
  destruct (onDragEnd props); simpl; rewrite Hl1, <- !app_assoc; reflexivity.
Qed.

(** A release that ends a drag: [setIsDragging(false)], possibly the
    snap calls, and the release notification with both flags true. *)
Lemma release_after_drag props s ev :
  dragging s -> isRelease ev = true ->
  exists pre post,
    log (step props ev s)
    = log s ++ SetIsDragging false :: pre ++ MouseUpCb true true :: post /\
    forall c, In c (pre ++ post) -> startsNoDrag c.
Proof.
  intros (Hd & Hdrag & Hmoved & _) Hrel.
  destruct (release_event props ev s Hd Hrel) as [e He].
  unfold step. rewrite He.
  destruct (render_calls s (handleMouseUp props e s)) as (tail & Ht & Qt).
  destruct (handleMouseUp_drag_log props e s Hd Hdrag) as (pre & Hl & Q).
  rewrite Hmoved in Hl.
  exists pre, ((if onDragEnd props then [DragEnd] else []) ++ tail). split.
  - rewrite Ht, Hl, <- !app_assoc. simpl. rewrite <- app_assoc. reflexivity.
  - intros c Hin. apply in_app_iff in Hin. destruct Hin as [Hin | Hin]; auto.
    apply in_app_iff in Hin. destruct Hin as [Hin | Hin]; auto.
    destruct (onDragEnd props); [|destruct Hin].
    destruct Hin as [<- | []]. split; intros H; discriminate H.
Qed.

(** X3.  A contact pressed at a non-zero [clientX] with a move beyond
    5 px of the press point: the calls of the whole contact are the press
    notification, one drag start ([setIsDragging(true)], then
    [onDragStart] when given), then at least one position update, and at
    the release [setIsDragging(false)] and [onMouseUp(e, true, true)];
    nothing else in the contact announces a drag start. *)
Lemma drag_starts_once props s press p0 moves pts release :
  disabled s = false ->
  pressPoint press = Some p0 ->
  fst p0 <> 0 ->
  Forall2 (fun ev p => movePoint ev = Some p) moves pts ->
  Exists (fun q => 5 * 5 < Euclid.sq (fst q - fst p0) (snd q - snd p0)) pts ->
  isRelease release = true ->
  let s3 := step props release (run props moves (step props press s)) in
  exists p updates pre post,
    emitted s s3
      (MouseDownCb (fst p0) (snd p0)
       :: SetIsDragging true
       :: (if onDragStart props then [DragStart] else [])
       ++ map PositionChange (p :: updates)
       ++ SetIsDragging false :: pre ++ MouseUpCb true true :: post) /\
    forall c, In c (map PositionChange updates ++ pre ++ post) ->
              startsNoDrag c.
Proof.
  intros Hd Hpress Hnz Hmoves Hex Hrel. cbv zeta.
  destruct (press_armed props s press p0 Hd Hpress) as (Harm & Hl1 & _).
  destruct (moves_over_threshold props _ p0 moves pts Harm Hnz Hmoves Hex)
    as (Hdr & p & updates & Hl2).
  destruct (release_after_drag props _ release Hdr Hrel)
    as (pre & post & Hl3 & Q).
  exists p, updates, pre, post. split.
  - unfold emitted. rewrite Hl3, Hl2, Hl1. rewrite <- !app_assoc. simpl.
    rewrite <- !app_assoc. reflexivity.
  - intros c Hin. apply in_app_iff in Hin. destruct Hin as [Hin | Hin].
    + apply in_map_iff in Hin. destruct Hin as (u & <- & _).
      split; intros H; discriminate H.
    + now apply Q.
Qed.

(** * Further properties *)

(** ** The snap zone indicator *)

Lemma activeZones_filter zones p :
  activeZones zones p
  = map (fun z => (z, cornerDistance2 (x p) (y p) z))
        (filter (fun z => cornerDistance2 (x p) (y p) z
                          <? snapDistance * snapDistance) zones).
Proof.
  unfold activeZones.
  assert (H : forall acc,
    fold_left
      (fun active zone =>
         let distance2 := cornerDistance2 (x p) (y p) zone in
         if distance2 <? snapDistance * snapDistance
         then active ++ [(zone, distance2)] else active) zones acc
    = acc ++ map (fun z => (z, cornerDistance2 (x p) (y p) z))
               (filter (fun z => cornerDistance2 (x p) (y p) z
                                 <? snapDistance * snapDistance) zones)).
  { induction zones as [|z zones IH]; intros acc; simpl.
    - now rewrite app_nil_r.
    - rewrite IH. destruct (_ <? _); simpl; [|reflexivity].
      now rewrite <- app_assoc. }
  apply (H []).
Qed.

(** The head of the sorted list is the first element of least distance. *)
Lemma sortByDistance_head l :
  match sortByDistance l with
  | [] => l = []
  | e :: _ =>
      exists pre post,
        l = pre ++ e :: post /\
        (forall b, In b pre -> snd e < snd b) /\
        (forall b, In b post -> snd e <= snd b)
  end.
Proof.
  induction l as [|a l IH]; simpl; [reflexivity|].
  destruct (sortByDistance l) as [|b sorted]; simpl.
  - subst l. exists [], []. repeat split; intros b [].
  - destruct IH as (pre & post & -> & Hpre & Hpost).
    destruct (snd a <=? snd b) eqn:Hab.
    + apply Z.leb_le in Hab. exists [], (pre ++ b :: post).
      split; [reflexivity|]. split; [intros c []|].
      intros c Hin. apply in_app_iff in Hin.
      destruct Hin as [Hin | [<- | Hin]].
      * specialize (Hpre c Hin). lia.
      * exact Hab.
      * specialize (Hpost c Hin). lia.
    + apply Z.leb_gt in Hab. exists (a :: pre), post.
      split; [reflexivity|]. split; [|exact Hpost].
      intros c [<- | Hin]; [exact Hab | now apply Hpre].
Qed.

Lemma filter_split {A} (f : A -> bool) l l1 c l2 :
  filter f l = l1 ++ c :: l2 ->
  exists p1 p2,
    l = p1 ++ c :: p2 /\ filter f p1 = l1 /\ filter f p2 = l2 /\ f c = true.
Proof.
  revert l1. induction l as [|a l IH]; intros l1 H; simpl in H.
  - destruct l1; discriminate H.
  - destruct (f a) eqn:Hfa.
    + destruct l1 as [|b l1]; simpl in H.
      * injection H as -> <-. exists [], l. now repeat split.
      * injection H as -> H. destruct (IH l1 H) as (p1 & p2 & -> & H1 & H2 & Hc).
        exists (b :: p1), p2. simpl. rewrite Hfa, H1. now repeat split.
    + destruct (IH l1 H) as (p1 & p2 & -> & H1 & H2 & Hc).
      exists (a :: p1), p2. simpl. rewrite Hfa. now repeat split.
Qed.

Lemma map_split {A B} (g : A -> B) l l1 e l2 :
  map g l = l1 ++ e :: l2 ->
  exists p1 c p2, l = p1 ++ c :: p2 /\ map g p1 = l1 /\ g c = e /\ map g p2 = l2.
Proof.
  revert l1. induction l as [|a l IH]; intros l1 H; simpl in H.
  - destruct l1; discriminate H.
  - destruct l1 as [|b l1]; simpl in H.
    + injection H as <- <-. exists [], a, l. now repeat split.
    + injection H as <- H. destruct (IH l1 H) as (p1 & c & p2 & -> & H1 & Hc & H2).
      exists (a :: p1), c, p2. simpl. rewrite H1. now repeat split.
Qed.

(** At most one position of a list holds the nearest corner. *)
Lemma nearestBelow_unique cx cy cs c c' :
  nearestBelow cx cy cs c -> nearestBelow cx cy cs c' -> c = c'.
Proof.
  intros (pre & post & Hl & _ & Hpre & Hpost)
         (pre' & post' & Hl' & _ & Hpre' & Hpost').
  rewrite Hl in Hl'. clear Hl. revert pre' Hl' Hpre'.
  induction pre as [|a pre IH]; intros pre' Hl' Hpre'.
  - destruct pre' as [|a' pre']; simpl in Hl'.
    + now injection Hl'.
    + injection Hl' as <- Hpost_eq.
      assert (Hin : In c' post) by (rewrite Hpost_eq; apply in_app_iff; right; now left).
      specialize (Hpost c' Hin). specialize (Hpre' c (or_introl eq_refl)).
      exfalso. lia.
  - destruct pre' as [|a' pre']; simpl in Hl'.
    + injection Hl' as -> Hpost_eq.
      assert (Hin : In c post') by (rewrite <- Hpost_eq; apply in_app_iff; right; now left).
      specialize (Hpost' c Hin). specialize (Hpre c' (or_introl eq_refl)).
      exfalso. lia.
    + injection Hl' as <- Hrest. apply (IH (fun b Hb => Hpre b (or_intror Hb)) pre' Hrest).
      intros b Hb. apply Hpre'. now right.
Qed.

Lemma indicator_nearest zones p :
  match SnapZoneIndicator zones p true with
  | Some c => nearestBelow (x p) (y p) zones c
  | None => forall c, In c zones ->
              snapDistance * snapDistance <= cornerDistance2 (x p) (y p) c
  end.
Proof.
  unfold SnapZoneIndicator. simpl.
  pose proof (sortByDistance_head (activeZones zones p)) as H.
  rewrite activeZones_filter in *.
  destruct (sortByDistance _) as [|e sorted].
  - intros c Hin.
    destruct (cornerDistance2 (x p) (y p) c <? snapDistance * snapDistance)
      eqn:Hc; [|now apply Z.ltb_ge].
    assert (Hf : In c (filter (fun z => cornerDistance2 (x p) (y p) z
                                 <? snapDistance * snapDistance) zones))
      by (apply filter_In; now split).
    apply (in_map (fun z => (z, cornerDistance2 (x p) (y p) z))) in Hf.
    rewrite H in Hf. destruct Hf.
  - destruct H as (pre & post & Hl & Hpre & Hpost).
    apply map_split in Hl.
    destruct Hl as (f1 & c & f2 & Hf & <- & <- & <-).
    apply filter_split in Hf.
    destruct Hf as (p1 & p2 & -> & <- & <- & Hc).
    apply Z.ltb_lt in Hc. cbn [fst snd] in *.
    exists p1, p2. split; [reflexivity|]. split; [exact Hc|].
    change (snapDistance * snapDistance) with 10000 in *. split.
    + intros c' Hin.
      destruct (cornerDistance2 (x p) (y p) c' <? 10000) eqn:Hc'.
      * apply (Hpre (c', cornerDistance2 (x p) (y p) c')).
        apply (in_map (fun z => (z, cornerDistance2 (x p) (y p) z))).
        apply filter_In. now split.
      * apply Z.ltb_ge in Hc'. lia.
    + intros c' Hin.
      destruct (cornerDistance2 (x p) (y p) c' <? 10000) eqn:Hc'.
      * apply (Hpost (c', cornerDistance2 (x p) (y p) c')).
        apply (in_map (fun z => (z, cornerDistance2 (x p) (y p) z))).
        apply filter_In. now split.
      * apply Z.ltb_ge in Hc'. lia.
Qed.

(** X1.  The zone the indicator highlights while dragging is the corner
    the release would snap to: for the same zones and the same position,
    [SnapZoneIndicator] shows exactly what the corner search of
    [handleMouseUp] returns (nothing when no corner is within 100 px), and
    it shows nothing when not dragging.  The zones the host memoizes for a
    viewport and size mode are the corners [handleMouseUp] builds for
    them. *)
Theorem indicator_shows_snap_target zones p :
  SnapZoneIndicator zones p true = findSnapTarget (x p) (y p) zones /\
  SnapZoneIndicator zones p false = None /\
  (forall W H minimized, snapZones W H minimized = corners W H minimized).
Proof.
  split; [|split; reflexivity].
  pose proof (indicator_nearest zones p) as Hi.
  pose proof (findSnapTarget_spec (x p) (y p) zones) as Hf.
  destruct (SnapZoneIndicator zones p true) as [c|],
           (findSnapTarget (x p) (y p) zones) as [c'|].
  - f_equal. eapply nearestBelow_unique; eassumption.
  - apply nearestBelow_In in Hi as Hin. specialize (Hf c Hin).
    destruct Hi as (_ & _ & _ & Hlt & _). lia.
  - apply nearestBelow_In in Hf as Hin. specialize (Hi c' Hin).
    destruct Hf as (_ & _ & _ & Hlt & _). lia.
  - reflexivity.
Qed.

(** ** Corners far apart *)

Lemma sq_below_100 dx dy :
  Euclid.sq dx dy < 100 * 100 -> -100 < dx < 100 /\ -100 < dy < 100.
Proof. unfold Euclid.sq. intros H. nia. Qed.

(** X2.  In a viewport at least 540 px wide and 220 px higher than the
    thumbnail, the four corners are at least 200 px apart, so at most one
    of them is within the 100 px snap distance of any point: whichever
    corner is within reach is the one the search returns, and the
    tie-break of the loop never applies. *)
Theorem corner_in_reach_is_target W H minimized cx cy c :
  540 <= W ->
  elementHeight minimized + 220 <= H ->
  In c (corners W H minimized) ->
  cornerDistance2 cx cy c < snapDistance * snapDistance ->
  findSnapTarget cx cy (corners W H minimized) = Some c.
Proof.
  intros HW HH Hin Hc.
  assert (Hone : forall c', In c' (corners W H minimized) ->
            cornerDistance2 cx cy c' < snapDistance * snapDistance -> c' = c).
  { intros c' Hin' Hc'. unfold corners, margin in Hin, Hin'.
    change (snapDistance * snapDistance) with (100 * 100) in *.
    unfold cornerDistance2 in Hc, Hc'.
    apply sq_below_100 in Hc, Hc'.
    simpl in Hin, Hin'.
    destruct Hin as [<- | [<- | [<- | [<- | []]]]];
      destruct Hin' as [<- | [<- | [<- | [<- | []]]]];
      try reflexivity; exfalso; simpl in Hc, Hc'; lia. }
  pose proof (findSnapTarget_spec cx cy (corners W H minimized)) as Hspec.
  destruct (findSnapTarget cx cy (corners W H minimized)) as [c0|].
  - f_equal. apply Hone.
    + now apply (nearestBelow_In cx cy).
    + now destruct Hspec as (_ & _ & _ & Hlt & _).
  - specialize (Hspec c Hin). lia.
Qed.

Lemma corner_in_reach_is_target_witness :
  findSnapTarget 650 30 (corners 1000 800 false)
  = Some (mkCorner 670 10 top_right).
Proof.
  apply corner_in_reach_is_target.
  - lia.
  - simpl. lia.
  - right. left. reflexivity.
  - vm_compute. reflexivity.
Defined.

(** ** Drag start: a concrete contact *)

Lemma drag_starts_once_witness :
  let s := initial 1000 800 in
  let s3 := step thumbnailProps (mouseup (primary 230 230))
              (run thumbnailProps [mousemove (primary 230 230)]
                 (step thumbnailProps
                    (mousedown (primary 100 100) (mkPoint 20 20)) s)) in
  exists p updates pre post,
    emitted s s3
      (MouseDownCb 100 100
       :: SetIsDragging true
       :: map PositionChange (p :: updates)
       ++ SetIsDragging false :: pre ++ MouseUpCb true true :: post) /\
    forall c, In c (map PositionChange updates ++ pre ++ post) ->
              startsNoDrag c.
Proof.
  apply (drag_starts_once thumbnailProps (initial 1000 800)
           (mousedown (primary 100 100) (mkPoint 20 20)) (100, 100)
           [mousemove (primary 230 230)] [(230, 230)]
           (mouseup (primary 230 230))).
  - reflexivity.
  - reflexivity.
  - simpl. lia.
  - repeat constructor.
  - apply Exists_cons_hd. vm_compute. reflexivity.
  - reflexivity.
Defined.

(** ** Resize *)

(** X4.  A resize event moves the thumbnail only when it has to: when
    the committed position exceeds the new maximum on an axis, its clamp
    for the new viewport is committed; otherwise the event changes nothing
    but the viewport, and no callback is called. *)
Theorem resize_policy props s w h :
  (w - elementWidth < x (thumbnailPosition s) \/
   h - elementHeight (isMinimized s) < y (thumbnailPosition s) ->
   thumbnailPosition (step props (resize w h) s)
   = clamp (thumbnailPosition s) elementWidth
           (elementHeight (isMinimized s)) w h) /\
  (x (thumbnailPosition s) <= w - elementWidth ->
   y (thumbnailPosition s) <= h - elementHeight (isMinimized s) ->
   step props (resize w h) s = set_window w h s).
Proof.
  split; [apply resize_reflows|].
  intros Hx Hy. unfold step. simpl.
  assert (Hd : handleResize (set_window w h s) = set_window w h s).
  { unfold handleResize. simpl. unfold elementWidth in Hx.
    apply Z.ltb_ge in Hx, Hy. now rewrite Hx, Hy. }
  rewrite Hd. now apply render_same.
Qed.

Lemma resize_policy_witness :
  let s := dragged 1000 800 (100, 100) (730, 400) in
  thumbnailPosition s = mkPoint 650 320 /\
  thumbnailPosition (step thumbnailProps (resize 800 400) s)
  = mkPoint 480 220 /\
  step thumbnailProps (resize 1200 900) s = set_window 1200 900 s.
Proof.
  cbv zeta.
  assert (Hp : thumbnailPosition (dragged 1000 800 (100, 100) (730, 400))
               = mkPoint 650 320) by (vm_compute; reflexivity).
  assert (Hm : isMinimized (dragged 1000 800 (100, 100) (730, 400)) = false)
    by (vm_compute; reflexivity).
  destruct (resize_policy thumbnailProps
              (dragged 1000 800 (100, 100) (730, 400)) 800 400) as [H1 _].
  destruct (resize_policy thumbnailProps
              (dragged 1000 800 (100, 100) (730, 400)) 1200 900) as [_ H2].
  rewrite Hp, Hm in H1, H2.
  split; [exact Hp|]. split.
  - rewrite H1; [reflexivity|]. left. simpl. unfold elementWidth. lia.
  - apply H2; simpl; unfold elementWidth; lia.
Defined.

(** ** The modal and the engine *)

(** X5.  While the modal is open the thumbnail is inert: a press, move
    or release of mouse or touch, hovering, and a click on the minimize,
    expand or fullscreen button each leave the whole state as it is and
    call nothing. *)
Theorem modal_blocks_pointer props s ev :
  disabled s = true -> isPointerInput ev = true ->
  step props ev s = s.
Proof.
  intros Hd Hev. unfold step.
  assert (H : dispatch props ev s = s).
  { destruct ev; try discriminate Hev; simpl; rewrite ?Hd; try reflexivity.
    - unfold handleMouseDown. rewrite Hd. now rewrite orb_true_r.
    - unfold handleTouchStart. rewrite Hd. now rewrite orb_true_r.
    - now rewrite andb_false_r.
    - now rewrite andb_false_r. }
  rewrite H. now apply render_same.
Qed.

Lemma modal_blocks_pointer_witness :
  let s := step thumbnailProps click_fullscreen (initial 1000 800) in
  step thumbnailProps (mousedown (primary 100 100) (mkPoint 20 20)) s = s /\
  step thumbnailProps click_minimize s = s.
Proof.
  cbv zeta. split; apply modal_blocks_pointer; reflexivity.
Defined.

Lemma runEffects_calm prev cur : calm cur -> calm (runEffects prev cur).
Proof.
  intros H. unfold runEffects.
  set (dc := negb (Bool.eqb (showLargePreview prev) (showLargePreview cur))).
  set (mc := negb (Bool.eqb (isMinimized prev) (isMinimized cur))).
  set (pc := negb (Point_eqb (thumbnailPosition prev) (thumbnailPosition cur))).
  set (s1 := if dc || mc then listenersCleanup cur else cur).
  assert (H1 : calm s1).
  { subst s1. destruct (dc || mc); [|exact H].
    destruct H as ((Hdrag & Hx) & Hm & Hd & _).
    repeat split; assumption. }
  set (s2 := if dc || pc then disabledEffect s1 else s1).
  assert (H2 : calm s2).
  { subst s2. destruct (dc || pc); [|exact H1]. unfold disabledEffect.
    destruct (disabled s1); [|exact H1].
    destruct H1 as ((Hdrag & Hx) & Hm & Hd & Hc & Hu).
    rewrite Hdrag. repeat split; assumption. }
  set (s3 := if pc || mc then positionEffect s2 else s2).
  assert (H3 : calm s3).
  { subst s3. destruct (pc || mc); [|exact H2]. unfold positionEffect.
    destruct (_ && _); [|exact H2]. exact H2. }
  destruct dc; [|exact H3].
  unfold hoverEffect, modalClosedEffect, disabled.
  destruct H3 as ((Hdrag & Hx) & Hm & Hd & Hc & Hu).
  destruct (showLargePreview s3) eqn:Hs; simpl; rewrite ?Hs; simpl;
    repeat split; assumption.
Qed.

Lemma handleMouseUp_calm props e s :
  disabled s = false -> calm (handleMouseUp props e s).
Proof.
  unfold disabled. intros Hd.
  unfold handleMouseUp, Thumbnail.handleMouseUp, disabled, emit_opt, calm, idle.
  simpl. rewrite Hd. simpl.
  destruct (Drag.isDragging (dragDataRef s) && snapToCorners props);
    [destruct (findSnapTarget _ _ _)|]; simpl; rewrite ?Hd; simpl;
    repeat match goal with
      | |- context [if ?b then _ else _] => destruct b; simpl
      | |- context [match eventClient e with _ => _ end] =>
          destruct (eventClient e) as [[? ?]|]; simpl
      end;
    repeat split.
Qed.

(** X11.  Every release handled by the engine, of mouse or touch, drag
    or click, snapped or not, leaves no trace of the gesture: the record's
    flags and start point are reset, the host's dragging flag is false,
    and the body cursor and text-selection styles are cleared. *)
Theorem release_resets props s ev :
  disabled s = false -> isRelease ev = true ->
  calm (step props ev s).
Proof.
  intros Hd Hrel.
  destruct (release_event props ev s Hd Hrel) as [e He].
  unfold step, render. rewrite He.
  apply runEffects_calm, runEffects_calm. now apply handleMouseUp_calm.
Qed.

Lemma release_resets_witness :
  calm (step thumbnailProps (touchend (fingers []))
          (dragged 1000 800 (100, 100) (230, 230))).
Proof.
  apply release_resets; [vm_compute|]; reflexivity.
Defined.

(** X7.  Closing the modal, by Escape or by its close button, always
    ends with the modal closed, the dragging and hover flags false and the
    body cursor and text-selection styles cleared, whatever the state the
    modal was opened in. *)
Theorem close_cleans_up props s ev :
  showLargePreview s = true -> closesPreview ev = true ->
  let s' := step props ev s in
  showLargePreview s' = false /\
  isDragging s' = false /\
  isHovered s' = false /\
  cursor s' = cursor_unset /\
  userSelect s' = select_unset.
Proof.
  intros Hopen Hclose. cbv zeta. unfold step.
  set (d := dispatch props ev s).
  assert (Hd : showLargePreview d = false /\ isMinimized d = isMinimized s).
  { subst d. destruct ev; try discriminate Hclose; simpl.
    - destruct key; try discriminate Hclose. unfold handleKeyDown.
      rewrite Hopen. now split.
    - now split. }
  destruct Hd as [Hd Hm].
  assert (H1 : let s1 := runEffects s d in
               showLargePreview s1 = false /\ isDragging s1 = false /\
               isHovered s1 = false /\ cursor s1 = cursor_unset /\
               userSelect s1 = select_unset).
  { unfold runEffects. rewrite Hopen, Hd. cbn [Bool.eqb negb orb].
    set (pcmc := _ || _).
    set (s2 := disabledEffect (listenersCleanup d)).
    assert (Hs2 : showLargePreview s2 = false).
    { subst s2. unfold disabledEffect, listenersCleanup, disabled. simpl.
      now rewrite Hd. }
    set (s3 := if pcmc then positionEffect s2 else s2).
    assert (Hs3 : showLargePreview s3 = false).
    { subst s3. destruct pcmc; [|exact Hs2]. unfold positionEffect.
      destruct (_ && _); exact Hs2. }
    unfold hoverEffect, modalClosedEffect, disabled. rewrite Hs3. simpl.
    rewrite Hs3. simpl. now repeat split. }
  cbv zeta in H1. destruct H1 as (Hs1 & Hi1 & Hh1 & Hc1 & Hu1).
  unfold render. set (s1 := runEffects s d) in *.
  unfold runEffects. rewrite Hd, Hs1.
  destruct (runEffects_facts s d) as (_ & Hm1 & _). fold s1 in Hm1.
  rewrite Hm1, !Bool.eqb_reflx. cbn [negb orb].
  assert (Hde : disabledEffect s1 = s1)
    by (unfold disabledEffect, disabled; now rewrite Hs1).
  destruct (negb _); [|now repeat split].
  rewrite Hde. unfold positionEffect.
  destruct (_ && _); now repeat split.
Qed.

Lemma close_cleans_up_witness :
  let s := step thumbnailProps click_fullscreen
             (dragged 1000 800 (100, 100) (230, 230)) in
  let s' := step thumbnailProps (keydown Escape false) s in
  showLargePreview s' = false /\
  isDragging s' = false /\
  isHovered s' = false /\
  cursor s' = cursor_unset /\
  userSelect s' = select_unset.
Proof.
  apply close_cleans_up; [vm_compute|]; reflexivity.
Defined.

Lemma modalInvariant_frame s d :
  dragDataRef d = dragDataRef s -> isDragging d = isDragging s ->
  showLargePreview d = showLargePreview s -> isHovered d = isHovered s ->
  cursor d = cursor s -> userSelect d = userSelect s ->
  modalInvariant s -> modalInvariant d.
Proof.
  unfold modalInvariant, idle, disabled. intros -> -> -> -> -> ->.
  exact (fun H => H).
Qed.

Lemma updatePosition_modal px py s :
  modalInvariant s -> modalInvariant (updatePosition px py s).
Proof.
  unfold modalInvariant, idle, disabled. simpl. exact (fun H => H).
Qed.

Lemma cleanup_modal s : modalInvariant s -> modalInvariant (listenersCleanup s).
Proof.
  unfold modalInvariant, idle, disabled. simpl. intros [H1 H2].
  split; [exact H1|]. intros Hd. destruct (H2 Hd) as (Hi & Hh & _).
  now repeat split.
Qed.

Lemma disabledEffect_modal s :
  modalInvariant s -> modalInvariant (disabledEffect s).
Proof.
  intros H. unfold disabledEffect. destruct (disabled s) eqn:Hd; [|exact H].
  destruct H as [_ H2]. destruct (H2 Hd) as ((Hdrag & _) & Hh & _).
  rewrite Hdrag. unfold modalInvariant, idle, disabled. simpl.
  split; [intros Hf; discriminate Hf|]. intros _. now repeat split.
Qed.

Lemma positionEffect_modal s :
  modalInvariant s -> modalInvariant (positionEffect s).
Proof.
  intros H. unfold positionEffect.
  destruct (_ && _); [now apply updatePosition_modal | exact H].
Qed.

Lemma runEffects_modal prev cur :
  (showLargePreview prev = showLargePreview cur -> modalInvariant cur) ->
  (showLargePreview prev = true -> idle cur) ->
  modalInvariant (runEffects prev cur).
Proof.
  intros Hsame Hclosing. unfold runEffects.
  destruct (Bool.eqb (showLargePreview prev) (showLargePreview cur)) eqn:Hdc;
    cbn [negb orb].
  - apply Bool.eqb_prop in Hdc. specialize (Hsame Hdc).
    set (mc := negb (Bool.eqb (isMinimized prev) (isMinimized cur))).
    set (pc := negb (Point_eqb (thumbnailPosition prev)
                               (thumbnailPosition cur))).
    set (s1 := if mc then listenersCleanup cur else cur).
    assert (H1 : modalInvariant s1).
    { subst s1. destruct mc; [now apply cleanup_modal | exact Hsame]. }
    set (s2 := if pc then disabledEffect s1 else s1).
    assert (H2 : modalInvariant s2).
    { subst s2. destruct pc; [now apply disabledEffect_modal | exact H1]. }
    destruct (pc || mc); [now apply positionEffect_modal | exact H2].
  - set (s2 := disabledEffect (listenersCleanup cur)).
    set (pcmc := _ || _).
    set (s3 := if pcmc then positionEffect s2 else s2).
    destruct (showLargePreview cur) eqn:Hcur.
    + (* the modal opens *)
      assert (H2 : idle s2 /\ cursor s2 = cursor_unset /\
                   userSelect s2 = select_unset /\
                   showLargePreview s2 = true).
      { subst s2. unfold disabledEffect, listenersCleanup, disabled. simpl.
        rewrite Hcur.
        destruct (Drag.isDragging (dragDataRef cur)); simpl;
          repeat split; exact Hcur. }
      assert (H3 : idle s3 /\ cursor s3 = cursor_unset /\
                   userSelect s3 = select_unset /\
                   showLargePreview s3 = true).
      { subst s3. destruct pcmc; [|exact H2]. unfold positionEffect.
        destruct (_ && _); exact H2. }
      destruct H3 as ((Hdrag & Hx) & Hc & Hu & Hs).
      unfold hoverEffect, modalClosedEffect, disabled. rewrite Hs. simpl.
      rewrite Hs. simpl. unfold modalInvariant, idle, disabled. simpl.
      split; [rewrite Hdrag; intros Hf; discriminate Hf|].
      intros _. repeat split; assumption.
    + (* the modal closes *)
      assert (Hprev : showLargePreview prev = true)
        by (destruct (showLargePreview prev); [reflexivity | discriminate Hdc]).
      specialize (Hclosing Hprev).
      assert (H2 : idle s2 /\ showLargePreview s2 = false).
      { subst s2. unfold disabledEffect, listenersCleanup, disabled. simpl.
        rewrite Hcur. split; [exact Hclosing | exact Hcur]. }
      assert (H3 : idle s3 /\ showLargePreview s3 = false).
      { subst s3. destruct pcmc; [|exact H2]. unfold positionEffect.
        destruct (_ && _); exact H2. }
      destruct H3 as ((Hdrag & Hx) & Hs).
      unfold hoverEffect, modalClosedEffect, disabled. rewrite Hs. simpl.
      rewrite Hs. simpl. unfold modalInvariant, idle, disabled. simpl.
      split; [rewrite Hdrag; intros Hf; discriminate Hf|].
      rewrite Hs. intros Hf. discriminate Hf.
Qed.

Lemma moveTo_modal props c cx cy s :
  modalInvariant s -> disabled s = false ->
  modalInvariant (moveTo props c cx cy s).
Proof.
  intros Hinv Hd. unfold moveTo.
  destruct (_ && _).
  - unfold modalInvariant, idle, disabled in *.
    destruct c, (onDragStart props); simpl;
      (split; [reflexivity | rewrite Hd; intros Hf; discriminate Hf]).
  - destruct (Drag.isDragging (dragDataRef s));
      [apply updatePosition_modal|]; exact Hinv.
Qed.

Lemma calm_modal s : calm s -> disabled s = false -> modalInvariant s.
Proof.
  intros ((Hdrag & _) & _) Hd. split.
  - rewrite Hdrag. intros Hf. discriminate Hf.
  - rewrite Hd. intros Hf. discriminate Hf.
Qed.

Lemma dispatch_modal props ev s :
  modalInvariant s ->
  (showLargePreview (dispatch props ev s) = showLargePreview s ->
   modalInvariant (dispatch props ev s)) /\
  (showLargePreview s = true -> idle (dispatch props ev s)).
Proof.
  intros Hinv.
  assert (Hidle : showLargePreview s = true -> idle s).
  { intros Hs. now apply (proj2 Hinv). }
  assert (Hrel : forall e,
    disabled s = false ->
    showLargePreview (handleMouseUp props e s) = showLargePreview s ->
    modalInvariant (handleMouseUp props e s)).
  { intros e Hd Hs. apply calm_modal; [now apply handleMouseUp_calm|].
    unfold disabled in *. now rewrite Hs. }
  destruct ev; simpl; unfold disabled in *.
  - unfold handleMouseDown, Thumbnail.handleMouseDown, disabled.
    destruct (negb (button e =? 0) || showLargePreview s) eqn:Hg;
      [split; [intros _; exact Hinv | exact Hidle]|].
    apply orb_false_iff in Hg. destruct Hg as [_ Hd].
    destruct (onControl e); [split; [intros _; exact Hinv | exact Hidle]|].
    simpl. rewrite Hd. split.
    + intros _. unfold modalInvariant, idle, disabled. simpl. rewrite ?Hd.
      split; intros Hf; discriminate Hf.
    + intros Hf. discriminate Hf.
  - destruct (showLargePreview s) eqn:Hd; [split; [intros _; exact Hinv | exact Hidle]|].
    split; [|intros Hf; discriminate Hf].
    intros _. unfold handleMouseMove.
    destruct (_ || _); [exact Hinv | now apply moveTo_modal].
  - destruct (showLargePreview s) eqn:Hd; [split; [intros _; exact Hinv | exact Hidle]|].
    split; [now apply Hrel|].
    intros Hf; discriminate Hf.
  - unfold handleTouchStart, Thumbnail.handleMouseDown, disabled.
    destruct (negb (length (touches e) =? 1)%nat || showLargePreview s) eqn:Hg;
      [split; [intros _; exact Hinv | exact Hidle]|].
    apply orb_false_iff in Hg. destruct Hg as [_ Hd].
    destruct (touch_onControl e); [split; [intros _; exact Hinv | exact Hidle]|].
    destruct (touches e); [split; [intros _; exact Hinv | exact Hidle]|].
    simpl. rewrite Hd. split.
    + intros _. unfold modalInvariant, idle, disabled. simpl. rewrite ?Hd.
      split; intros Hf; discriminate Hf.
    + intros Hf. discriminate Hf.
  - destruct (showLargePreview s) eqn:Hd; [split; [intros _; exact Hinv | exact Hidle]|].
    split; [|intros Hf; discriminate Hf].
    intros _. unfold handleTouchMove.
    destruct (_ || _); [exact Hinv|].
    destruct (touches e); [exact Hinv | now apply moveTo_modal].
  - destruct (showLargePreview s) eqn:Hd; [split; [intros _; exact Hinv | exact Hidle]|].
    split; [now apply Hrel|].
    intros Hf; discriminate Hf.
  - unfold handleKeyDown. split.
    + intros Hs. revert Hs.
      destruct (showLargePreview s) eqn:Hopen, key, ctrlKey; simpl;
        intros Hs; try discriminate Hs;
        (apply (modalInvariant_frame s); [reflexivity .. | exact Hinv]);
        simpl; now rewrite ?Hopen.
    + intros Hs. specialize (Hidle Hs). rewrite Hs.
      destruct key, ctrlKey; exact Hidle.
  - split; [intros _|intros Hs; specialize (Hidle Hs)];
      unfold handleResize; simpl; destruct (_ || _); try exact Hidle;
      now apply (modalInvariant_frame s).
  - destruct (negb (isDragging s) && negb (showLargePreview s)) eqn:Hg;
      [|split; [intros _; exact Hinv | exact Hidle]].
    apply andb_true_iff in Hg. destruct Hg as [_ Hd].
    apply negb_true_iff in Hd. split.
    + intros _. destruct Hinv as [H1 H2]. split; [exact H1|].
      unfold disabled. simpl. rewrite Hd. intros Hf. discriminate Hf.
    + rewrite Hd. intros Hf. discriminate Hf.
  - destruct (negb (isDragging s) && negb (showLargePreview s)) eqn:Hg;
      [|split; [intros _; exact Hinv | exact Hidle]].
    apply andb_true_iff in Hg. destruct Hg as [_ Hd].
    apply negb_true_iff in Hd. split.
    + intros _. destruct Hinv as [H1 H2]. split; [exact H1|].
      unfold disabled. simpl. rewrite Hd. intros Hf. discriminate Hf.
    + rewrite Hd. intros Hf. discriminate Hf.
  - destruct (showLargePreview s); split; try exact Hidle; intros _;
      [exact Hinv | now apply (modalInvariant_frame s)].
  - destruct (showLargePreview s); split; try exact Hidle; intros _;
      [exact Hinv | now apply (modalInvariant_frame s)].
  - destruct (showLargePreview s) eqn:Hd; [split; [intros _; exact Hinv | exact Hidle]|].
    simpl. split; intros Hf; discriminate Hf.
  - split; [|exact Hidle]. simpl. intros Hs.
    apply (modalInvariant_frame s); try reflexivity; [|exact Hinv].
    simpl. now rewrite Hs.
  - destruct (pendingOpen s); [split; [intros _; exact Hinv | exact Hidle]|].
    split; [|exact Hidle]. simpl. intros Hs.
    apply (modalInvariant_frame s); try reflexivity; [|exact Hinv].
    simpl. now rewrite Hs.
Qed.

Lemma step_modal props ev s :
  modalInvariant s -> modalInvariant (step props ev s).
Proof.
  intros Hinv. unfold step, render.
  destruct (dispatch_modal props ev s Hinv) as [Hsame Hclosing].
  assert (H1 : modalInvariant (runEffects s (dispatch props ev s))).
  { apply runEffects_modal.
    - intros Hs. apply Hsame. now symmetry.
    - exact Hclosing. }
  apply runEffects_modal.
  - intros _. exact H1.
  - intros Hs. destruct (runEffects_facts s (dispatch props ev s)) as (Hs1 & _).
    apply (proj2 H1). unfold disabled. now rewrite Hs1.
Qed.

(** X6.  In every reachable state: whenever the gesture record says
    dragging, the host's dragging flag is set and the modal is closed; and
    whenever the modal is open, the gesture record is reset (not dragging,
    no start point), the hover flag is false and the body cursor and
    text-selection styles are cleared. *)
Theorem modal_finds_engine_at_rest props s :
  reachable props s ->
  (Drag.isDragging (dragDataRef s) = true ->
   isDragging s = true /\ showLargePreview s = false) /\
  (showLargePreview s = true ->
   Drag.isDragging (dragDataRef s) = false /\
   Drag.startX (dragDataRef s) = 0 /\
   isHovered s = false /\
   cursor s = cursor_unset /\
   userSelect s = select_unset).
Proof.
  intros Hr.
  assert (Hinv : modalInvariant s).
  { induction Hr as [w h Hw Hh | ev s Hr IH].
    - split; intros Hf; discriminate Hf.
    - now apply step_modal. }
  destruct Hinv as [H1 H2]. unfold disabled, idle in H2. split.
  - intros Hdrag. split; [now apply H1|].
    destruct (showLargePreview s); [|reflexivity].
    destruct (H2 eq_refl) as ((Hf & _) & _). rewrite Hdrag in Hf.
    discriminate Hf.
  - intros Hs. destruct (H2 Hs) as ((Ha & Hb) & Hc & Hd & He).
    repeat split; assumption.
Qed.

Lemma modal_finds_engine_at_rest_witness :
  let s := run thumbnailProps
             [mousedown (primary 100 100) (mkPoint 20 20);
              mousemove (primary 230 230);
              click_fullscreen] (initial 1000 800) in
  (Drag.isDragging (dragDataRef s) = true ->
   isDragging s = true /\ showLargePreview s = false) /\
  (showLargePreview s = true ->
   Drag.isDragging (dragDataRef s) = false /\
   Drag.startX (dragDataRef s) = 0 /\
   isHovered s = false /\
   cursor s = cursor_unset /\
   userSelect s = select_unset).
Proof.
  apply (modal_finds_engine_at_rest thumbnailProps).
  apply reachable_run, reachable_initial; lia.
Defined.

(** ** Clicks *)

Lemma thumbnail_handleMouseUp_pendingOpen e was moved t :
  let t' := Thumbnail.handleMouseUp e was moved t in
  showLargePreview t' = showLargePreview t /\
  isMinimized t' = isMinimized t /\
  pendingOpen t'
  = if negb (disabled t) && negb was && negb moved && negb (eventOnControl e)
       && match eventClient e with
          | Some (cx, cy) =>
              (eventNow e - Click.startTime (clickDataRef t) <? 500)
              && (Euclid.sq (cx - Click.startX (clickDataRef t))
                            (cy - Click.startY (clickDataRef t)) <? 10 * 10)
          | None => false
          end
    then S (pendingOpen t) else pendingOpen t.
Proof.
  cbv zeta. unfold Thumbnail.handleMouseUp.
  destruct (disabled t); [now repeat split|]. cbn [negb andb].
  destruct (negb was && negb moved && negb (eventOnControl e));
    [|now repeat split]. cbn [andb].
  destruct (eventClient e) as [[cx cy]|]; [|now repeat split].
  destruct (_ && _); now repeat split.
Qed.

Lemma handleMouseUp_pendingOpen props e s :
  showLargePreview (handleMouseUp props e s) = showLargePreview s /\
  isMinimized (handleMouseUp props e s) = isMinimized s /\
  pendingOpen (handleMouseUp props e s)
  = if genuineClick e s then S (pendingOpen s) else pendingOpen s.
Proof.
  unfold handleMouseUp, genuineClick.
  set (was := Drag.isDragging (dragDataRef s)).
  set (moved := Drag.hasMoved (dragDataRef s)).
  set (s0 := clear_styles (callSetIsDragging false
               (set_dragData (Drag.released (dragDataRef s)) s))).
  change (disabled s0) with (disabled s).
  set (s1 := if was && snapToCorners props && negb (disabled s)
             then _ else s0).
  assert (H1 : showLargePreview s1 = showLargePreview s /\
               isMinimized s1 = isMinimized s /\
               pendingOpen s1 = pendingOpen s /\
               clickDataRef s1 = clickDataRef s).
  { subst s1. destruct (was && snapToCorners props && negb (disabled s));
      [destruct (findSnapTarget _ _ _)|]; now repeat split. }
  destruct H1 as (Hs1 & Hm1 & Hp1 & Hc1).
  assert (Hd1 : disabled s1 = disabled s) by exact Hs1.
  rewrite Hd1.
  set (s2 := if negb (disabled s) then _ else s1).
  assert (H2 : showLargePreview s2 = showLargePreview s /\
               isMinimized s2 = isMinimized s /\
               pendingOpen s2
               = if negb (disabled s) && negb was && negb moved
                    && negb (eventOnControl e)
                    && match eventClient e with
                       | Some (cx, cy) =>
                           (eventNow e - Click.startTime (clickDataRef s)
                            <? 500)
                           && (Euclid.sq
                                 (cx - Click.startX (clickDataRef s))
                                 (cy - Click.startY (clickDataRef s))
                               <? 10 * 10)
                       | None => false
                       end
                 then S (pendingOpen s) else pendingOpen s).
  { subst s2. destruct (disabled s) eqn:Hd; cbn [negb andb].
    - now repeat split.
    - pose proof (thumbnail_handleMouseUp_pendingOpen e was moved
                    (emit (MouseUpCb was moved) s1)) as H.
      cbv zeta in H.
      change (disabled (emit (MouseUpCb was moved) s1))
        with (disabled s1) in H.
      change (clickDataRef (emit (MouseUpCb was moved) s1))
        with (clickDataRef s1) in H.
      change (pendingOpen (emit (MouseUpCb was moved) s1))
        with (pendingOpen s1) in H.
      change (showLargePreview (emit (MouseUpCb was moved) s1))
        with (showLargePreview s1) in H.
      change (isMinimized (emit (MouseUpCb was moved) s1))
        with (isMinimized s1) in H.
      rewrite Hd1, Hc1, Hp1, Hs1, Hm1 in H. exact H. }
  destruct H2 as (Hs2 & Hm2 & Hp2).
  destruct (onDragEnd props); simpl; repeat split; assumption.
Qed.

(** X9.  A release delivered by [touchend] never schedules the
    fullscreen preview and never changes whether the modal is shown: the
    click distance is computed from [e.clientX] and [e.clientY], which a
    [TouchEvent] does not have, so the test [clickDistance < 10] fails. *)
Theorem touch_release_never_opens props s e :
  pendingOpen (step props (touchend e) s) = pendingOpen s /\
  showLargePreview (step props (touchend e) s) = showLargePreview s.
Proof.
  unfold step.
  destruct (render_facts s (dispatch props (touchend e) s))
    as (Hs & _ & _ & _ & Hp & _).
  rewrite Hs, Hp. simpl. destruct (disabled s); [now split|].
  unfold handleTouchEnd.
  destruct (handleMouseUp_pendingOpen props (OfTouch e) s) as (Hs' & _ & Hp').
  rewrite Hs', Hp'. unfold genuineClick. simpl.
  now rewrite andb_false_r.
Qed.

(** X10.  The fullscreen preview is scheduled by nothing but a genuine
    mouse click: if an event adds a pending open, it is a [mouseup]
    handled while the modal is closed, with no drag and no movement
    recorded for the contact, not on a control, less than 500 ms after and
    less than 10 px from the press. *)
Theorem open_only_by_click props s ev :
  pendingOpen (step props ev s) = S (pendingOpen s) ->
  exists e,
    ev = mouseup e /\
    disabled s = false /\
    Drag.isDragging (dragDataRef s) = false /\
    Drag.hasMoved (dragDataRef s) = false /\
    onControl e = false /\
    now e - Click.startTime (clickDataRef s) < 500 /\
    Euclid.sq (clientX e - Click.startX (clickDataRef s))
              (clientY e - Click.startY (clickDataRef s)) < 10 * 10.
Proof.
  unfold step.
  destruct (render_facts s (dispatch props ev s)) as (_ & _ & _ & _ & -> & _).
  assert (Hno : forall n : nat, n = S n -> False) by (intros n Hn; lia).
  destruct ev; simpl; intros H.
  - exfalso. revert H. unfold handleMouseDown, Thumbnail.handleMouseDown.
    split_ifs; simpl; apply Hno.
  - exfalso. revert H. destruct (disabled s); [apply Hno|].
    unfold handleMouseMove. destruct (_ || _); [apply Hno|].
    unfold moveTo, emit_opt. split_ifs; simpl; apply Hno.
  - destruct (disabled s) eqn:Hd; [exfalso; now apply (Hno (pendingOpen s))|].
    destruct (handleMouseUp_pendingOpen props (OfMouse e) s) as (_ & _ & Hp).
    rewrite Hp in H. unfold genuineClick in H. rewrite Hd in H. simpl in H.
    destruct (Drag.isDragging (dragDataRef s));
      [exfalso; now apply (Hno (pendingOpen s))|].
    destruct (Drag.hasMoved (dragDataRef s));
      [exfalso; now apply (Hno (pendingOpen s))|].
    destruct (onControl e) eqn:Hc;
      [exfalso; now apply (Hno (pendingOpen s))|].
    simpl in H.
    destruct (now e - Click.startTime (clickDataRef s) <? 500) eqn:Ht;
      [|exfalso; now apply (Hno (pendingOpen s))].
    destruct (Euclid.sq _ _ <? _) eqn:Hdist;
      [|exfalso; now apply (Hno (pendingOpen s))].
    apply Z.ltb_lt in Ht, Hdist. exists e. now repeat split.
  - exfalso. revert H. unfold handleTouchStart, Thumbnail.handleMouseDown.
    destruct (touches e); split_ifs; simpl; apply Hno.
  - exfalso. revert H. destruct (disabled s); [apply Hno|].
    unfold handleTouchMove. destruct (_ || _); [apply Hno|].
    destruct (touches e); [apply Hno|].
    unfold moveTo, emit_opt. split_ifs; simpl; apply Hno.
  - exfalso. destruct (disabled s); [now apply (Hno (pendingOpen s))|].
    unfold handleTouchEnd in H.
    destruct (handleMouseUp_pendingOpen props (OfTouch e) s) as (_ & _ & Hp).
    rewrite Hp in H. unfold genuineClick in H. simpl in H.
    rewrite andb_false_r in H. now apply (Hno (pendingOpen s)).
  - exfalso. revert H. unfold handleKeyDown.
    destruct (showLargePreview s), key, ctrlKey; simpl; apply Hno.
  - exfalso. revert H. unfold handleResize. simpl.
    destruct (_ || _); simpl; apply Hno.
  - exfalso. revert H. destruct (_ && _); simpl; apply Hno.
  - exfalso. revert H. destruct (_ && _); simpl; apply Hno.
  - exfalso. revert H. destruct (disabled s); simpl; apply Hno.
  - exfalso. revert H. destruct (disabled s); simpl; apply Hno.
  - exfalso. revert H. destruct (disabled s); simpl; apply Hno.
  - exfalso. revert H. simpl. apply Hno.
  - exfalso. revert H. destruct (pendingOpen s) eqn:E; simpl; intros H;
      [rewrite E in H|]; lia.
Qed.

Lemma open_only_by_click_witness :
  let s := step thumbnailProps (mousedown (primary 100 100) (mkPoint 20 20))
             (initial 1000 800) in
  exists e,
    mouseup (primary 101 101) = mouseup e /\
    disabled s = false /\
    Drag.isDragging (dragDataRef s) = false /\
    Drag.hasMoved (dragDataRef s) = false /\
    onControl e = false /\
    now e - Click.startTime (clickDataRef s) < 500 /\
    Euclid.sq (clientX e - Click.startX (clickDataRef s))
              (clientY e - Click.startY (clickDataRef s)) < 10 * 10.
Proof.
  apply (open_only_by_click thumbnailProps).
  vm_compute. reflexivity.
Defined.

Lemma mousedown_step props s e rect :
  disabled s = false -> button e = 0 -> onControl e = false ->
  step props (mousedown e rect) s
  = set_userSelect select_none
      (set_cursor grab
         (set_clickData (Click.mk (now e) (clientX e) (clientY e))
            (emit (MouseDownCb (clientX e) (clientY e))
               (set_dragData
                  (Drag.armed (clientX e) (clientY e) (x rect) (y rect))
                  s)))).
Proof.
  unfold disabled. intros Hd Hb Hc. unfold step. simpl.
  unfold handleMouseDown, Thumbnail.handleMouseDown, disabled.
  rewrite Hb, Hc, Hd. simpl. rewrite Hd.
  now apply render_same.
Qed.

(** X8.  A mouse click on the thumbnail body opens the fullscreen
    preview: after an accepted press, any moves whose path is at most 5 px
    long and a release, one open is scheduled exactly when the release is
    not on a control, comes less than 500 ms after the press and lies less
    than 10 px from it; the modal is still closed then, and it is open
    once the 50 ms timer has fired.  Otherwise nothing is scheduled. *)
Theorem click_opens_preview props s e rect moves pts r :
  disabled s = false -> button e = 0 -> onControl e = false ->
  Forall2 (fun ev p => movePoint ev = Some p) moves pts ->
  (pathLength (clientX e, clientY e) pts <= 5)%R ->
  let s3 := step props (mouseup r)
              (run props moves (step props (mousedown e rect) s)) in
  let genuine :=
    negb (onControl r) && (now r - now e <? 500)
    && (Euclid.sq (clientX r - clientX e) (clientY r - clientY e)
        <? 10 * 10) in
  pendingOpen s3 = (if genuine then S (pendingOpen s) else pendingOpen s) /\
  showLargePreview s3 = false /\
  (genuine = true -> showLargePreview (step props timeout s3) = true).
Proof.
  intros Hd Hb Hc Hmoves Hlen. cbv zeta.
  assert (Hpress : pressPoint (mousedown e rect) = Some (clientX e, clientY e)).
  { simpl. now rewrite Hb, Hc. }
  destruct (press_armed props s (mousedown e rect) _ Hd Hpress)
    as (Harm & _).
  rewrite (moves_below_threshold props _ _ moves pts Harm Hmoves)
    by (intros q Hin;
        now apply (short_path_under_threshold (clientX e, clientY e) pts)).
  rewrite (mousedown_step props s e rect Hd Hb Hc).
  set (s1 := set_userSelect _ _).
  assert (Hs3 :
    pendingOpen (step props (mouseup r) s1)
    = (if negb (onControl r) && (now r - now e <? 500)
          && (Euclid.sq (clientX r - clientX e) (clientY r - clientY e)
              <? 10 * 10)
       then S (pendingOpen s) else pendingOpen s) /\
    showLargePreview (step props (mouseup r) s1) = false).
  { unfold step.
    destruct (render_facts s1 (dispatch props (mouseup r) s1))
      as (Hs & _ & _ & _ & Hp & _).
    rewrite Hs, Hp. simpl. unfold disabled in Hd |- *. simpl. rewrite Hd.
    destruct (handleMouseUp_pendingOpen props (OfMouse r) s1)
      as (Hs' & _ & Hp').
    rewrite Hs', Hp'. unfold genuineClick, disabled. simpl. rewrite Hd. simpl.
    split; [|reflexivity].
    now rewrite andb_assoc. }
  destruct Hs3 as [Hp Hs]. split; [exact Hp|]. split; [exact Hs|].
  intros Hg. rewrite Hg in Hp. unfold step at 1.
  destruct (render_facts (step props (mouseup r) s1)
              (dispatch props timeout (step props (mouseup r) s1)))
    as (Hs' & _).
  rewrite Hs'. simpl. now rewrite Hp.
Qed.

Lemma click_opens_preview_witness :
  let s := initial 1000 800 in
  let e := {| clientX := 100; clientY := 100; button := 0;
              onControl := false; now := 1000 |} in
  let r := {| clientX := 103; clientY := 100; button := 0;
              onControl := false; now := 1120 |} in
  let s3 := step thumbnailProps (mouseup r)
              (run thumbnailProps [mousemove (primary 103 100)]
                 (step thumbnailProps (mousedown e (mkPoint 20 20)) s)) in
  pendingOpen s3 = 1%nat /\
  showLargePreview s3 = false /\
  showLargePreview (step thumbnailProps timeout s3) = true.
Proof.
  cbv zeta.
  destruct (click_opens_preview thumbnailProps (initial 1000 800)
              {| clientX := 100; clientY := 100; button := 0;
                 onControl := false; now := 1000 |}
              (mkPoint 20 20)
              [mousemove (primary 103 100)] [(103, 100)]
              {| clientX := 103; clientY := 100; button := 0;
                 onControl := false; now := 1120 |})
    as (H1 & H2 & H3).
  - reflexivity.
  - reflexivity.
  - reflexivity.
  - repeat constructor.
  - cbn [pathLength fst snd clientX clientY]. unfold Euclid.distance.
    change (Euclid.sq (103 - 100) (100 - 100)) with (3 * 3).
    rewrite sqrt_IZR_square by lia. lra.
  - split; [exact H1|]. split; [exact H2|]. apply H3. reflexivity.
Defined.

(** ** Moves of a drag *)

(** X12.  Once a contact is dragging, every move of it, however close to
    the press point, commits the clamp of the thumbnail's origin at the
    press plus the pointer's displacement since the press, emits that one
    position update and nothing else, and records the committed point in
    the gesture record; the 5 px threshold is not tested again. *)
Theorem drag_follows_pointer props s ev q :
  disabled s = false ->
  Drag.isDragging (dragDataRef s) = true ->
  Drag.startX (dragDataRef s) <> 0 ->
  movePoint ev = Some q ->
  let d := dragDataRef s in
  let s' := step props ev s in
  let target :=
    clamp (mkPoint (Drag.startLeft d + (fst q - Drag.startX d))
                   (Drag.startTop d + (snd q - Drag.startY d)))
          elementWidth (elementHeight (isMinimized s))
          (innerWidth s) (innerHeight s) in
  thumbnailPosition s' = target /\
  emitted s s' [PositionChange target] /\
  Drag.currentX (dragDataRef s') = x target /\
  Drag.currentY (dragDataRef s') = y target /\
  Drag.isDragging (dragDataRef s') = true.
Proof.
  unfold disabled. intros Hd Hdrag Hx Hq. cbv zeta.
  apply Z.eqb_neq in Hx.
  assert (Hdis : exists c, dispatch props ev s
                           = moveTo props c (fst q) (snd q) s).
  { destruct ev; try discriminate Hq; simpl in Hq |- *; unfold disabled;
      rewrite Hd.
    - injection Hq as <-. unfold handleMouseMove, disabled.
      rewrite Hx, Hd. simpl. eauto.
    - destruct (touches e) as [|t [|t' rest]] eqn:Ht; try discriminate Hq.
      injection Hq as <-.
      unfold handleTouchMove, disabled. rewrite Hx, Hd, Ht. simpl. eauto. }
  destruct Hdis as (c & Hdis). unfold step. rewrite Hdis.
  assert (Hmove : moveTo props c (fst q) (snd q) s
                  = updatePosition
                      (Drag.startLeft (dragDataRef s)
                       + (fst q - Drag.startX (dragDataRef s)))
                      (Drag.startTop (dragDataRef s)
                       + (snd q - Drag.startY (dragDataRef s))) s).
  { unfold moveTo. now rewrite Hdrag, andb_false_r, Hdrag. }
  rewrite Hmove.
  rewrite render_synced.
  - unfold emitted. simpl. repeat split. exact Hdrag.
  - exact Hd.
  - exact Hd.
  - reflexivity.
  - unfold synced. simpl. now rewrite !Z.sub_diag.
Qed.

Lemma drag_follows_pointer_witness :
  let s := dragged 1000 800 (100, 100) (230, 230) in
  let s' := step thumbnailProps (mousemove (primary 101 99)) s in
  thumbnailPosition s' = mkPoint 21 19 /\
  emitted s s' [PositionChange (mkPoint 21 19)] /\
  Drag.isDragging (dragDataRef s') = true.
Proof.
  cbv zeta.
  assert (Hd : disabled (dragged 1000 800 (100, 100) (230, 230)) = false)
    by (vm_compute; reflexivity).
  assert (Hr : dragDataRef (dragged 1000 800 (100, 100) (230, 230))
               = Drag.mk true 100 100 20 20 150 150 true)
    by (vm_compute; reflexivity).
  assert (Hm : isMinimized (dragged 1000 800 (100, 100) (230, 230)) = false)
    by (vm_compute; reflexivity).
  assert (HW : innerWidth (dragged 1000 800 (100, 100) (230, 230)) = 1000)
    by (vm_compute; reflexivity).
  assert (HH : innerHeight (dragged 1000 800 (100, 100) (230, 230)) = 800)
    by (vm_compute; reflexivity).
  destruct (drag_follows_pointer thumbnailProps
              (dragged 1000 800 (100, 100) (230, 230))
              (mousemove (primary 101 99)) (101, 99))
    as (H1 & H2 & _ & _ & H5).
  - exact Hd.
  - now rewrite Hr.
  - rewrite Hr. simpl. lia.
  - reflexivity.
  - rewrite Hr, Hm, HW, HH in H1, H2.
    split; [exact H1|]. split; [exact H2 | exact H5].
Defined.

(** ** The zoom of the fullscreen preview *)

Module ZoomFacts.
Import Floats.
#[local] Set Warnings "-inexact-float".

Ltac in_levels :=
  repeat (first [left; reflexivity | right]).

Lemma levels_closed v a :
  In v Zoom.levels -> In (Zoom.apply v a) Zoom.levels.
Proof.
  intros H. unfold Zoom.levels in H. simpl in H.
  repeat (destruct H as [<- | H]); try contradiction;
    destruct a as [[|] [| | | | | |] | |];
    vm_compute; in_levels.
Qed.

Lemma scaleAfter_levels acts : In (Zoom.scaleAfter acts) Zoom.levels.
Proof.
  unfold Zoom.scaleAfter.
  assert (H : forall v, In v Zoom.levels ->
                        In (fold_left Zoom.apply acts v) Zoom.levels).
  { induction acts as [|a acts IH]; intros v Hv; simpl.
    - exact Hv.
    - apply IH. now apply levels_closed. }
  apply H. left. reflexivity.
Qed.

(** X13.  Whatever sequence of zoom keys (with the modal open or closed)
    and zoom button clicks is applied to the initial scale 0.5, the scale
    stays within [0.3, 1.5] in binary64 arithmetic, and the percentage
    displayed, [Math.round(scale * 100)], is a multiple of 10 between 30
    and 150. *)
Theorem zoom_stays_in_range acts :
  let v := Zoom.scaleAfter acts in
  PrimFloat.leb 0.3 v = true /\
  PrimFloat.leb v 1.5 = true /\
  exists p, Zoom.percent v = Some p /\ 30 <= p <= 150 /\ p mod 10 = 0.
Proof.
  cbv zeta. pose proof (scaleAfter_levels acts) as H.
  revert H. generalize (Zoom.scaleAfter acts). intros v H.
  unfold Zoom.levels in H. simpl in H.
  repeat (destruct H as [<- | H]); try contradiction;
    (split; [vm_compute; reflexivity|]);
    (split; [vm_compute; reflexivity|]);
    eexists; (split; [vm_compute; reflexivity|]);
    (split; [lia | reflexivity]).
Qed.

(** X14.  On every scale that can be reached, the display moves by
    exact steps: zooming in shows the percentage plus 10, capped at 150,
    and zooming out shows the percentage minus 10, not below 30, so that
    zooming in and out again shows the percentage one started from except
    at the two ends. *)
Theorem zoom_display_steps acts :
  let v := Zoom.scaleAfter acts in
  Zoom.percent (Zoom.zoomIn v)
  = option_map (fun p => Z.min (p + 10) 150) (Zoom.percent v) /\
  Zoom.percent (Zoom.zoomOut v)
  = option_map (fun p => Z.max (p - 10) 30) (Zoom.percent v).
Proof.
  cbv zeta. pose proof (scaleAfter_levels acts) as H.
  revert H. generalize (Zoom.scaleAfter acts). intros v H.
  unfold Zoom.levels in H. simpl in H.
  repeat (destruct H as [<- | H]); try contradiction;
    split; vm_compute; reflexivity.
Qed.

End ZoomFacts.

(** ** The URL bar *)

Module UrlFacts.
Import Strings.String.
Local Open Scope string_scope.

Lemma submit_keeps_scheme trim parses st :
  match Url.currentWebsiteUrl st with
  | None => True
  | Some u => Url.hasScheme u = true /\ parses u = true
  end ->
  match Url.currentWebsiteUrl (fst (Url.handleUrlSubmit trim parses st)) with
  | None => True
  | Some u => Url.hasScheme u = true /\ parses u = true
  end.
Proof.
  intros H. unfold Url.handleUrlSubmit, Url.isValidUrl.
  destruct (trim (Url.urlInput st) =? "")%string; [exact I|].
  destruct (negb (prefix "http://" (trim (Url.urlInput st)))
            && negb (prefix "https://" (trim (Url.urlInput st)))) eqn:Hp.
  - destruct (parses ("https://" ++ trim (Url.urlInput st))) eqn:Hv; simpl.
    + split; [|exact Hv]. unfold Url.hasScheme.
      apply orb_true_iff. right. simpl.
      repeat (destruct (Ascii.ascii_dec _ _) as [_ | Hne];
              [|now contradiction Hne]).
      now destruct (trim (Url.urlInput st)).
    + exact H.
  - destruct (parses (trim (Url.urlInput st))) eqn:Hv; simpl; [|exact H].
    split; [|exact Hv]. unfold Url.hasScheme.
    apply andb_false_iff in Hp. apply orb_true_iff.
    destruct Hp as [Hp | Hp]; apply negb_false_iff in Hp; auto.
Qed.

(** X15.  Whatever the user types, clears and submits in the URL bar,
    and whatever [trim] and the URL parser do, the website shown in the
    thumbnail is either the built-in editor ([null]) or a URL that starts
    with [http://] or [https://] and that the URL parser accepts. *)
Theorem committed_url_has_scheme trim parses acts :
  match Url.currentWebsiteUrl (Url.after trim parses acts) with
  | None => True
  | Some u => Url.hasScheme u = true /\ parses u = true
  end.
Proof.
  unfold Url.after.
  assert (H : forall st,
    match Url.currentWebsiteUrl st with
    | None => True
    | Some u => Url.hasScheme u = true /\ parses u = true
    end ->
    match Url.currentWebsiteUrl (fold_left (Url.apply trim parses) acts st) with
    | None => True
    | Some u => Url.hasScheme u = true /\ parses u = true
    end).
  { induction acts as [|a acts IH]; intros st Hst; simpl; [exact Hst|].
    apply IH. destruct a; simpl; try exact Hst.
    now apply submit_keeps_scheme. }
  apply H. exact I.
Qed.

End UrlFacts.
